(** * Price tracker: the search pipeline of the backend

    A shallow embedding of the price-comparison backend
    (BaseScraper.js, scrapers/index.js, services/searchService.js and
    utils/productMatcher.js) together with the properties the
    specification states about it.  Further sections cover the control
    flow of the three scrapers (AmazonScraper.js, FlipkartScraper.js,
    MyntraScraper.js) and services/schedulerService.js.

    Conventions of the embedding.
    - A JavaScript string is the list of its UTF-16 code units
      ([jsstring]); [String.prototype.length] is [length].  The rupee
      sign U+20B9 is one code unit, 8377.
    - A JavaScript number is [NaN], an infinity, or an exact rational
      ([jsnum]).  Rounding to binary64 is not modelled: it is monotone and
      it is the identity on the integers below 2^53, so it changes neither
      a comparison with the threshold 100 nor the choice of a minimum.
      Where a number is read from a string to bound a loop
      ([Transport.parseInt]) it is rounded.  The two zeros are identified.
    - A function that throws returns a value of a sum type; asynchronous
      code is modelled by the sequence of its effects. *)

From Stdlib Require Import Strings.String Strings.Ascii Numbers.DecimalString.
From Stdlib Require Import List Bool Arith NArith ZArith QArith Lia Lqa.
From Stdlib Require Import Sorting.Permutation Sorting.Sorted QArith.Qround.
From Stdlib Require Import Numbers.DecimalN.
Import ListNotations.
Close Scope Q_scope.
Open Scope nat_scope.

Set Implicit Arguments.

(* ================================================================== *)
(** * JavaScript strings *)
(* ================================================================== *)

Module JsString.

Definition jsstring := list N.

(** Code units of an ASCII literal. *)
Fixpoint js (s : String.string) : jsstring :=
  match s with
  | String.EmptyString => []
  | String.String c r => N_of_ascii c :: js r
  end.

Definition rupee : N := 8377%N.   (* U+20B9 *)

Definition inRange (lo hi c : N) : bool := ((lo <=? c) && (c <=? hi))%N.

Definition isDigit (c : N) : bool := inRange 48 57 c.
Definition isLower (c : N) : bool := inRange 97 122 c.
Definition isUpper (c : N) : bool := inRange 65 90 c.

(** [\w] : [A-Za-z0-9_]. *)
Definition isWord (c : N) : bool :=
  isDigit c || isLower c || isUpper c || (c =? 95)%N.

(** [\s], and the characters [trim] strips: WhiteSpace and LineTerminator. *)
Definition isSpace (c : N) : bool :=
  inRange 9 13 c || (c =? 32)%N || (c =? 160)%N || (c =? 5760)%N
  || inRange 8192 8202 c || (c =? 8232)%N || (c =? 8233)%N
  || (c =? 8239)%N || (c =? 8287)%N || (c =? 12288)%N || (c =? 65279)%N.

Fixpoint takeWhile (f : N -> bool) (s : jsstring) : jsstring :=
  match s with
  | [] => []
  | c :: r => if f c then c :: takeWhile f r else []
  end.

Fixpoint dropWhile (f : N -> bool) (s : jsstring) : jsstring :=
  match s with
  | [] => []
  | c :: r => if f c then dropWhile f r else s
  end.

Definition trimStart (s : jsstring) : jsstring := dropWhile isSpace s.
Definition trimEnd (s : jsstring) : jsstring := rev (dropWhile isSpace (rev s)).
Definition trim (s : jsstring) : jsstring := trimEnd (trimStart s).

Fixpoint eqb (a b : jsstring) : bool :=
  match a, b with
  | [], [] => true
  | x :: a', y :: b' => (x =? y)%N && eqb a' b'
  | _, _ => false
  end.

(** [s.startsWith(p)]. *)
Fixpoint startsWith (p s : jsstring) : bool :=
  match p, s with
  | [], _ => true
  | x :: p', y :: s' => (x =? y)%N && startsWith p' s'
  | _ :: _, [] => false
  end.

(** [s.includes(sub)]. *)
Fixpoint includes (s sub : jsstring) : bool :=
  startsWith sub s ||
  match s with
  | [] => false
  | _ :: r => includes r sub
  end.

(** [toLowerCase] on one code unit.  Besides A-Z two code units outside
    ASCII have a lower case inside ASCII: the Kelvin sign U+212A gives k,
    and U+0130 gives i followed by the combining dot U+0307.  Every other
    code unit above 127 has a lower case above 127, and the embedding leaves
    it as it is: each use below drops or replaces the units above 127,
    compares the result with strings of ASCII units only, or asks of the
    result only whether it has a lone surrogate, which the lower case
    neither adds nor removes. *)
Definition lowerUnit (c : N) : jsstring :=
  if isUpper c then [(c + 32)%N]
  else if (c =? 8490)%N then [107%N]
  else if (c =? 304)%N then [105%N; 775%N]
  else [c].

Definition toLowerCase (s : jsstring) : jsstring := flat_map lowerUnit s.

(** [s.split(' ')]: always at least one piece. *)
Fixpoint split_space (s : jsstring) : list jsstring :=
  match s with
  | [] => [[]]
  | c :: r =>
      if (c =? 32)%N then [] :: split_space r
      else match split_space r with
           | [] => [[c]]
           | w :: ws => (c :: w) :: ws
           end
  end.

(** [s.replace(/\s+/g, ' ')]: every run of white space becomes one space. *)
Fixpoint collapseSpaces (s : jsstring) : jsstring :=
  match s with
  | [] => []
  | c :: r =>
      if isSpace c then
        match r with
        | d :: _ => if isSpace d then collapseSpaces r else 32%N :: collapseSpaces r
        | [] => [32%N]
        end
      else c :: collapseSpaces r
  end.

(** Decimal digits of a natural number, as [String(n)] prints them. *)
Definition ofN (n : N) : jsstring :=
  js (DecimalString.NilZero.string_of_uint (N.to_uint n)).

End JsString.
Import JsString.

(* ================================================================== *)
(** * JavaScript numbers *)
(* ================================================================== *)

Module JsNum.

Inductive jsnum : Type :=
| NaN
| PInf
| NInf
| Fin (q : Q).

Definition ofZ (z : Z) : jsnum := Fin (inject_Z z).

Definition isNaN (a : jsnum) : bool :=
  match a with NaN => true | _ => false end.

(** [a < b]; false as soon as an operand is NaN. *)
Definition lt (a b : jsnum) : bool :=
  match a, b with
  | NaN, _ | _, NaN => false
  | _, NInf => false
  | NInf, _ => true
  | PInf, _ => false
  | Fin _, PInf => true
  | Fin x, Fin y => negb (Qle_bool y x)
  end.

(** [a <= b]. *)
Definition le (a b : jsnum) : bool :=
  match a, b with
  | NaN, _ | _, NaN => false
  | NInf, _ => true
  | _, PInf => true
  | _, NInf => false
  | PInf, Fin _ => false
  | Fin x, Fin y => Qle_bool x y
  end.

Definition gt (a b : jsnum) : bool := lt b a.
Definition ge (a b : jsnum) : bool := le b a.

(** [a === b] on numbers. *)
Definition eqb (a b : jsnum) : bool :=
  match a, b with
  | PInf, PInf | NInf, NInf => true
  | Fin x, Fin y => Qeq_bool x y
  | _, _ => false
  end.

(** ToBoolean: 0 and NaN are falsy. *)
Definition truthy (a : jsnum) : bool :=
  match a with
  | NaN => false
  | Fin x => negb (Qeq_bool x 0)
  | _ => true
  end.

(** [a - b]. *)
Definition sub (a b : jsnum) : jsnum :=
  match a, b with
  | NaN, _ | _, NaN => NaN
  | PInf, PInf | NInf, NInf => NaN
  | PInf, _ | _, NInf => PInf
  | NInf, _ | _, PInf => NInf
  | Fin x, Fin y => Fin (Qred (x - y))
  end.

Definition hundred : jsnum := ofZ 100.
Definition zero : jsnum := ofZ 0.

(** Value of a run of decimal digits. *)
Definition digitsValue (ds : jsstring) : Z :=
  fold_left (fun acc c => (acc * 10 + (Z.of_N c - 48))%Z) ds 0%Z.

(** [m * 10^e] as a reduced fraction. *)
Definition scale10 (m e : Z) : Q := Qred (inject_Z m * Qpower (10 # 1) e).

(** [parseFloat]: leading white space is skipped, then the longest prefix
    that is a decimal literal (sign, digits, fraction, exponent, or
    Infinity) is read; NaN when there is none. *)
Definition parseFloat (s : jsstring) : jsnum :=
  let s0 := trimStart s in
  let '(neg, s1) :=
    match s0 with
    | 43%N :: r => (false, r)
    | 45%N :: r => (true, r)
    | _ => (false, s0)
    end in
  if startsWith (js "Infinity") s1 then (if neg then NInf else PInf)
  else
    let ip := takeWhile isDigit s1 in
    let r1 := dropWhile isDigit s1 in
    let '(fp, r2) :=
      match r1 with
      | 46%N :: r => (takeWhile isDigit r, dropWhile isDigit r)
      | _ => ([], r1)
      end in
    match ip ++ fp with
    | [] => NaN
    | ds =>
        let ex :=
          match r2 with
          | c :: r3 =>
              if (c =? 101)%N || (c =? 69)%N then
                let '(eneg, r4) :=
                  match r3 with
                  | 43%N :: r => (false, r)
                  | 45%N :: r => (true, r)
                  | _ => (false, r3)
                  end in
                match takeWhile isDigit r4 with
                | [] => 0%Z
                | ed => if eneg then (- digitsValue ed)%Z else digitsValue ed
                end
              else 0%Z
          | [] => 0%Z
          end in
        let m := digitsValue ds in
        Fin (scale10 (if neg then (- m)%Z else m)
                     (ex - Z.of_nat (length fp)))
    end.

(** [Array.prototype.sort(cmp)]: the sort is stable, and for a consistent
    comparator the stable sorted arrangement is unique; insertion from the
    right computes it.  A comparator result that is not greater than zero
    (NaN included) leaves the pair in place. *)
Section Sort.
Variable A : Type.
Variable cmp : A -> A -> jsnum.

Fixpoint insertSorted (x : A) (l : list A) : list A :=
  match l with
  | [] => [x]
  | y :: r => if gt (cmp x y) zero then y :: insertSorted x r else x :: l
  end.

Definition sortBy (l : list A) : list A := fold_right insertSorted [] l.

End Sort.

End JsNum.
Import JsNum.

(* ================================================================== *)
(** * Values and records shared by the scrapers and the services *)
(* ================================================================== *)

(** A primitive JavaScript value. *)
Inductive jsval : Type :=
| VUndefined
| VNull
| VBool (b : bool)
| VNum (n : jsnum)
| VStr (s : jsstring).

(** [v === 'literal']. *)
Definition strictEqStr (v : jsval) (lit : jsstring) : bool :=
  match v with
  | VStr s => JsString.eqb s lit
  | _ => false
  end.

(** [v === true]. *)
Definition strictEqTrue (v : jsval) : bool :=
  match v with
  | VBool b => b
  | _ => false
  end.

(** The [price] field: a number, null, or missing, as the schema comment
    of [normalizeResults] has it ([price: number | null]). *)
Inductive jsprice : Type :=
| PMissing
| PNull
| PNum (n : jsnum).

(** ToBoolean of a price. *)
Definition priceTruthy (p : jsprice) : bool :=
  match p with
  | PNum n => truthy n
  | _ => false
  end.

(** ToNumber of a price: null is 0, undefined is NaN. *)
Definition priceNumber (p : jsprice) : jsnum :=
  match p with
  | PMissing => NaN
  | PNull => zero
  | PNum n => n
  end.

(** [a || b] on strings: the empty string is falsy (and stands for a
    missing property as well). *)
Definition orStr (a b : jsstring) : jsstring :=
  match a with
  | [] => b
  | _ :: _ => a
  end.

(** What a scraper's parser pushes for one listing. *)
Record rawResult : Type := mkRaw {
  r_title : jsstring;
  r_price : jsprice;
  r_url : jsstring;
  r_imageUrl : jsstring;
  r_availability : jsval;
  r_specs : jsstring;
  r_description : jsstring
}.

(** The canonical product, with the legacy aliases of each field. *)
Record product : Type := mkProduct {
  source : jsstring;
  platform : jsstring;
  siteName : jsstring;
  product_name : jsstring;
  title : jsstring;
  productTitle : jsstring;
  price : jsprice;
  currency : jsstring;
  product_url : jsstring;
  url : jsstring;
  productUrl : jsstring;
  image_url : option jsstring;
  imageUrl : option jsstring;
  availability : jsval;
  inStock : bool;
  specs : jsstring;
  description : jsstring
}.

(* ================================================================== *)
(** * BaseScraper.js: the price normalizer and the canonical schema *)
(* ================================================================== *)

Module BaseScraper.

Definition isDigitOrComma (c : N) : bool := isDigit c || (c =? 44)%N.

(** The group [([\d,]+(?:\.\d{1,2})?)] read at the head of [s].  Both
    quantifiers are greedy and nothing follows the group, so the first
    attempt of the backtracking matcher is the match. *)
Definition matchAmount (s : jsstring) : option jsstring :=
  match takeWhile isDigitOrComma s with
  | [] => None
  | ds =>
      let frac :=
        match dropWhile isDigitOrComma s with
        | 46%N :: d1 :: r =>
            if isDigit d1 then
              match r with
              | d2 :: _ => if isDigit d2 then [46%N; d1; d2] else [46%N; d1]
              | [] => [46%N; d1]
              end
            else []
        | _ => []
        end in
      Some (ds ++ frac)
  end.

(** The first pattern, anchored at the head of [s]: the rupee sign, white
    space, the amount.  The result is the capture and the length of the
    whole match. *)
Definition matchRupeeAt (s : jsstring) : option (jsstring * nat) :=
  match s with
  | c :: r =>
      if (c =? rupee)%N then
        match matchAmount (dropWhile isSpace r) with
        | Some cap => Some (cap, 1 + length (takeWhile isSpace r) + length cap)
        | None => None
        end
      else None
  | [] => None
  end.

(** The second pattern, [Rs\.?\s*(...)] with the flag i, anchored at the
    head of [s].  Giving the optional dot back never helps: the amount
    cannot start with a dot. *)
Definition matchRsAt (s : jsstring) : option (jsstring * nat) :=
  match s with
  | c1 :: c2 :: r =>
      if ((c1 =? 82) || (c1 =? 114))%N && ((c2 =? 83) || (c2 =? 115))%N then
        let '(dot, r1) :=
          match r with
          | 46%N :: r' => (1, r')
          | _ => (0, r)
          end in
        match matchAmount (dropWhile isSpace r1) with
        | Some cap =>
            Some (cap, 2 + dot + length (takeWhile isSpace r1) + length cap)
        | None => None
        end
      else None
  | _ => None
  end.

(** The loop [while ((match = pattern.exec(str)) !== null)] of a global
    pattern: the leftmost match from lastIndex on, then lastIndex moves to
    its end.  [skip] counts the code units of the current match that are
    still to be passed. *)
Fixpoint execAll (matchAt : jsstring -> option (jsstring * nat))
         (skip : nat) (s : jsstring) : list jsstring :=
  match s with
  | [] => []
  | _ :: r =>
      match skip with
      | S k => execAll matchAt k r
      | O =>
          match matchAt s with
          | Some (cap, len) => cap :: execAll matchAt (pred len) r
          | None => execAll matchAt 0 r
          end
      end
  end.

(** [parseFloat(match[1].replace(/,/g, ''))]. *)
Definition captureValue (cap : jsstring) : jsnum :=
  parseFloat (filter (fun c => negb (c =? 44)%N) cap).

(** The value of every symbol-anchored match, first pattern first. *)
Definition symbolMatches (str : jsstring) : list jsnum :=
  map captureValue (execAll matchRupeeAt 0 str ++ execAll matchRsAt 0 str).

(** [candidatePrices] after the two loops. *)
Definition candidatePrices (str : jsstring) : list jsnum :=
  filter (fun val => negb (isNaN val) && ge val hundred) (symbolMatches str).

(** [.replace(/Rs\.?/gi, '')]. *)
Fixpoint removeRs (skip : nat) (s : jsstring) : jsstring :=
  match s with
  | [] => []
  | c1 :: r =>
      match skip with
      | S k => removeRs k r
      | O =>
          match r with
          | c2 :: r2 =>
              if ((c1 =? 82) || (c1 =? 114))%N && ((c2 =? 83) || (c2 =? 115))%N
              then match r2 with
                   | 46%N :: _ => removeRs 2 r
                   | _ => removeRs 1 r
                   end
              else c1 :: removeRs 0 r
          | [] => [c1]
          end
      end
  end.

(** A dot followed by exactly three digits and no further digit. *)
Definition thousandDotAt (s : jsstring) : bool :=
  match s with
  | 46%N :: d1 :: d2 :: d3 :: r =>
      isDigit d1 && isDigit d2 && isDigit d3 &&
      match r with
      | d4 :: _ => negb (isDigit d4)
      | [] => true
      end
  | _ => false
  end.

(** [.replace(/\.(\d{3})(?!\d)/g, '$1')]: the dot goes, the three digits
    stay, and the search resumes after them. *)
Fixpoint dropThousandDots (skip : nat) (s : jsstring) : jsstring :=
  match s with
  | [] => []
  | c :: r =>
      match skip with
      | S k => c :: dropThousandDots k r
      | O =>
          if thousandDotAt s then dropThousandDots 3 r
          else c :: dropThousandDots 0 r
      end
  end.

(** Strategy 2 of [extractPrice]. *)
Definition plainNumber (str : jsstring) : option jsnum :=
  let cleaned :=
    trim (removeRs 0
            (filter (fun c => negb ((c =? rupee) || (c =? 36) || (c =? 44))%N
                              && negb (isSpace c)) str)) in
  match cleaned with
  | [] => None
  | _ :: _ =>
      let normalized := dropThousandDots 0 cleaned in
      let price := parseFloat normalized in
      if isNaN price || le price zero || lt price hundred then None
      else Some price
  end.

(** [extractPrice(priceText)]; [None] stands for null (and, on the
    argument side, for undefined as well). *)
Definition extractPrice (priceText : option jsstring) : option jsnum :=
  match priceText with
  | None => None
  | Some text =>
      let str := trim text in
      if length str <? 2 then None
      else
        let cands := candidatePrices str in
        if 0 <? length cands then hd_error (sortBy sub cands)
        else plainNumber str
  end.

(** [cleanTitle(title)]. *)
Definition cleanTitle (t : jsstring) : jsstring :=
  match t with
  | [] => []
  | _ :: _ => firstn 500 (collapseSpaces (trim t))
  end.

(** The filter of [normalizeResults]: [!result.price || result.price < 100]
    rejects. *)
Definition priceInvalid (p : jsprice) : bool :=
  negb (priceTruthy p) || lt (priceNumber p) hundred.

(** [normalizeResults(results)] of the scraper named [platformName]. *)
Definition normalizeResults (platformName : jsstring)
           (results : list rawResult) : list product :=
  map (fun result =>
         {| source := platformName;
            platform := platformName;
            siteName := platformName;
            product_name := cleanTitle (r_title result);
            title := cleanTitle (r_title result);
            productTitle := cleanTitle (r_title result);
            price := r_price result;
            currency := js "INR";
            product_url := r_url result;
            url := r_url result;
            productUrl := r_url result;
            image_url := match r_imageUrl result with [] => None | u => Some u end;
            imageUrl := match r_imageUrl result with [] => None | u => Some u end;
            availability :=
              VBool (if strictEqStr (r_availability result) (js "out_of_stock")
                     then false else true);
            inStock := negb (strictEqStr (r_availability result) (js "out_of_stock"));
            specs := r_specs result;
            description := orStr (r_description result) (cleanTitle (r_title result)) |})
      (filter (fun result => negb (priceInvalid (r_price result))) results).

End BaseScraper.

(* ================================================================== *)
(** * utils/productMatcher.js *)
(* ================================================================== *)

Module ProductMatcher.

(** A JavaScript [Set] of strings built from a list: the distinct members
    in the order of their first insertion. *)
Fixpoint setOf (l : list jsstring) : list jsstring :=
  match l with
  | [] => []
  | x :: r => x :: filter (fun y => negb (JsString.eqb y x)) (setOf r)
  end.

Definition has (set : list jsstring) (x : jsstring) : bool :=
  existsb (JsString.eqb x) set.

Definition brandMap : list (jsstring * list jsstring) :=
  [ (js "apple", [js "iphone"; js "macbook"; js "ipad"; js "airpods"; js "apple watch"]);
    (js "samsung", [js "galaxy"; js "samsung"]);
    (js "oneplus", [js "oneplus"]);
    (js "xiaomi", [js "xiaomi"; js "redmi"; js "poco"]);
    (js "realme", [js "realme"]);
    (js "oppo", [js "oppo"]);
    (js "vivo", [js "vivo"]);
    (js "google", [js "pixel"]);
    (js "motorola", [js "moto"; js "motorola"]);
    (js "nothing", [js "nothing"]);
    (js "asus", [js "asus"; js "rog"]);
    (js "dell", [js "dell"; js "xps"; js "inspiron"]);
    (js "hp", [js "hp"; js "pavilion"; js "omen"]);
    (js "lenovo", [js "lenovo"; js "thinkpad"; js "yoga"]);
    (js "acer", [js "acer"; js "aspire"]);
    (js "msi", [js "msi"]);
    (js "microsoft", [js "surface"]);
    (js "sony", [js "sony"; js "wh-"; js "wf-"]);
    (js "jbl", [js "jbl"]);
    (js "bose", [js "bose"]);
    (js "boat", [js "boat"]);
    (js "skullcandy", [js "skullcandy"]) ].

Definition isLowerOrDigit (c : N) : bool := isLower c || isDigit c.

(** The position after a word: the end of the string or a non-word unit. *)
Definition wordEnds (rest : jsstring) : bool :=
  match rest with
  | [] => true
  | c :: _ => negb (isWord c)
  end.

Definition fillers : list jsstring :=
  [js "in"; js "for"; js "with"; js "and"; js "the"; js "a"; js "an";
   js "of"; js "to"; js "official"].

(** The alternation [(in|for|...|official)\b] at the head of [s]: the first
    alternative, in the order written, that is followed by a boundary. *)
Definition fillerAt (s : jsstring) : option nat :=
  option_map (@length N)
    (find (fun f => startsWith f s && wordEnds (skipn (length f) s)) fillers).

(** [.replace(/\b(in|for|with|and|the|a|an|of|to|official)\b/g, '')].
    [prevWord] tells whether the unit before the head is a word unit. *)
Fixpoint removeFillers (prevWord : bool) (skip : nat) (s : jsstring) : jsstring :=
  match s with
  | [] => []
  | c :: r =>
      match skip with
      | S k => removeFillers (isWord c) k r
      | O =>
          match (if prevWord then None else fillerAt s) with
          | Some len => removeFillers (isWord c) (pred len) r
          | None => c :: removeFillers (isWord c) 0 r
          end
      end
  end.

(** [normalizeTitle(title)]. *)
Definition normalizeTitle (t : jsstring) : jsstring :=
  match t with
  | [] => []
  | _ :: _ =>
      trim (removeFillers false 0
              (collapseSpaces
                 (filter (fun c => isLowerOrDigit c || isSpace c)
                         (trim (toLowerCase t)))))
  end.

(** [extractBrand(title)]. *)
Definition extractBrand (t : jsstring) : option jsstring :=
  let normalized := normalizeTitle t in
  option_map fst
    (find (fun entry => existsb (includes normalized) (snd entry)) brandMap).

Definition modelSuffixes : list jsstring :=
  [js "pro"; js "max"; js "plus"; js "ultra"; js "standard"].

(** The group of [/\b([a-z0-9]+\s+(?:pro|max|plus|ultra|standard)?)\b/] at
    the head of [s] (the boundary before it is checked by the caller).
    Giving back part of a greedy run never helps: the next item could not
    match at the unit given back. *)
Definition modelAt (s : jsstring) : option jsstring :=
  let w := takeWhile isLowerOrDigit s in
  let r1 := dropWhile isLowerOrDigit s in
  let ws := takeWhile isSpace r1 in
  let r2 := dropWhile isSpace r1 in
  match w, ws with
  | _ :: _, _ :: _ =>
      match find (fun kw => startsWith kw r2 && wordEnds (skipn (length kw) r2))
                 modelSuffixes with
      | Some kw => Some (w ++ ws ++ kw)
      | None =>
          match r2 with
          | c :: _ => if isWord c then Some (w ++ ws) else None
          | [] => None
          end
      end
  | _, _ => None
  end.

(** The leftmost match of the model pattern. *)
Fixpoint modelFrom (prevWord : bool) (s : jsstring) : option jsstring :=
  match s with
  | [] => None
  | c :: r =>
      match (if xorb prevWord (isWord c) then modelAt s else None) with
      | Some m => Some m
      | None => modelFrom (isWord c) r
      end
  end.

(** [extractModel(title)]. *)
Definition extractModel (t : jsstring) : option jsstring :=
  option_map trim (modelFrom false (normalizeTitle t)).

(** [calculateTitleSimilarity(title1, title2)], a percentage. *)
Definition calculateTitleSimilarity (title1 title2 : jsstring) : Q :=
  let norm1 := normalizeTitle title1 in
  let norm2 := normalizeTitle title2 in
  if JsString.eqb norm1 norm2 then 100%Q
  else
    let words1 := setOf (filter (fun w => 2 <? length w) (split_space norm1)) in
    let words2 := setOf (filter (fun w => 2 <? length w) (split_space norm2)) in
    if (length words1 =? 0) || (length words2 =? 0) then 0%Q
    else
      let matches := length (filter (has words2) words1) in
      ((Z.of_nat matches # Pos.of_nat (Nat.max (length words1) (length words2)))
       * 100)%Q.

Definition knownColors : list jsstring :=
  [js "black"; js "white"; js "blue"; js "red"; js "green"; js "gold";
   js "silver"; js "grey"; js "gray"; js "pink"; js "purple"; js "orange";
   js "yellow"; js "teal"; js "coral"; js "ultramarine"; js "midnight";
   js "starlight"; js "titanium"; js "graphite"; js "sierra"; js "alpine";
   js "natural"; js "desert"; js "cream"; js "ivory"; js "lavender";
   js "bronze"; js "navy"; js "space gray"; js "space grey"; js "rose gold"].

Definition isWordOrSpace (c : N) : bool := isWord c || isSpace c.

(** The group of [/\((\w[\w\s]*?)(?:,|\))/i] read just after an opening
    parenthesis.  The lazy run stops at the first comma or closing
    parenthesis, neither of which it can contain. *)
Definition colorGroupAt (s : jsstring) : option jsstring :=
  match s with
  | c :: r =>
      if isWord c then
        match dropWhile isWordOrSpace r with
        | d :: _ =>
            if ((d =? 44) || (d =? 41))%N
            then Some (c :: takeWhile isWordOrSpace r) else None
        | [] => None
        end
      else None
  | [] => None
  end.

(** The leftmost match of the colour pattern. *)
Fixpoint colorGroupFrom (s : jsstring) : option jsstring :=
  match s with
  | [] => None
  | c :: r =>
      match (if (c =? 40)%N then colorGroupAt r else None) with
      | Some g => Some g
      | None => colorGroupFrom r
      end
  end.

(** [extractColor(title)]. *)
Definition extractColor (t : jsstring) : option jsstring :=
  match colorGroupFrom t with
  | Some g =>
      let candidate := toLowerCase (trim g) in
      if has knownColors candidate then Some candidate else None
  | None => None
  end.

(** [/(\d+)\s*(gb|tb|mb)/i] at the head of [s], already assembled as
    digits followed by the unit in lower case. *)
Definition storageAt (s : jsstring) : option jsstring :=
  match takeWhile isDigit s with
  | [] => None
  | ds =>
      match dropWhile isSpace (dropWhile isDigit s) with
      | c1 :: c2 :: _ =>
          if ((c1 =? 103) || (c1 =? 71) || (c1 =? 116) || (c1 =? 84)
              || (c1 =? 109) || (c1 =? 77))%N && ((c2 =? 98) || (c2 =? 66))%N
          then Some (ds ++ toLowerCase [c1; c2]) else None
      | _ => None
      end
  end.

(** [extractStorage(title)]: the leftmost match. *)
Fixpoint extractStorage (t : jsstring) : option jsstring :=
  match t with
  | [] => None
  | _ :: r =>
      match storageAt t with
      | Some st => Some st
      | None => extractStorage r
      end
  end.

(** [a && b && a !== b] on two extracted attributes. *)
Definition bothAndDiffer (a b : option jsstring) : bool :=
  match a, b with
  | Some x, Some y =>
      match x, y with
      | _ :: _, _ :: _ => negb (JsString.eqb x y)
      | _, _ => false
      end
  | _, _ => false
  end.

(** [doProductsMatch(product1, product2)]. *)
Definition doProductsMatch (product1 product2 : product) : bool :=
  let title1 := orStr (title product1) (product_name product1) in
  let title2 := orStr (title product2) (product_name product2) in
  let similarity := calculateTitleSimilarity title1 title2 in
  if negb (Qle_bool 70 similarity) then false
  else if bothAndDiffer (extractBrand title1) (extractBrand title2) then false
  else if bothAndDiffer (extractColor title1) (extractColor title2) then false
  else if bothAndDiffer (extractStorage title1) (extractStorage title2) then false
  else if bothAndDiffer (extractModel title1) (extractModel title2) then false
  else true.

(** The index of the first entry of [seen] that matches [p]. *)
Fixpoint firstMatch (p : product) (seen : list product) (i : nat) : option nat :=
  match seen with
  | [] => None
  | s :: r => if doProductsMatch p s then Some i else firstMatch p r (S i)
  end.

(** [arr[i] = x] for an index inside the array. *)
Fixpoint setAt (i : nat) (x : product) (arr : list product) : list product :=
  match arr, i with
  | [], _ => []
  | _ :: r, O => x :: r
  | y :: r, S k => y :: setAt k x r
  end.

(** [product.price && seen[i].price && product.price < seen[i].price]. *)
Definition cheaper (p s : product) : bool :=
  priceTruthy (price p) && priceTruthy (price s)
  && lt (priceNumber (price p)) (priceNumber (price s)).

(** One turn of the outer loop on the pair [(seen, deduplicated)]. *)
Definition dedupStep (st : list product * list product) (p : product)
  : list product * list product :=
  let '(seen, deduplicated) := st in
  match firstMatch p seen 0 with
  | Some i =>
      match nth_error seen i with
      | Some s =>
          if cheaper p s then (setAt i p seen, setAt i p deduplicated) else st
      | None => st
      end
  | None => (seen ++ [p], deduplicated ++ [p])
  end.

(** [deduplicateByWebsite(products)]. *)
Definition deduplicateByWebsite (products : list product) : list product :=
  if length products <=? 1 then products
  else snd (fold_left dedupStep products ([], [])).

End ProductMatcher.

(* ================================================================== *)
(** * JavaScript objects used as maps, and [Array.prototype.slice] *)
(* ================================================================== *)

Module JsObject.

(** An object with string keys: its own properties in the order of their
    creation, which is the order [Object.keys] and [Object.entries] follow
    (for keys that are not array indices; the platform names are not). *)
Definition obj (V : Type) := list (jsstring * V).

Section Obj.
Variable V : Type.

Fixpoint get (o : obj V) (k : jsstring) : option V :=
  match o with
  | [] => None
  | (k', v) :: r => if JsString.eqb k' k then Some v else get r k
  end.

(** [o[k] = v]. *)
Fixpoint set (o : obj V) (k : jsstring) (v : V) : obj V :=
  match o with
  | [] => [(k, v)]
  | (k', v') :: r =>
      if JsString.eqb k' k then (k', v) :: r else (k', v') :: set r k v
  end.

(** [delete o[k]]. *)
Definition delete (o : obj V) (k : jsstring) : obj V :=
  filter (fun kv => negb (JsString.eqb (fst kv) k)) o.

Definition keys (o : obj V) : list jsstring := map fst o.
Definition values (o : obj V) : list V := map snd o.
End Obj.

(** The bound of a slice or a limit: a result of [parseInt], that is an
    integer or NaN ([None]). *)
Definition jsint := option Z.

(** [arr.slice(0, end)]: a NaN bound counts as 0, a negative one counts
    from the end. *)
Definition slice0 (A : Type) (arr : list A) (bound : jsint) : list A :=
  match bound with
  | None => []
  | Some e =>
      if (e <? 0)%Z
      then firstn (Z.to_nat (Z.max (Z.of_nat (length arr) + e) 0)) arr
      else firstn (Z.to_nat e) arr
  end.

End JsObject.
Import JsObject.

(* ================================================================== *)
(** * scrapers/index.js: the registry *)
(* ================================================================== *)

(** How a call of [scraper.search] ends: with the products, or by
    throwing an error that carries [message]. *)
Inductive searchOutcome : Type :=
| Returned (results : list product)
| Threw (message : jsstring).

(** One run of a search: its end, and the time the registry measures
    around it with [Date.now()]. *)
Record searchRun : Type := mkRun {
  outcome : searchOutcome;
  elapsedMs : Z
}.

(** [search(query, maxResults)] of one scraper. *)
Definition scraper := jsstring -> jsint -> searchRun.

(** The entry of one platform in [aggregated.platforms]. *)
Record platformData : Type := mkPlatformData {
  success : bool;
  checked : bool;
  count : nat;
  results : list product;
  error : option jsstring;
  durationMs : Z;
  rejectedCount : option nat
}.

(** The aggregated result. *)
Record aggregated : Type := mkAggregated {
  query : jsstring;
  platforms : obj platformData;
  totalResults : nat;
  lowestPrice : option product;
  searchedAt : jsstring;
  overallDurationMs : Z;
  sortedAllProducts : option (list product)
}.

(** [{ ...product, platform }]. *)
Definition withPlatform (p : product) (name : jsstring) : product :=
  {| source := source p; platform := name; siteName := siteName p;
     product_name := product_name p; title := title p;
     productTitle := productTitle p; price := price p;
     currency := currency p; product_url := product_url p; url := url p;
     productUrl := productUrl p; image_url := image_url p;
     imageUrl := imageUrl p; availability := availability p;
     inStock := inStock p; specs := specs p; description := description p |}.

(** The loop that tracks the lowest price, shared by the registry and the
    search service:
    [if (price && (!lowest || price < lowest.price)) lowest = {...}]. *)
Definition trackLowest (name : jsstring) (lowest : option product)
           (p : product) : option product :=
  if priceTruthy (price p)
     && match lowest with
        | None => true
        | Some l => lt (priceNumber (price p)) (priceNumber (price l))
        end
  then Some (withPlatform p name)
  else lowest.

Module ScraperRegistry.

(** The [Map] of the registry, in insertion order. *)
Definition registry := obj scraper.

(** [register(platform, scraper)]. *)
Definition register (reg : registry) (name : jsstring) (s : scraper) : registry :=
  JsObject.set reg name s.

(** What one of the promises of [searchPromises] settles to. *)
Record platformResult : Type := mkPlatformResult {
  pr_platform : jsstring;
  pr_results : list product;
  pr_success : bool;
  pr_error : option jsstring;
  pr_durationMs : Z;
  pr_checked : bool
}.

Inductive settled : Type :=
| Fulfilled (value : platformResult)
| Rejected (reason : jsstring).

(** [searchPlatform(platform, query, maxResults)]; [getScraper] throws
    for a platform that is not registered. *)
Definition searchPlatform (reg : registry) (name query : jsstring)
           (maxResults : jsint) : searchRun :=
  match JsObject.get reg name with
  | Some s => s query maxResults
  | None =>
      mkRun (Threw (js "No scraper found for platform: " ++ name)) 0
  end.

(** [Math.max(maxResults * 3, 15)]. *)
Definition internalLimit (maxResults : jsint) : jsint :=
  option_map (fun m => Z.max (m * 3) 15) maxResults.

(** The body of the async arrow function given to [platforms.map]: the
    try block and its catch. *)
Definition searchTask (reg : registry) (query : jsstring) (limit : jsint)
           (name : jsstring) : settled :=
  let run := searchPlatform reg name query limit in
  match outcome run with
  | Returned rs =>
      Fulfilled (mkPlatformResult name rs true None (elapsedMs run) true)
  | Threw message =>
      Fulfilled (mkPlatformResult name [] false (Some message) (elapsedMs run) true)
  end.

(** One turn of [allResults.forEach].  [aggregated.platforms] is a plain
    object: it keeps an entry under every name but "__proto__", and lists
    the names that are array indices before the others.  The platforms
    of index.js are named amazon, flipkart and myntra. *)
Definition collect (agg : aggregated) (s : settled) : aggregated :=
  match s with
  | Fulfilled v =>
      {| query := query agg;
         platforms :=
           JsObject.set (platforms agg) (pr_platform v)
             (mkPlatformData (pr_success v) (pr_checked v)
                             (length (pr_results v)) (pr_results v)
                             (pr_error v) (pr_durationMs v) None);
         totalResults := totalResults agg + length (pr_results v);
         lowestPrice :=
           fold_left (trackLowest (pr_platform v)) (pr_results v) (lowestPrice agg);
         searchedAt := searchedAt agg;
         overallDurationMs := overallDurationMs agg;
         sortedAllProducts := sortedAllProducts agg |}
  | Rejected _ => agg
  end.

(** The wall clock readings of one call. *)
Record clock : Type := mkClock {
  isoNow : jsstring;
  overallMs : Z
}.

(** [searchAll(query, maxResults)]. *)
Definition searchAll (reg : registry) (clk : clock) (query : jsstring)
           (maxResults : jsint) : aggregated :=
  let names := JsObject.keys reg in
  let limit := internalLimit maxResults in
  let allResults := map (searchTask reg query limit) names in
  fold_left collect allResults
    {| query := query; platforms := []; totalResults := 0;
       lowestPrice := None; searchedAt := isoNow clk;
       overallDurationMs := overallMs clk; sortedAllProducts := None |}.

End ScraperRegistry.

(* ================================================================== *)
(** * services/searchService.js *)
(* ================================================================== *)

Module SearchService.

Import ProductMatcher.

Definition allowedWebsites : list jsstring :=
  [js "amazon"; js "flipkart"; js "myntra"; js "croma"; js "reliance"].

Definition stopWords : list jsstring :=
  [js "for"; js "with"; js "and"; js "the"; js "a"; js "an"; js "of"; js "to";
   js "in"; js "on"; js "by"; js "from"; js "new"; js "latest"; js "best";
   js "buy"; js "online"; js "india"; js "price"; js "sale"; js "deal";
   js "offer"; js "discount"; js "combo"; js "pack"; js "set"; js "piece";
   js "is"; js "it"; js "at"; js "or"; js "be"; js "this"; js "that"; js "was";
   js "are"; js "were"; js "has"; js "have"; js "had"; js "do"; js "does";
   js "did"; js "will"; js "would"; js "could"; js "should"; js "may";
   js "might"; js "can"; js "shall"; js "get"; js "got"; js "make"].

Definition knownBrands : list jsstring :=
  [js "iphone"; js "apple"; js "samsung"; js "oneplus"; js "xiaomi";
   js "redmi"; js "realme"; js "oppo"; js "vivo"; js "pixel"; js "google";
   js "motorola"; js "nothing"; js "poco"; js "iqoo"; js "nokia";
   js "huawei"; js "honor"; js "asus"; js "rog";
   js "dell"; js "hp"; js "lenovo"; js "acer"; js "msi"; js "macbook";
   js "thinkpad"; js "surface"; js "microsoft"; js "intel"; js "amd";
   js "nvidia";
   js "nike"; js "adidas"; js "puma"; js "reebok"; js "skechers"; js "levis";
   js "zara"; js "hm"; js "uniqlo"; js "gucci"; js "prada"; js "louis";
   js "vuitton";
   js "sony"; js "lg"; js "bosch"; js "philips"; js "dyson"; js "jbl";
   js "bose"; js "boat"; js "fire"; js "boltt"; js "fossil"; js "titan";
   js "casio"; js "timex"].

Definition accessoryKeywords : list jsstring :=
  [js "case"; js "cover"; js "back cover"; js "tempered"; js "screen guard";
   js "screen protector"; js "protector"; js "charger"; js "cable";
   js "adapter"; js "earbuds"; js "earphones"; js "headphones";
   js "power bank"; js "holder"; js "stand"; js "tripod"; js "watch strap";
   js "skin"; js "sticker"; js "decal"; js "pouch"; js "sleeve";
   js "cleaning kit"; js "stylus"; js "film"; js "mount"; js "grip";
   js "ring holder"; js "pop socket"; js "armband"; js "car mount";
   js "dock"; js "hub"; js "dongle"; js "otg"; js "memory card"].

Definition apparelKeywords : list jsstring :=
  [js "dress"; js "top"; js "shirt"; js "tshirt"; js "t-shirt"; js "kurta";
   js "saree"; js "sari"; js "jeans"; js "jacket"; js "hoodie"; js "bra";
   js "pant"; js "trouser"; js "skirt"; js "shoe"; js "sandal"; js "heels";
   js "blouse"; js "lehenga"; js "dupatta"; js "palazzo"; js "shorts";
   js "trackpant"; js "track pant"; js "jogger"; js "sweatshirt";
   js "sweater"; js "cardigan"; js "blazer"; js "suit"; js "tie"; js "belt";
   js "scarf"; js "shawl"; js "stole"; js "lingerie"; js "underwear";
   js "boxers"; js "socks"; js "cap"; js "hat"; js "beanie"; js "watch band";
   js "handbag"; js "purse"; js "wallet"; js "clutch"; js "tote";
   js "backpack"; js "printed"; js "cotton"; js "polyester"; js "silk";
   js "chiffon"; js "georgette"].

Definition electronicsKeywords : list jsstring :=
  [js "phone"; js "mobile"; js "smartphone"; js "laptop"; js "tablet";
   js "camera"; js "tv"; js "television"; js "monitor"; js "speaker";
   js "headphone"; js "earphone"; js "earbud"; js "smartwatch"; js "watch";
   js "console"; js "gaming"; js "processor"; js "gpu"; js "ssd"; js "hdd";
   js "ram"; js "router"; js "printer"; js "scanner"; js "projector";
   js "drone"; js "gb"; js "tb"; js "5g"; js "4g"; js "wifi"; js "bluetooth";
   js "amoled"; js "oled"; js "lcd"].

Definition colors : list jsstring :=
  [js "red"; js "blue"; js "green"; js "black"; js "white"; js "gold";
   js "silver"; js "grey"; js "gray"; js "pink"; js "purple"; js "orange";
   js "yellow"; js "brown"; js "beige"; js "navy"; js "teal"; js "coral";
   js "maroon"; js "cream"; js "ivory"; js "lavender"; js "midnight";
   js "space"; js "starlight"; js "titanium"; js "graphite"; js "sierra";
   js "alpine"].

(** [sourcePriority[name] ?? 99]. *)
Definition sourcePriority (name : jsstring) : Z :=
  if JsString.eqb name (js "amazon") then 1
  else if JsString.eqb name (js "flipkart") then 2
  else if JsString.eqb name (js "myntra") then 3
  else 99.

(** [normalizeText(text)]. *)
Definition normalizeText (text : jsstring) : jsstring :=
  trim (collapseSpaces
          (map (fun c => if isLowerOrDigit c || isSpace c then c else 32%N)
               (toLowerCase text))).

(** [tokenize(text)]. *)
Definition tokenize (text : jsstring) : list jsstring :=
  filter (fun token => (1 <? length token) && negb (has stopWords token))
         (split_space (normalizeText text)).

Definition isColor (token : jsstring) : bool := has colors token.

(** [/\d/.test(t)]. *)
Definition hasDigit (t : jsstring) : bool := existsb isDigit t.

Definition brandAliases (brand : jsstring) : list jsstring :=
  if JsString.eqb brand (js "iphone") then [js "iphone"; js "apple iphone"]
  else if JsString.eqb brand (js "apple") then [js "apple"; js "iphone"]
  else if JsString.eqb brand (js "samsung") then [js "samsung"; js "galaxy"]
  else if JsString.eqb brand (js "oneplus") then [js "oneplus"; js "one plus"]
  else if JsString.eqb brand (js "redmi") then [js "redmi"; js "xiaomi redmi"]
  else if JsString.eqb brand (js "pixel") then [js "pixel"; js "google pixel"]
  else [brand].

Definition minusOne : jsnum := ofZ (-1).

(** [scoreRelevance(searchQuery, title)]. *)
Definition scoreRelevance (searchQuery title : jsstring) : jsnum :=
  let queryNorm := normalizeText searchQuery in
  let titleNorm := normalizeText title in
  if (length queryNorm =? 0) || (length titleNorm =? 0) then minusOne else
  let queryTokens := tokenize queryNorm in
  let titleTokens := tokenize titleNorm in
  if length queryTokens =? 0 then minusOne else
  if length titleTokens =? 0 then minusOne else
  let queryTokenSet := setOf queryTokens in
  let titleTokenSet := setOf titleTokens in
  let brandTokens := filter (has knownBrands) queryTokens in
  let numericTokens := filter hasDigit queryTokens in
  let colorTokens := filter isColor queryTokens in
  let isElectronicsQuery :=
    existsb (fun t => has electronicsKeywords t || has knownBrands t) queryTokens in
  (* Rule 1 *)
  if (0 <? length brandTokens)
     && negb (forallb (fun brand => has titleTokenSet brand || includes titleNorm brand)
                      brandTokens)
  then minusOne else
  (* Rule 2 *)
  if (0 <? length numericTokens)
     && negb (forallb (fun num => includes titleNorm num) numericTokens)
  then minusOne else
  (* Rule 3 *)
  if (0 <? length brandTokens) && (0 <? length numericTokens)
     && negb (existsb (fun brand =>
                existsb (fun alias =>
                  existsb (fun num =>
                    includes titleNorm (alias ++ 32%N :: num)
                    || includes titleNorm (alias ++ num)
                    || includes titleNorm (brand ++ 32%N :: num)
                    || includes titleNorm (brand ++ num))
                  numericTokens)
                (brandAliases brand))
              brandTokens)
  then minusOne else
  (* Rule 4 *)
  if isElectronicsQuery && existsb (includes titleNorm) accessoryKeywords
  then minusOne else
  if isElectronicsQuery && existsb (includes titleNorm) apparelKeywords
  then minusOne else
  (* Rule 5 *)
  let matchedCount :=
    length (filter (fun token => has titleTokenSet token || includes titleNorm token)
                   queryTokenSet) in
  let size := length queryTokenSet in
  let overlapRatio := (Z.of_nat matchedCount # Pos.of_nat size)%Q in
  let minOverlap := if size <=? 3 then (1 # 2)%Q else (2 # 5)%Q in
  if negb (Qle_bool minOverlap overlapRatio) then minusOne else
  if (size <=? 2) && (matchedCount <? size) then minusOne else
  (* Scoring *)
  let score0 := inject_Z (Z.of_nat matchedCount) in
  let score1 := if includes titleNorm queryNorm then (score0 + 5)%Q else score0 in
  let score2 :=
    if 0 <? length colorTokens
    then (score1 + inject_Z (Z.of_nat (length (filter (includes titleNorm) colorTokens)))
                   * (3 # 2))%Q
    else score1 in
  let score3 := (score2 + overlapRatio * 3)%Q in
  let score4 := if 0 <? length brandTokens then (score3 + 2)%Q else score3 in
  let score5 := if 0 <? length numericTokens then (score4 + 2)%Q else score4 in
  Fin (Qred score5).

(** [filterAndRankProducts(products, searchQuery, maxResults)]. *)
Definition filterAndRankProducts (products : list product)
           (searchQuery : jsstring) (maxResults : jsint) : list product :=
  match products with
  | [] => []
  | _ :: _ =>
      map fst
        (slice0
           (sortBy (fun a b => sub (snd b) (snd a))
              (filter (fun item => negb (le (snd item) zero))
                 (map (fun p =>
                         (p, scoreRelevance searchQuery
                               (orStr (title p) (product_name p))))
                      products)))
           maxResults)
  end.

(** The running totals of [applyRelevanceFilter]. *)
Record filterState : Type := mkFilterState {
  fs_platforms : obj platformData;
  fs_totalResults : nat;
  fs_lowestPrice : option product
}.

(** The callback of [Object.keys(platforms).forEach] for the key [name]. *)
Definition filterPlatform (searchQuery : jsstring) (maxResults : jsint)
           (st : filterState) (name : jsstring) : filterState :=
  if negb (has allowedWebsites (toLowerCase name)) then
    mkFilterState (JsObject.delete (fs_platforms st) name)
                  (fs_totalResults st) (fs_lowestPrice st)
  else
    match JsObject.get (fs_platforms st) name with
    | None => st
    | Some platformData =>
        let rawResults := results platformData in
        let rawCount := length rawResults in
        let priced :=
          filter (fun p => negb (BaseScraper.priceInvalid (price p))) rawResults in
        let deduped := deduplicateByWebsite priced in
        let filtered := filterAndRankProducts deduped searchQuery maxResults in
        let finalResults := slice0 filtered (Some 5%Z) in
        mkFilterState
          (JsObject.set (fs_platforms st) name
             (mkPlatformData (success platformData) (checked platformData)
                             (length finalResults) finalResults
                             (error platformData) (durationMs platformData)
                             (Some (rawCount - length finalResults))))
          (fs_totalResults st + length finalResults)
          (fold_left (trackLowest name) finalResults (fs_lowestPrice st))
    end.

(** [applyRelevanceFilter(aggregatedResults, searchQuery, maxResults)]:
    the object is updated in place; the embedding returns it. *)
Definition applyRelevanceFilter (agg : aggregated) (searchQuery : jsstring)
           (maxResults : jsint) : aggregated :=
  let st :=
    fold_left (filterPlatform searchQuery maxResults)
              (JsObject.keys (platforms agg))
              (mkFilterState (platforms agg) 0 None) in
  {| query := query agg;
     platforms := fs_platforms st;
     totalResults := fs_totalResults st;
     lowestPrice := fs_lowestPrice st;
     searchedAt := searchedAt agg;
     overallDurationMs := overallDurationMs agg;
     sortedAllProducts := sortedAllProducts agg |}.

(** [compareProducts(a, b)]. *)
Definition compareProducts (a b : product) : jsnum :=
  let priceOr p := match price p with PNum n => n | _ => PInf end in
  let avail p :=
    if strictEqTrue (availability p) || strictEqStr (availability p) (js "available")
    then 0%Z else 1%Z in
  let src p := sourcePriority (orStr (platform p) (source p)) in
  if negb (JsNum.eqb (priceOr a) (priceOr b)) then sub (priceOr a) (priceOr b)
  else if negb (avail a =? avail b)%Z then ofZ (avail a - avail b)
  else ofZ (src a - src b).

(** [applySorting(aggregatedResults)]. *)
Definition applySorting (agg : aggregated) : aggregated :=
  let sorted :=
    map (fun kv =>
           (fst kv,
            let data := snd kv in
            mkPlatformData (success data) (checked data) (count data)
                           (sortBy compareProducts (results data))
                           (error data) (durationMs data) (rejectedCount data)))
        (platforms agg) in
  {| query := query agg;
     platforms := sorted;
     totalResults := totalResults agg;
     lowestPrice := lowestPrice agg;
     searchedAt := searchedAt agg;
     overallDurationMs := overallDurationMs agg;
     sortedAllProducts :=
       Some (sortBy compareProducts (flat_map (fun kv => results (snd kv)) sorted)) |}.

(** [searchAll(searchQuery, maxResults)].  The write to the cache is
    best effort, its failures are swallowed, and it does not touch the
    result. *)
Definition searchAll (reg : ScraperRegistry.registry) (clk : ScraperRegistry.clock)
           (searchQuery : jsstring) (maxResults : jsint) : aggregated :=
  applySorting
    (applyRelevanceFilter
       (ScraperRegistry.searchAll reg clk searchQuery maxResults)
       searchQuery maxResults).

End SearchService.


(* ================================================================== *)
(** * BaseScraper.js: the two transports *)
(* ================================================================== *)

Module Transport.

(** What the network does is given from outside: the answer to the i-th
    call of axios and to the i-th call of [fetchWithBrowser], counted from
    0.  An answer is the content or the message of the error thrown. *)
Inductive answer : Type :=
| Content (data : jsstring)
| Failure (message : jsstring).

Inductive event : Type :=
| LightAttempt (attempt : nat)
| Delay (ms : Z)
| HeavyAttempt.

Record world : Type := mkWorld {
  axiosCalls : nat;
  browserCalls : nat;
  trace : list event
}.

Definition start : world := mkWorld 0 0 [].

(** A computation that may throw (an error is kept as its message) and
    that acts on the world. *)
Inductive result (A : Type) : Type :=
| Ok (a : A)
| Err (message : jsstring).
Arguments Ok {A} a.
Arguments Err {A} message.

Definition M (A : Type) : Type := world -> result A * world.

Definition ret {A : Type} (a : A) : M A := fun w => (Ok a, w).

Definition throw {A : Type} (message : jsstring) : M A :=
  fun w => (Err message, w).

Definition bind {A B : Type} (c : M A) (k : A -> M B) : M B :=
  fun w =>
    match c w with
    | (Ok a, w') => k a w'
    | (Err m, w') => (Err m, w')
    end.

(** [try { c } catch (error) { handler(error.message) }]. *)
Definition tryCatch {A : Type} (c : M A) (handler : jsstring -> M A) : M A :=
  fun w =>
    match c w with
    | (Ok a, w') => (Ok a, w')
    | (Err m, w') => handler m w'
    end.

Notation "x <- c ;; k" := (bind c (fun x => k))
  (at level 61, c at next level, right associativity).
Notation "c ;;; k" := (bind c (fun _ => k))
  (at level 61, right associativity).

Section Fetch.
Variable axios : nat -> answer.
Variable browser : nat -> answer.
Variable platformName : jsstring.

(** [await axios(config)] in the attempt numbered [attempt]. *)
Definition callAxios (attempt : nat) : M jsstring :=
  fun w =>
    let w' := mkWorld (S (axiosCalls w)) (browserCalls w)
                      (trace w ++ [LightAttempt attempt]) in
    match axios (axiosCalls w) with
    | Content data => (Ok data, w')
    | Failure m => (Err m, w')
    end.

(** [await this.delay(ms)]. *)
Definition delay (ms : Z) : M unit :=
  fun w =>
    (Ok tt, mkWorld (axiosCalls w) (browserCalls w) (trace w ++ [Delay ms])).

(** [fetchWithBrowser(url, options)]: one session of the shared browser,
    taken as a single step; whatever fails inside is thrown again. *)
Definition fetchWithBrowser : M jsstring :=
  fun w =>
    let w' := mkWorld (axiosCalls w) (S (browserCalls w))
                      (trace w ++ [HeavyAttempt]) in
    match browser (browserCalls w) with
    | Content html => (Ok html, w')
    | Failure m => (Err m, w')
    end.

(** The loop [for (let attempt = 1; attempt <= maxRetries; attempt++)] of
    [makeRequest], with [remaining] turns to go, and the throw after it.
    Reading [lastError.message] while [lastError] is still undefined is a
    TypeError (the message is the one of V8). *)
Fixpoint attempts (maxRetries remaining : nat) (lastError : option jsstring)
  : M jsstring :=
  match remaining with
  | O =>
      match lastError with
      | Some message =>
          throw (js "Failed to fetch from " ++ platformName ++ js " after "
                 ++ ofN (N.of_nat maxRetries) ++ js " attempts: " ++ message)
      | None =>
          throw (js "Cannot read properties of undefined (reading 'message')")
      end
  | S k =>
      let attempt := S (maxRetries - remaining) in
      tryCatch (callAxios attempt)
        (fun message =>
           (if attempt <? maxRetries
            then delay (1000 * 2 ^ (Z.of_nat attempt - 1))
            else ret tt) ;;;
           attempts maxRetries k (Some message))
  end.

(** [makeRequest(url, options)]; [maxRetries] is
    [options.maxRetries ?? this.maxRetries]. *)
Definition makeRequest (maxRetries : nat) : M jsstring :=
  attempts maxRetries maxRetries None.

End Fetch.

(** ** The number of attempts

    The constructor sets
    [this.maxRetries = parseInt(process.env.MAX_RETRIES || '3')], and
    [makeRequest] takes [options.maxRetries ?? this.maxRetries]. *)








End Transport.

Import Transport.

(* ================================================================== *)
(** * Facts about strings, numbers and sorting *)
(* ================================================================== *)

Module JsFacts.

Lemma str_eqb_refl (a : jsstring) : JsString.eqb a a = true.
Proof.
  induction a as [|x a IH]; simpl; [reflexivity|].
  now rewrite N.eqb_refl, IH.
Qed.

Lemma str_eqb_eq (a b : jsstring) : JsString.eqb a b = true <-> a = b.
Proof.
  split.
  - revert b; induction a as [|x a IH]; intros [|y b]; simpl; try discriminate; auto.
    intros H. apply andb_true_iff in H as [H1 H2].
    apply N.eqb_eq in H1. apply IH in H2. now subst.
  - intros ->. apply str_eqb_refl.
Qed.

Lemma str_eqb_neq (a b : jsstring) : JsString.eqb a b = false <-> a <> b.
Proof.
  rewrite <- str_eqb_eq. destruct (JsString.eqb a b); split; congruence.
Qed.


Example ofN_prints :
  ofN 0 = js "0" /\ ofN 3 = js "3" /\ ofN 120 = js "120".
Proof. repeat split. Qed.



Section SortFacts.
Variable A : Type.
Variable cmp : A -> A -> jsnum.

Lemma insertSorted_perm (x : A) (l : list A) :
  Permutation (x :: l) (insertSorted cmp x l).
Proof.
  induction l as [|y r IH]; cbn [insertSorted]; [reflexivity|].
  destruct (gt (cmp x y) zero); [|reflexivity].
  rewrite perm_swap. now constructor.
Qed.

Lemma sortBy_perm (l : list A) : Permutation l (sortBy cmp l).
Proof.
  induction l as [|x r IH]; cbn [sortBy fold_right]; [constructor|].
  rewrite <- insertSorted_perm. now constructor.
Qed.

Lemma sortBy_length (l : list A) : length (sortBy cmp l) = length l.
Proof. symmetry. apply Permutation_length, sortBy_perm. Qed.

Lemma sortBy_In (l : list A) (x : A) : In x (sortBy cmp l) <-> In x l.
Proof.
  split; apply Permutation_in; [symmetry|]; apply sortBy_perm.
Qed.
End SortFacts.

End JsFacts.
Import JsFacts.

(* ================================================================== *)
(** * The price normalizer on the inputs of the specification *)
(* ================================================================== *)

Module PriceExamples.
Import BaseScraper.

(** C2.  [extractPrice] gives null on the rupee sign followed by 1, on
    "1", on the empty string and on "Rs. 1"; it gives 79900 on the rupee
    sign followed by "79,900"; and it gives 1499, not 1.499, on "1,499". *)
Theorem extractPrice_spec_examples :
  extractPrice (Some (rupee :: js "1")) = None
  /\ extractPrice (Some (js "1")) = None
  /\ extractPrice (Some (js "")) = None
  /\ extractPrice (Some (js "Rs. 1")) = None
  /\ extractPrice (Some (rupee :: js "79,900")) = Some (ofZ 79900)
  /\ extractPrice (Some (js "1,499")) = Some (ofZ 1499)
  /\ extractPrice (Some (js "1,499")) <> Some (Fin (1499 # 1000)).
Proof.
  repeat split; try (vm_compute; reflexivity).
  vm_compute. discriminate.
Qed.

End PriceExamples.

(* ================================================================== *)
(** * The relevance scorer on the inputs of the specification *)
(* ================================================================== *)

Module RelevanceExamples.
Import SearchService.

(** C3.  For the query "iPhone 15" the scorer rejects (score at most 0)
    the title "iPhone 15 Pro Max Silicone Case" and accepts (score above
    0) the title "Apple iPhone 15 (128GB) Black". *)
Theorem scoreRelevance_iphone_15 :
  le (scoreRelevance (js "iPhone 15") (js "iPhone 15 Pro Max Silicone Case")) zero = true
  /\ gt (scoreRelevance (js "iPhone 15") (js "Apple iPhone 15 (128GB) Black")) zero = true.
Proof. split; vm_compute; reflexivity. Qed.

(** The two scores themselves, and the rule that rejects the case: the
    title passes the brand, number and phrase rules and falls on the
    accessory keyword. *)
Example scoreRelevance_iphone_15_values :
  scoreRelevance (js "iPhone 15") (js "iPhone 15 Pro Max Silicone Case") = ofZ (-1)
  /\ scoreRelevance (js "iPhone 15") (js "Apple iPhone 15 (128GB) Black") = ofZ 14
  /\ existsb (includes (normalizeText (js "iPhone 15 Pro Max Silicone Case")))
             accessoryKeywords = true
  /\ scoreRelevance (js "iPhone 15") (js "iPhone 15 Pro Max Silicone") = ofZ 14.
Proof. repeat split; vm_compute; reflexivity. Qed.

End RelevanceExamples.

(* ================================================================== *)
(** * The canonical schema *)
(* ================================================================== *)

Module SchemaFacts.
Import BaseScraper.

(** C10.  [normalizeResults] emits one product for each raw result that
    passes the price check, in order; each has the currency "INR", and its
    [inStock] is false exactly when the raw [availability] is the string
    'out_of_stock'; any other value, a missing one included, gives
    [inStock = true] and [availability = true]. *)
Theorem normalizeResults_currency_and_stock
        (platformName : jsstring) (raws : list rawResult) :
  Forall2
    (fun raw p =>
       currency p = js "INR"
       /\ (inStock p = false <-> r_availability raw = VStr (js "out_of_stock"))
       /\ (r_availability raw <> VStr (js "out_of_stock") ->
           inStock p = true /\ availability p = VBool true)
       /\ (r_availability raw = VUndefined ->
           inStock p = true /\ availability p = VBool true))
    (filter (fun raw => negb (priceInvalid (r_price raw))) raws)
    (normalizeResults platformName raws).
Proof.
  unfold normalizeResults.
  induction (filter (fun raw => negb (priceInvalid (r_price raw))) raws)
    as [|raw rest IH]; cbn [map]; constructor; [|exact IH].
  cbn [currency inStock availability].
  assert (E : strictEqStr (r_availability raw) (js "out_of_stock") = true
              <-> r_availability raw = VStr (js "out_of_stock")).
  { destruct (r_availability raw) as [| |b|n|s]; cbn [strictEqStr];
      try (split; [discriminate | discriminate]).
    rewrite str_eqb_eq. split; [intros ->; reflexivity | congruence]. }
  destruct (strictEqStr (r_availability raw) (js "out_of_stock")) eqn:S;
    cbn [negb].
  - assert (A : r_availability raw = VStr (js "out_of_stock")) by now apply E.
    split; [reflexivity|]. split; [split; auto|].
    split; [intros H; contradiction | intros H; rewrite H in A; discriminate].
  - assert (A : r_availability raw <> VStr (js "out_of_stock")).
    { intros H. apply E in H. discriminate. }
    split; [reflexivity|].
    split; [split; [discriminate | intros H; contradiction]|].
    split; intros _; split; reflexivity.
Qed.

End SchemaFacts.

(* ================================================================== *)
(** * Deduplication within one website *)
(* ================================================================== *)

Module DedupFacts.
Import ProductMatcher.

(** A listing of the site "amazon" with the given title and price. *)
Definition listing (t : string) (p : Z) : product :=
  {| source := js "amazon"; platform := js "amazon"; siteName := js "amazon";
     product_name := js t; title := js t; productTitle := js t;
     price := PNum (ofZ p); currency := js "INR";
     product_url := js "https://www.amazon.in/dp/X";
     url := js "https://www.amazon.in/dp/X";
     productUrl := js "https://www.amazon.in/dp/X";
     image_url := None; imageUrl := None;
     availability := VBool true; inStock := true;
     specs := []; description := js t |}.

Definition bottle : product := listing "steel water bottle" 500.
Definition flask : product := listing "steel water green flask" 450.
Definition greenBottle : product := listing "steel water bottle green" 400.

(** The matching relation on the three listings: the flask does not match
    the bottle, the green bottle matches both. *)
Example matching_is_not_transitive :
  doProductsMatch flask bottle = false
  /\ doProductsMatch greenBottle bottle = true
  /\ doProductsMatch flask greenBottle = true.
Proof. repeat split; vm_compute; reflexivity. Qed.

(** No product of [l] matches a product that comes before it, in [seen]
    or in [l]. *)
Fixpoint noneMatchesEarlier (seen l : list product) : Prop :=
  match l with
  | [] => True
  | p :: r =>
      (forall s, In s seen -> doProductsMatch p s = false)
      /\ noneMatchesEarlier (seen ++ [p]) r
  end.

Lemma firstMatch_none (p : product) (seen : list product) (i : nat) :
  (forall s, In s seen -> doProductsMatch p s = false) ->
  firstMatch p seen i = None.
Proof.
  revert i. induction seen as [|s r IH]; intros i H; [reflexivity|].
  cbn [firstMatch]. rewrite H by now left. apply IH.
  intros s' Hs. apply H. now right.
Qed.

Lemma dedupFold_fixed (l seen : list product) :
  noneMatchesEarlier seen l ->
  fold_left dedupStep l (seen, seen) = (seen ++ l, seen ++ l).
Proof.
  revert seen. induction l as [|p r IH]; intros seen H.
  - now rewrite app_nil_r.
  - destruct H as (H1 & H2). cbn [fold_left dedupStep].
    rewrite firstMatch_none by assumption.
    rewrite IH by assumption. now rewrite <- app_assoc.
Qed.

(** On a list that holds no duplicate the deduplication changes nothing:
    a pass can only differ from its input through a match. *)
Lemma deduplicateByWebsite_fixed (l : list product) :
  noneMatchesEarlier [] l -> deduplicateByWebsite l = l.
Proof.
  intros H. unfold deduplicateByWebsite.
  destruct (length l <=? 1); [reflexivity|].
  now rewrite dedupFold_fixed.
Qed.

(** C7.  Deduplication is not idempotent on the three listings: the
    green bottle replaces the bottle it matches, the result still holds the
    flask, which matches the green bottle, and a second pass drops it. *)
Theorem deduplicateByWebsite_second_pass_differs :
  deduplicateByWebsite [bottle; flask; greenBottle] = [greenBottle; flask]
  /\ deduplicateByWebsite (deduplicateByWebsite [bottle; flask; greenBottle])
     = [greenBottle]
  /\ deduplicateByWebsite (deduplicateByWebsite [bottle; flask; greenBottle])
     <> deduplicateByWebsite [bottle; flask; greenBottle].
Proof.
  assert (E1 : deduplicateByWebsite [bottle; flask; greenBottle]
               = [greenBottle; flask]) by (vm_compute; reflexivity).
  assert (E2 : deduplicateByWebsite [greenBottle; flask] = [greenBottle])
    by (vm_compute; reflexivity).
  rewrite E1, E2. repeat split. discriminate.
Qed.

End DedupFacts.

(* ================================================================== *)
(** * Numbers at or above the threshold *)
(* ================================================================== *)

Module NumFacts.

(** Boolean comparisons of rationals as propositions, then [lra]. *)
Ltac qsolve :=
  repeat match goal with
         | H : negb _ = true |- _ => apply negb_true_iff in H
         | H : negb _ = false |- _ => apply negb_false_iff in H
         | H : Qle_bool _ _ = true |- _ => apply Qle_bool_iff in H
         | H : Qle_bool ?a ?b = false |- _ =>
             assert (~ (a <= b)%Q) by (rewrite <- Qle_bool_iff; congruence);
             clear H
         | H : Qeq_bool _ _ = true |- _ => apply Qeq_bool_iff in H
         | H : context [Qred _] |- _ => rewrite Qred_correct in H
         | |- negb ?b = true => destruct b eqn:?; [exfalso | reflexivity]
         | |- negb ?b = false => destruct b eqn:?; [reflexivity | exfalso]
         | |- Qle_bool _ _ = true => apply Qle_bool_iff
         end;
  unfold inject_Z in *; try lra.

(** A number at or above 100 is plus infinity or a rational at or above 100. *)
Inductive atLeast100 : jsnum -> Prop :=
| al_inf : atLeast100 PInf
| al_fin (q : Q) : (100 <= q)%Q -> atLeast100 (Fin q).

Lemma ge_hundred_iff (v : jsnum) : ge v hundred = true <-> atLeast100 v.
Proof.
  split.
  - destruct v as [| | |q]; cbn; try discriminate; intros H; constructor; qsolve.
  - intros [|q H]; cbn; [reflexivity|]. qsolve.
Qed.

Lemma not_lt_hundred (v : jsnum) :
  isNaN v = false -> lt v hundred = false -> atLeast100 v.
Proof.
  destruct v as [| | |q]; cbn; try discriminate; intros _ H; constructor; qsolve.
Qed.

Lemma atLeast100_truthy (v : jsnum) : atLeast100 v -> truthy v = true.
Proof. intros [|q H]; cbn; [reflexivity|]. qsolve. Qed.

Lemma atLeast100_positive (v : jsnum) : atLeast100 v -> gt v zero = true.
Proof. intros [|q H]; cbn; [reflexivity|]. qsolve. Qed.

Lemma atLeast100_not_below (v : jsnum) : atLeast100 v -> lt v hundred = false.
Proof. intros [|q H]; cbn; [reflexivity|]. qsolve. Qed.

Lemma atLeast100_number (v : jsnum) : atLeast100 v -> isNaN v = false.
Proof. now intros [|q H]. Qed.

Lemma le_refl (v : jsnum) : atLeast100 v -> le v v = true.
Proof. intros [|q H]; cbn; [reflexivity|]. qsolve. Qed.

Lemma le_trans (a b c : jsnum) :
  le a b = true -> le b c = true -> le a c = true.
Proof.
  destruct a as [| | |x], b as [| | |y], c as [| | |z]; cbn;
    try discriminate; try reflexivity.
  intros H1 H2. qsolve.
Qed.

(** [le] is the negation of the strict order the other way round, on
    numbers. *)
Lemma not_lt_le (a b : jsnum) :
  isNaN a = false -> isNaN b = false -> lt b a = false -> le a b = true.
Proof.
  destruct a as [| | |x], b as [| | |y]; cbn; try discriminate; try reflexivity.
  intros _ _ H. qsolve.
Qed.

Lemma lt_le (a b : jsnum) : lt a b = true -> le a b = true.
Proof.
  destruct a as [| | |x], b as [| | |y]; cbn; try discriminate; try reflexivity.
  intros H. qsolve.
Qed.

(** The comparator [(a, b) => a - b] on two numbers at or above 100. *)
Lemma sub_positive (a b : jsnum) :
  atLeast100 a -> atLeast100 b ->
  gt (sub a b) zero = true -> le b a = true.
Proof.
  intros [|x Hx] [|y Hy]; cbn -[Qred Qminus]; try discriminate; try reflexivity.
  intros H. qsolve.
Qed.

Lemma sub_not_positive (a b : jsnum) :
  atLeast100 a -> atLeast100 b ->
  gt (sub a b) zero = false -> le a b = true.
Proof.
  intros [|x Hx] [|y Hy]; cbn -[Qred Qminus]; try discriminate; try reflexivity.
  intros H. qsolve.
Qed.

(** Two numbers that are [===] are on the same side of the threshold. *)
Lemma eqb_below (a b : jsnum) :
  JsNum.eqb a b = true -> lt b hundred = true -> lt a hundred = true.
Proof.
  destruct a as [| | |x], b as [| | |y]; cbn; try discriminate; try reflexivity.
  intros E H. qsolve.
Qed.

(** The head of the array sorted with [(a, b) => a - b] is a least member. *)
Lemma sorted_head_least (l : list jsnum) :
  Forall atLeast100 l -> l <> [] ->
  exists m, hd_error (sortBy sub l) = Some m
            /\ In m l /\ forall v, In v l -> le m v = true.
Proof.
  induction l as [|x r IH]; intros F NE; [congruence|].
  inversion F as [|? ? Hx Fr]; subst.
  destruct r as [|y r'].
  - exists x. cbn. repeat split; auto.
    intros v [<-|[]]. now apply le_refl.
  - destruct IH as (m & Hm & Im & Lm); [assumption | discriminate |].
    change (sortBy sub (x :: y :: r')) with (insertSorted sub x (sortBy sub (y :: r'))).
    destruct (sortBy sub (y :: r')) as [|h t] eqn:E; [discriminate|].
    cbn in Hm. injection Hm as ->.
    assert (Am : atLeast100 m).
    { rewrite Forall_forall in Fr. now apply Fr. }
    cbn [insertSorted].
    destruct (gt (sub x m) zero) eqn:G.
    + exists m. cbn. repeat split; [now right|].
      intros v [<-|Iv]; [now apply sub_positive | now apply Lm].
    + exists x. cbn. repeat split; [now left|].
      intros v [<-|Iv]; [now apply le_refl|].
      apply le_trans with m; [now apply sub_not_positive | now apply Lm].
Qed.

End NumFacts.

(* ================================================================== *)
(** * The price normalizer: the symbol-anchored strategy *)
(* ================================================================== *)

Module PriceFacts.
Import BaseScraper NumFacts.

Lemma matchAmount_nonempty (s : jsstring) (cap : jsstring) :
  matchAmount s = Some cap -> s <> [].
Proof. destruct s; [discriminate | discriminate]. Qed.

Lemma dropWhile_nonempty (f : N -> bool) (s : jsstring) :
  dropWhile f s <> [] -> s <> [].
Proof. destruct s; [intros H; exact H | discriminate]. Qed.

(** A match of either pattern takes at least the symbol and one more unit. *)
Lemma matchRupeeAt_length (s : jsstring) (x : jsstring * nat) :
  matchRupeeAt s = Some x -> 2 <= length s.
Proof.
  destruct s as [|c r]; [discriminate|]. cbn [matchRupeeAt].
  destruct (c =? rupee)%N; [|discriminate].
  destruct (matchAmount (dropWhile isSpace r)) eqn:E; [|discriminate].
  intros _. apply matchAmount_nonempty, dropWhile_nonempty in E.
  destruct r; [congruence | cbn; lia].
Qed.

Lemma matchRsAt_length (s : jsstring) (x : jsstring * nat) :
  matchRsAt s = Some x -> 2 <= length s.
Proof.
  destruct s as [|c1 [|c2 r]]; try discriminate. intros _. cbn. lia.
Qed.

Lemma execAll_length (matchAt : jsstring -> option (jsstring * nat)) :
  (forall s x, matchAt s = Some x -> 2 <= length s) ->
  forall s skip, execAll matchAt skip s <> [] -> 2 <= length s.
Proof.
  intros Hm s. induction s as [|c r IH]; intros skip H; [now cbn in H|].
  cbn [execAll] in H. destruct skip as [|k].
  - destruct (matchAt (c :: r)) as [[cap len]|] eqn:E.
    + now apply Hm in E.
    + apply IH in H. cbn. lia.
  - apply IH in H. cbn. lia.
Qed.

(** A string with a symbol-anchored match has at least two units. *)
Lemma symbolMatches_length (str : jsstring) :
  symbolMatches str <> [] -> 2 <= length str.
Proof.
  unfold symbolMatches. intros H.
  destruct (execAll matchRupeeAt 0 str) eqn:E1.
  - destruct (execAll matchRsAt 0 str) eqn:E2; [now cbn in H|].
    apply (execAll_length matchRsAt matchRsAt_length str 0). congruence.
  - apply (execAll_length matchRupeeAt matchRupeeAt_length str 0). congruence.
Qed.

Lemma candidatePrices_In (str : jsstring) (v : jsnum) :
  In v (candidatePrices str) <-> In v (symbolMatches str) /\ ge v hundred = true.
Proof.
  unfold candidatePrices. rewrite filter_In, andb_true_iff.
  split; intros (H1 & H2); split; auto.
  - tauto.
  - split; [|assumption]. apply ge_hundred_iff, atLeast100_number in H2.
    now rewrite H2.
Qed.

Lemma candidatePrices_atLeast100 (str : jsstring) :
  Forall atLeast100 (candidatePrices str).
Proof.
  apply Forall_forall. intros v H.
  apply candidatePrices_In in H. now apply ge_hundred_iff.
Qed.

Lemma plainNumber_atLeast100 (str : jsstring) (m : jsnum) :
  plainNumber str = Some m -> atLeast100 m.
Proof.
  unfold plainNumber.
  destruct (trim _) as [|c r]; [discriminate|].
  set (price := parseFloat _).
  destruct (isNaN price) eqn:E1; [discriminate|].
  destruct (le price zero); [discriminate|].
  destruct (lt price hundred) eqn:E3; [discriminate|].
  cbn [orb]. intros [= <-]. now apply not_lt_hundred.
Qed.

(** Whatever [extractPrice] returns is at or above the threshold. *)
Lemma extractPrice_atLeast100 (priceText : option jsstring) (m : jsnum) :
  extractPrice priceText = Some m -> atLeast100 m.
Proof.
  destruct priceText as [text|]; [|discriminate]. cbn [extractPrice].
  destruct (length (trim text) <? 2); [discriminate|].
  destruct (0 <? length (candidatePrices (trim text))).
  - intros H.
    assert (I : In m (sortBy sub (candidatePrices (trim text)))).
    { destruct (sortBy sub (candidatePrices (trim text))); [discriminate|].
      cbn in H. injection H as ->. now left. }
    apply sortBy_In in I.
    pose proof (candidatePrices_atLeast100 (trim text)) as F.
    rewrite Forall_forall in F. now apply F.
  - apply plainNumber_atLeast100.
Qed.

(** C8.  When the text holds symbol-anchored matches worth at least 100,
    [extractPrice] returns the lowest of them; and a symbol-anchored match
    below 100 is never what it returns. *)
Theorem extractPrice_lowest_symbol_match (text : jsstring) :
  let found := symbolMatches (trim text) in
  ((exists v, In v found /\ ge v hundred = true) ->
   exists m, extractPrice (Some text) = Some m
             /\ In m found /\ ge m hundred = true
             /\ forall v, In v found -> ge v hundred = true -> le m v = true)
  /\ (forall v m, In v found -> lt v hundred = true ->
                  extractPrice (Some text) = Some m -> JsNum.eqb m v = false).
Proof.
  intros found. split.
  - intros (v0 & I0 & G0).
    assert (C0 : In v0 (candidatePrices (trim text)))
      by now apply candidatePrices_In.
    assert (L : 2 <= length (trim text)).
    { apply symbolMatches_length. intros E. fold found in E.
      rewrite E in I0. exact I0. }
    assert (NE : candidatePrices (trim text) <> []).
    { intros E. rewrite E in C0. exact C0. }
    destruct (sorted_head_least (candidatePrices_atLeast100 (trim text)) NE)
      as (m & Hm & Im & Lm).
    exists m. cbn [extractPrice].
    replace (length (trim text) <? 2) with false
      by (symmetry; apply Nat.ltb_ge; exact L).
    replace (0 <? length (candidatePrices (trim text))) with true.
    2:{ symmetry. apply Nat.ltb_lt.
        destruct (candidatePrices (trim text)); [congruence | cbn; lia]. }
    apply candidatePrices_In in Im as (Im1 & Im2).
    repeat split; auto.
    intros v Iv Gv. apply Lm. now apply candidatePrices_In.
  - intros v m Iv Bv Hm.
    apply extractPrice_atLeast100, atLeast100_not_below in Hm.
    destruct (JsNum.eqb m v) eqn:E; [|reflexivity].
    rewrite (eqb_below m v E Bv) in Hm. discriminate.
Qed.

(** A price card with a struck-through list price after "Rs." and the
    selling price after the rupee sign, and a badge worth less than 100. *)
Definition priceCard : jsstring :=
  js "MRP Rs.2,999.50 now " ++ rupee :: js " 1,499.00 (save " ++ rupee :: js "50)".

Lemma extractPrice_lowest_symbol_match_witness :
  symbolMatches (trim priceCard)
  = [Fin (1499 # 1); Fin (50 # 1); Fin (5999 # 2)]
  /\ exists m, extractPrice (Some priceCard) = Some m
               /\ In m (symbolMatches (trim priceCard)) /\ ge m hundred = true
               /\ forall v, In v (symbolMatches (trim priceCard)) ->
                            ge v hundred = true -> le m v = true.
Proof.
  split; [vm_compute; reflexivity|].
  apply (proj1 (extractPrice_lowest_symbol_match priceCard)).
  exists (Fin (1499 # 1)). split; [vm_compute; now left | vm_compute; reflexivity].
Defined.

Example extractPrice_priceCard : extractPrice (Some priceCard) = Some (ofZ 1499).
Proof. vm_compute. reflexivity. Qed.

End PriceFacts.

(* ================================================================== *)
(** * Objects, slices and the steps of the filter *)
(* ================================================================== *)

Module StepFacts.
Import ProductMatcher SearchService BaseScraper NumFacts.

Section ObjFacts.
Variable V : Type.
Implicit Types (o done : obj V) (k : jsstring) (v : V).

Lemma get_head o k v : JsObject.get ((k, v) :: o) k = Some v.
Proof. cbn. now rewrite str_eqb_refl. Qed.

Lemma get_skip done o k :
  ~ In k (keys done) -> JsObject.get (done ++ o) k = JsObject.get o k.
Proof.
  induction done as [|[k' v'] r IH]; intros H; [reflexivity|].
  cbn in *. destruct (JsString.eqb k' k) eqn:E.
  - apply str_eqb_eq in E. tauto.
  - apply IH. tauto.
Qed.

Lemma get_None o k : ~ In k (keys o) -> JsObject.get o k = None.
Proof.
  intros H. rewrite <- (app_nil_r o). now rewrite get_skip.
Qed.

Lemma get_In o k v : JsObject.get o k = Some v -> In (k, v) o.
Proof.
  induction o as [|[k' v'] r IH]; [discriminate|]. cbn.
  destruct (JsString.eqb k' k) eqn:E.
  - apply str_eqb_eq in E. intros [= ->]. left. now subst.
  - intros H. right. now apply IH.
Qed.

Lemma set_head o k v v' : JsObject.set ((k, v) :: o) k v' = (k, v') :: o.
Proof. cbn. now rewrite str_eqb_refl. Qed.

Lemma set_skip done o k v :
  ~ In k (keys done) -> JsObject.set (done ++ o) k v = done ++ JsObject.set o k v.
Proof.
  induction done as [|[k' v'] r IH]; intros H; [reflexivity|].
  cbn in *. destruct (JsString.eqb k' k) eqn:E.
  - apply str_eqb_eq in E. tauto.
  - f_equal. apply IH. tauto.
Qed.

Lemma set_fresh o k v :
  ~ In k (keys o) -> JsObject.set o k v = o ++ [(k, v)].
Proof.
  intros H. rewrite <- (app_nil_r o) at 1. now rewrite set_skip.
Qed.

Lemma delete_absent o k : ~ In k (keys o) -> JsObject.delete o k = o.
Proof.
  induction o as [|[k' v'] r IH]; intros H; [reflexivity|].
  cbn in *. destruct (JsString.eqb k' k) eqn:E.
  - apply str_eqb_eq in E. tauto.
  - cbn. f_equal. apply IH. tauto.
Qed.

Lemma delete_app o1 o2 k :
  JsObject.delete (o1 ++ o2) k = JsObject.delete o1 k ++ JsObject.delete o2 k.
Proof. apply filter_app. Qed.

Lemma delete_head o k v :
  JsObject.delete ((k, v) :: o) k = JsObject.delete o k.
Proof. cbn. now rewrite str_eqb_refl. Qed.

Lemma delete_keys o k :
  keys (JsObject.delete o k) = filter (fun k' => negb (JsString.eqb k' k)) (keys o).
Proof.
  induction o as [|[k' v'] r IH]; [reflexivity|].
  cbn. destruct (JsString.eqb k' k); cbn; [|f_equal]; apply IH.
Qed.


Lemma keys_app o1 o2 : keys (o1 ++ o2) = keys o1 ++ keys o2.
Proof. apply map_app. Qed.
End ObjFacts.

Lemma firstn_member (A : Type) (n : nat) (l : list A) (x : A) :
  In x (firstn n l) -> In x l.
Proof.
  revert l. induction n as [|n IH]; intros [|y r]; cbn; try tauto.
  intros [H|H]; [now left | right; now apply IH].
Qed.

Lemma slice0_In (A : Type) (l : list A) (bound : jsint) (x : A) :
  In x (slice0 l bound) -> In x l.
Proof.
  destruct bound as [e|]; cbn; [|tauto].
  destruct (e <? 0)%Z; apply firstn_member.
Qed.

Lemma slice0_length (A : Type) (l : list A) (bound : jsint) :
  length (slice0 l bound) <= length l.
Proof.
  destruct bound as [e|]; cbn; [|lia].
  destruct (e <? 0)%Z; rewrite length_firstn; lia.
Qed.

Lemma slice0_bound (A : Type) (l : list A) (e : Z) :
  (0 <= e)%Z -> length (slice0 l (Some e)) <= Z.to_nat e.
Proof.
  intros H. cbn. replace (e <? 0)%Z with false by (symmetry; apply Z.ltb_ge; lia).
  rewrite length_firstn. lia.
Qed.

Lemma setAt_In (i : nat) (x y : product) (arr : list product) :
  In y (setAt i x arr) -> y = x \/ In y arr.
Proof.
  revert i. induction arr as [|z r IH]; intros [|k]; cbn; try tauto.
  - intros [<-|H]; auto.
  - intros [<-|H]; auto. destruct (IH k H); auto.
Qed.

Lemma dedupStep_In (st : list product * list product) (p x : product) :
  In x (snd (dedupStep st p)) -> x = p \/ In x (snd st).
Proof.
  destruct st as [seen dd]. cbn [dedupStep].
  destruct (firstMatch p seen 0) as [i|].
  - destruct (nth_error seen i) as [s|]; [|now right].
    destruct (cheaper p s); [|now right]. cbn [snd]. apply setAt_In.
  - cbn [snd]. rewrite in_app_iff. cbn. intros [H|[H|[]]]; auto.
Qed.

Lemma dedupFold_In (l : list product) (st : list product * list product)
      (x : product) :
  In x (snd (fold_left dedupStep l st)) -> In x (snd st) \/ In x l.
Proof.
  revert st. induction l as [|p r IH]; intros st H; [now left|].
  cbn [fold_left] in H. apply IH in H as [H|H]; [|right; now right].
  apply dedupStep_In in H as [->|H]; [right; now left | now left].
Qed.

(** Deduplication keeps only products it was given. *)
Lemma deduplicateByWebsite_In (l : list product) (x : product) :
  In x (deduplicateByWebsite l) -> In x l.
Proof.
  unfold deduplicateByWebsite. destruct (length l <=? 1); [tauto|].
  intros H. apply dedupFold_In in H as [[]|H]. exact H.
Qed.

Lemma filterAndRankProducts_In (l : list product) (q : jsstring) (m : jsint)
      (x : product) :
  In x (filterAndRankProducts l q m) -> In x l.
Proof.
  unfold filterAndRankProducts. destruct l as [|p r]; [tauto|].
  intros H. apply in_map_iff in H as ([y s] & <- & H).
  apply slice0_In, sortBy_In, filter_In in H as (H & _).
  apply in_map_iff in H as (z & E & H). now injection E as -> _.
Qed.

Lemma filterAndRankProducts_bound (l : list product) (q : jsstring) (e : Z) :
  (0 <= e)%Z -> length (filterAndRankProducts l q (Some e)) <= Z.to_nat e.
Proof.
  intros H. unfold filterAndRankProducts. destruct l as [|p r]; [cbn; lia|].
  rewrite length_map. now apply slice0_bound.
Qed.

(** A product whose price passed the check. *)
Definition validPrice (p : product) : Prop :=
  exists n, price p = PNum n /\ atLeast100 n.

Lemma priceInvalid_false (p : product) :
  priceInvalid (price p) = false -> validPrice p.
Proof.
  unfold priceInvalid, validPrice. intros H.
  apply orb_false_iff in H as (H1 & H2).
  destruct (price p) as [| |n]; cbn in *; try discriminate.
  exists n. split; [reflexivity|]. apply not_lt_hundred; [|assumption].
  destruct n; cbn in *; congruence.
Qed.

(** What [filterPlatform] keeps of the results of one allowed platform. *)
Definition retain (q : jsstring) (m : jsint) (rs : list product) : list product :=
  slice0
    (filterAndRankProducts
       (deduplicateByWebsite
          (filter (fun p => negb (priceInvalid (price p))) rs)) q m)
    (Some 5%Z).

Lemma retain_valid (q : jsstring) (m : jsint) (rs : list product) :
  Forall validPrice (retain q m rs).
Proof.
  apply Forall_forall. intros x H. unfold retain in H.
  apply slice0_In, filterAndRankProducts_In, deduplicateByWebsite_In, filter_In in H.
  apply priceInvalid_false. now apply negb_true_iff.
Qed.

Lemma retain_In (q : jsstring) (m : jsint) (rs : list product) (x : product) :
  In x (retain q m rs) -> In x rs.
Proof.
  intros H. unfold retain in H.
  now apply slice0_In, filterAndRankProducts_In, deduplicateByWebsite_In, filter_In in H.
Qed.

Lemma retain_at_most_5 (q : jsstring) (m : jsint) (rs : list product) :
  length (retain q m rs) <= 5.
Proof. unfold retain. apply (@slice0_bound product _ 5%Z). lia. Qed.

Lemma retain_at_most_limit (q : jsstring) (e : Z) (rs : list product) :
  (0 <= e)%Z -> length (retain q (Some e) rs) <= Z.to_nat e.
Proof.
  intros H. unfold retain.
  etransitivity; [apply slice0_length|]. now apply filterAndRankProducts_bound.
Qed.

End StepFacts.

(* ================================================================== *)
(** * The relevance filter in closed form *)
(* ================================================================== *)

Module FilterFacts.
Import ProductMatcher SearchService BaseScraper NumFacts StepFacts.

Definition allowed (name : jsstring) : bool :=
  has allowedWebsites (toLowerCase name).

(** The entry [filterPlatform] writes for an allowed platform. *)
Definition filteredData (q : jsstring) (m : jsint) (d : platformData)
  : platformData :=
  mkPlatformData (success d) (checked d)
                 (length (retain q m (results d))) (retain q m (results d))
                 (error d) (durationMs d)
                 (Some (length (results d) - length (retain q m (results d)))).

(** What becomes of one entry: filtered when its platform is allowed,
    deleted otherwise. *)
Definition filteredEntry (q : jsstring) (m : jsint)
           (kv : jsstring * platformData) : obj platformData :=
  if allowed (fst kv) then [(fst kv, filteredData q m (snd kv))] else [].

Definition keptCount (q : jsstring) (m : jsint)
           (kv : jsstring * platformData) : nat :=
  if allowed (fst kv) then length (retain q m (results (snd kv))) else 0.

Definition lowestAfter (q : jsstring) (m : jsint) (low : option product)
           (kv : jsstring * platformData) : option product :=
  if allowed (fst kv)
  then fold_left (trackLowest (fst kv)) (retain q m (results (snd kv))) low
  else low.

(** The loop of [applyRelevanceFilter] after the entries [done] have been
    handled and while the entries [rest] are still to come. *)
Lemma filterPlatform_fold (q : jsstring) (m : jsint) :
  forall (rest done : obj platformData) (total : nat) (low : option product),
    NoDup (keys (done ++ rest)) ->
    fold_left (filterPlatform q m) (keys rest)
              (mkFilterState (done ++ rest) total low)
    = mkFilterState (done ++ flat_map (filteredEntry q m) rest)
                    (total + list_sum (map (keptCount q m) rest))
                    (fold_left (lowestAfter q m) rest low).
Proof.
  induction rest as [|[k d] rest IH]; intros done total low ND.
  - cbn. now rewrite Nat.add_0_r.
  - assert (Nd : ~ In k (keys done) /\ ~ In k (keys rest)).
    { rewrite keys_app in ND. cbn in ND. apply NoDup_remove_2 in ND.
      rewrite in_app_iff in ND. tauto. }
    destruct Nd as (Nd & Nr).
    assert (ND' : NoDup (keys (done ++ rest))).
    { rewrite keys_app in *. cbn in ND. now apply NoDup_remove_1 in ND. }
    cbn [keys map fst fold_left]. unfold filterPlatform at 2.
    cbn [fs_platforms fs_totalResults fs_lowestPrice].
    unfold filteredEntry, keptCount, lowestAfter. cbn [flat_map map list_sum fst snd fold_left].
    fold (allowed k). fold (filteredEntry q m). fold (keptCount q m).
    fold (lowestAfter q m).
    destruct (allowed k) eqn:A; cbn [negb].
    + rewrite get_skip, get_head by assumption.
      rewrite set_skip, set_head by assumption.
      fold (retain q m (results d)). fold (filteredData q m d).
      change (done ++ (k, filteredData q m d) :: rest)
        with (done ++ [(k, filteredData q m d)] ++ rest).
      rewrite app_assoc. fold (keys rest).
      rewrite IH.
      * rewrite <- app_assoc. cbn [app]. f_equal. unfold list_sum. cbn [fold_right]. lia.
      * rewrite <- app_assoc. rewrite keys_app in *. exact ND.
    + rewrite delete_app, delete_head, !delete_absent by assumption.
      fold (keys rest). rewrite IH by assumption.
      cbn [app]. f_equal.
Qed.

(** [applyRelevanceFilter] on an object whose keys are distinct. *)
Lemma applyRelevanceFilter_closed (agg : aggregated) (q : jsstring) (m : jsint) :
  NoDup (keys (platforms agg)) ->
  platforms (applyRelevanceFilter agg q m)
  = flat_map (filteredEntry q m) (platforms agg)
  /\ totalResults (applyRelevanceFilter agg q m)
     = list_sum (map (keptCount q m) (platforms agg))
  /\ lowestPrice (applyRelevanceFilter agg q m)
     = fold_left (lowestAfter q m) (platforms agg) None.
Proof.
  intros ND. unfold applyRelevanceFilter. cbn [platforms totalResults lowestPrice].
  pose proof (@filterPlatform_fold q m (platforms agg) [] 0 None ND) as E.
  cbn [app] in E. rewrite E. cbn. auto.
Qed.

End FilterFacts.

(* ================================================================== *)
(** * The registry in closed form *)
(* ================================================================== *)

Module RegistryFacts.
Import ScraperRegistry StepFacts.

(** The entry [collect] writes for the platform [name]. *)
Definition entryOf (reg : registry) (q : jsstring) (limit : jsint)
           (name : jsstring) : platformData :=
  let run := searchPlatform reg name q limit in
  match outcome run with
  | Returned rs => mkPlatformData true true (length rs) rs None (elapsedMs run) None
  | Threw message =>
      mkPlatformData false true 0 [] (Some message) (elapsedMs run) None
  end.

(** Every task settles as fulfilled: the catch leaves nothing to reject. *)
Lemma searchTask_fulfilled (reg : registry) (q : jsstring) (limit : jsint)
      (name : jsstring) :
  exists v, searchTask reg q limit name = Fulfilled v
            /\ pr_platform v = name
            /\ mkPlatformData (pr_success v) (pr_checked v)
                              (length (pr_results v)) (pr_results v)
                              (pr_error v) (pr_durationMs v) None
               = entryOf reg q limit name.
Proof.
  unfold searchTask, entryOf.
  destruct (outcome (searchPlatform reg name q limit)); eexists; repeat split.
Qed.

Lemma collect_platforms (reg : registry) (q : jsstring) (limit : jsint) :
  forall (names : list jsstring) (agg : aggregated),
    platforms (fold_left collect (map (searchTask reg q limit) names) agg)
    = fold_left (fun o name => JsObject.set o name (entryOf reg q limit name))
                names (platforms agg).
Proof.
  induction names as [|name names IH]; intros agg; [reflexivity|].
  cbn [map fold_left]. rewrite IH. f_equal.
  destruct (searchTask_fulfilled reg q limit name) as (v & -> & <- & <-).
  reflexivity.
Qed.

Lemma set_keys_In (V : Type) (o : obj V) (k x : jsstring) (v : V) :
  In x (keys (JsObject.set o k v)) -> In x (keys o) \/ x = k.
Proof.
  induction o as [|[k' v'] r IH]; cbn.
  - intros [<-|[]]. now right.
  - destruct (JsString.eqb k' k); cbn; [tauto|].
    intros [<-|H]; [tauto|]. destruct (IH H); tauto.
Qed.

Lemma set_keys_NoDup (V : Type) (o : obj V) (k : jsstring) (v : V) :
  NoDup (keys o) -> NoDup (keys (JsObject.set o k v)).
Proof.
  induction o as [|[k' v'] r IH]; cbn; intros ND.
  - constructor; [tauto | constructor].
  - destruct (JsString.eqb k' k) eqn:E; cbn; [exact ND|].
    inversion ND as [|? ? Hn Hr]; subst. constructor; [|now apply IH].
    intros H. apply set_keys_In in H as [H| ->]; [tauto|].
    now rewrite str_eqb_refl in E.
Qed.

Lemma setAll_NoDup (V : Type) (f : jsstring -> V) :
  forall (names : list jsstring) (o : obj V),
    NoDup (keys o) ->
    NoDup (keys (fold_left (fun o name => JsObject.set o name (f name)) names o)).
Proof.
  induction names as [|n names IH]; intros o ND; [exact ND|].
  cbn [fold_left]. apply IH. now apply set_keys_NoDup.
Qed.

Lemma setAll_fresh (V : Type) (f : jsstring -> V) :
  forall (names : list jsstring) (o : obj V),
    NoDup (keys o ++ names) ->
    fold_left (fun o name => JsObject.set o name (f name)) names o
    = o ++ map (fun name => (name, f name)) names.
Proof.
  induction names as [|n names IH]; intros o ND; cbn [fold_left map].
  - now rewrite app_nil_r.
  - assert (Hn : ~ In n (keys o)).
    { apply NoDup_remove_2 in ND. rewrite in_app_iff in ND. tauto. }
    rewrite set_fresh by assumption. rewrite IH.
    + now rewrite <- app_assoc.
    + rewrite keys_app. cbn. now rewrite <- app_assoc.
Qed.

(** The keys of the registry's result are distinct. *)
Lemma searchAll_NoDup (reg : registry) (clk : clock) (q : jsstring) (m : jsint) :
  NoDup (keys (platforms (searchAll reg clk q m))).
Proof.
  unfold searchAll. rewrite collect_platforms. apply setAll_NoDup. constructor.
Qed.

(** With distinct platform names the result has one entry per platform,
    in the order of registration. *)
Lemma searchAll_platforms (reg : registry) (clk : clock) (q : jsstring) (m : jsint) :
  NoDup (keys reg) ->
  platforms (searchAll reg clk q m)
  = map (fun name => (name, entryOf reg q (internalLimit m) name)) (keys reg).
Proof.
  intros ND. unfold searchAll. rewrite collect_platforms.
  now rewrite setAll_fresh.
Qed.

End RegistryFacts.

(* ================================================================== *)
(** * The aggregated result of a search *)
(* ================================================================== *)

Module PipelineFacts.
Import ProductMatcher SearchService BaseScraper NumFacts StepFacts.
Import FilterFacts RegistryFacts.

(** The entry [applySorting] leaves for a filtered entry. *)
Definition sortedData (d : platformData) : platformData :=
  mkPlatformData (success d) (checked d) (count d)
                 (sortBy compareProducts (results d))
                 (error d) (durationMs d) (rejectedCount d).

(** The platforms of the final result: every entry of the registry's
    result whose platform is allowed, filtered and then sorted. *)
Lemma searchAll_platforms_closed (reg : ScraperRegistry.registry)
      (clk : ScraperRegistry.clock) (q : jsstring) (m : jsint) :
  platforms (searchAll reg clk q m)
  = map (fun kv => (fst kv, sortedData (snd kv)))
        (flat_map (filteredEntry q m)
                  (platforms (ScraperRegistry.searchAll reg clk q m))).
Proof.
  unfold searchAll, applySorting. cbn [platforms].
  destruct (applyRelevanceFilter_closed
              (ScraperRegistry.searchAll reg clk q m) q m
              (searchAll_NoDup reg clk q m)) as (-> & _).
  reflexivity.
Qed.

(** Each final entry holds, sorted, what [retain] kept of some raw entry. *)
Lemma final_entry_origin (reg : ScraperRegistry.registry)
      (clk : ScraperRegistry.clock) (q : jsstring) (m : jsint)
      (kv : jsstring * platformData) :
  In kv (platforms (searchAll reg clk q m)) ->
  exists raw, In (fst kv, raw) (platforms (ScraperRegistry.searchAll reg clk q m))
              /\ allowed (fst kv) = true
              /\ results (snd kv)
                 = sortBy compareProducts (retain q m (results raw)).
Proof.
  rewrite searchAll_platforms_closed. intros H.
  apply in_map_iff in H as ([k d] & <- & H).
  apply in_flat_map in H as ([k0 raw] & H0 & H).
  unfold filteredEntry in H. cbn [fst snd] in H.
  destruct (allowed k0) eqn:A; [|contradiction].
  destruct H as [[= <- <-]|[]]. exists raw. cbn. auto.
Qed.

(** C1.  In the result of [searchAll], every product of every platform
    entry has a price that is a number, at least 100 and above 0; so no
    product with a missing, null, zero or below-threshold price is there. *)
Theorem searchAll_prices_valid (reg : ScraperRegistry.registry)
        (clk : ScraperRegistry.clock) (q : jsstring) (m : jsint) :
  Forall
    (fun kv =>
       Forall
         (fun p =>
            (exists n, price p = PNum n
                       /\ ge n hundred = true /\ gt n zero = true)
            /\ price p <> PMissing /\ price p <> PNull
            /\ price p <> PNum zero
            /\ forall n, price p = PNum n -> lt n hundred = false)
         (results (snd kv)))
    (platforms (searchAll reg clk q m)).
Proof.
  apply Forall_forall. intros kv H.
  apply final_entry_origin in H as (raw & _ & _ & ->).
  apply Forall_forall. intros p H. apply sortBy_In in H.
  pose proof (retain_valid q m (results raw)) as F.
  rewrite Forall_forall in F. destruct (F p H) as (n & E & A).
  rewrite E. split; [|repeat split; try discriminate].
  - exists n. repeat split.
    + now apply ge_hundred_iff.
    + now apply atLeast100_positive.
  - intros [= ->]. inversion A as [|? B]; subst. unfold inject_Z in B. lra.
  - intros n' [= <-]. now apply atLeast100_not_below.
Qed.

(** C6.  In the result of [searchAll], every platform entry holds at most
    5 products, and at most [limit] of them when the caller's limit is a
    number that is not negative: at most 1 when the caller asks for 1. *)
Theorem searchAll_bounded (reg : ScraperRegistry.registry)
        (clk : ScraperRegistry.clock) (q : jsstring) (m : jsint) :
  Forall
    (fun kv =>
       length (results (snd kv)) <= 5
       /\ (forall limit, m = Some limit -> (0 <= limit)%Z ->
                         length (results (snd kv)) <= Z.to_nat limit)
       /\ (m = Some 1%Z -> length (results (snd kv)) <= 1)
       /\ count (snd kv) = length (results (snd kv)))
    (platforms (searchAll reg clk q m)).
Proof.
  apply Forall_forall. intros kv H.
  pose proof H as H'. rewrite searchAll_platforms_closed in H'.
  apply in_map_iff in H' as ([k d] & <- & H').
  apply in_flat_map in H' as ([k0 raw] & _ & H').
  unfold filteredEntry in H'. cbn [fst snd] in H'.
  destruct (allowed k0); [|contradiction]. destruct H' as [[= <- <-]|[]].
  cbn [snd sortedData filteredData results count]. rewrite sortBy_length.
  repeat split.
  - apply retain_at_most_5.
  - intros limit -> L. now apply retain_at_most_limit.
  - intros ->. apply (@retain_at_most_limit q 1%Z). lia.
Qed.

(** [acc] is a product of lowest price among [seen]. *)
Definition lowestOf (acc : option product) (seen : list product) : Prop :=
  match acc with
  | None => seen = []
  | Some lp =>
      (exists p, In p seen /\ price lp = price p)
      /\ forall p, In p seen ->
                   le (priceNumber (price lp)) (priceNumber (price p)) = true
  end.

Lemma validPrice_number (p : product) :
  validPrice p -> atLeast100 (priceNumber (price p)) /\ priceTruthy (price p) = true.
Proof.
  intros (n & E & A). rewrite E. cbn. split; [assumption|].
  now apply atLeast100_truthy.
Qed.

Lemma trackLowest_step (name : jsstring) (acc : option product)
      (seen : list product) (p : product) :
  Forall validPrice seen -> validPrice p -> lowestOf acc seen ->
  lowestOf (trackLowest name acc p) (seen ++ [p]).
Proof.
  intros Fs Vp L. destruct (validPrice_number Vp) as (Ap & Tp).
  unfold trackLowest. rewrite Tp. cbn [andb].
  destruct acc as [lp|]; cbn [lowestOf] in *.
  - destruct L as ((p0 & I0 & E0) & L).
    assert (Alp : atLeast100 (priceNumber (price lp))).
    { rewrite E0. rewrite Forall_forall in Fs.
      now apply validPrice_number, Fs. }
    destruct (lt (priceNumber (price p)) (priceNumber (price lp))) eqn:C;
      cbn [lowestOf]; split.
    + exists p. split; [apply in_or_app; right; now left | reflexivity].
    + intros x Hx. cbn [withPlatform price].
      apply in_app_or in Hx as [Hx|[<-|[]]]; [|now apply le_refl].
      apply le_trans with (priceNumber (price lp)); [now apply lt_le | now apply L].
    + exists p0. split; [apply in_or_app; now left | assumption].
    + intros x Hx. apply in_app_or in Hx as [Hx|[<-|[]]]; [now apply L|].
      apply not_lt_le; try assumption; now apply atLeast100_number.
  - subst seen. cbn [lowestOf app]. split.
    + exists p. split; [now left | reflexivity].
    + intros x [<-|[]]. cbn [withPlatform price]. now apply le_refl.
Qed.

Lemma trackLowest_fold (name : jsstring) :
  forall (ps : list product) (acc : option product) (seen : list product),
    Forall validPrice seen -> Forall validPrice ps -> lowestOf acc seen ->
    lowestOf (fold_left (trackLowest name) ps acc) (seen ++ ps)
    /\ Forall validPrice (seen ++ ps).
Proof.
  induction ps as [|p ps IH]; intros acc seen Fs Fp L.
  - rewrite app_nil_r. auto.
  - inversion Fp as [|? ? Vp Fp']; subst. cbn [fold_left].
    change (seen ++ p :: ps) with (seen ++ [p] ++ ps). rewrite app_assoc.
    apply IH; [|assumption|now apply trackLowest_step].
    apply Forall_app. split; [assumption | now constructor].
Qed.

(** What the loop of [applyRelevanceFilter] has seen after [entries]. *)
Definition keptOf (q : jsstring) (m : jsint) (entries : obj platformData)
  : list product :=
  flat_map (fun kv => if allowed (fst kv) then retain q m (results (snd kv)) else [])
           entries.

Lemma lowestAfter_fold (q : jsstring) (m : jsint) :
  forall (entries : obj platformData) (acc : option product) (seen : list product),
    Forall validPrice seen -> lowestOf acc seen ->
    lowestOf (fold_left (lowestAfter q m) entries acc) (seen ++ keptOf q m entries).
Proof.
  induction entries as [|[k d] entries IH]; intros acc seen Fs L.
  - cbn. now rewrite app_nil_r.
  - cbn [fold_left keptOf flat_map fst snd]. fold (keptOf q m entries).
    unfold lowestAfter at 2. cbn [fst snd].
    destruct (allowed k).
    + rewrite app_assoc.
      destruct (@trackLowest_fold k (retain q m (results d)) acc seen Fs
                  (retain_valid q m (results d)) L) as (L' & F').
      now apply IH.
    + cbn [app]. now apply IH.
Qed.

(** The products of the final entries are those the loop has seen. *)
Lemma final_products_kept (reg : ScraperRegistry.registry)
      (clk : ScraperRegistry.clock) (q : jsstring) (m : jsint) (p : product) :
  In p (flat_map (fun kv => results (snd kv)) (platforms (searchAll reg clk q m)))
  <-> In p (keptOf q m (platforms (ScraperRegistry.searchAll reg clk q m))).
Proof.
  rewrite searchAll_platforms_closed. unfold keptOf.
  induction (platforms (ScraperRegistry.searchAll reg clk q m)) as [|[k d] r IH];
    [reflexivity|].
  cbn [flat_map fst snd]. unfold filteredEntry at 1. cbn [fst snd].
  destruct (allowed k); cbn [app map flat_map fst snd sortedData filteredData results].
  - rewrite !in_app_iff, sortBy_In, IH. reflexivity.
  - exact IH.
Qed.

(** C5.  In the result of [searchAll]: when some product is retained,
    [lowestPrice] is present and its price is the least of the prices of
    the retained products of all platforms; when none is retained,
    [lowestPrice] is null. *)
Theorem searchAll_lowestPrice (reg : ScraperRegistry.registry)
        (clk : ScraperRegistry.clock) (q : jsstring) (m : jsint) :
  let result := searchAll reg clk q m in
  let retained := flat_map (fun kv => results (snd kv)) (platforms result) in
  (retained <> [] ->
   exists lp, lowestPrice result = Some lp
              /\ (exists p, In p retained /\ price lp = price p)
              /\ forall p, In p retained ->
                           le (priceNumber (price lp)) (priceNumber (price p)) = true)
  /\ (retained = [] -> lowestPrice result = None).
Proof.
  intros result retained.
  assert (L : lowestOf (lowestPrice result)
                       (keptOf q m (platforms (ScraperRegistry.searchAll reg clk q m)))).
  { unfold result, searchAll, applySorting. cbn [lowestPrice].
    destruct (applyRelevanceFilter_closed
                (ScraperRegistry.searchAll reg clk q m) q m
                (searchAll_NoDup reg clk q m)) as (_ & _ & ->).
    apply (@lowestAfter_fold q m _ None []); [constructor | reflexivity]. }
  pose proof (final_products_kept reg clk q m) as K. fold result retained in K.
  destruct (lowestPrice result) as [lp|]; cbn [lowestOf] in L.
  - destruct L as ((p0 & I0 & E0) & L). split.
    + intros _. exists lp. split; [reflexivity|]. split.
      * exists p0. split; [now apply K | assumption].
      * intros p Hp. apply L. now apply K.
    + intros E. apply K in I0. rewrite E in I0. destruct I0.
  - split; [|reflexivity].
    intros NE. destruct retained as [|p r]; [congruence|].
    assert (I : In p (p :: r)) by now left.
    apply K in I. rewrite L in I. destruct I.
Qed.

End PipelineFacts.

(* ================================================================== *)
(** * A source that fails *)
(* ================================================================== *)

Module FailureFacts.
Import ScraperRegistry StepFacts RegistryFacts FilterFacts PipelineFacts.







End FailureFacts.

(* ================================================================== *)
(** * The fallback chain of [smartFetch] *)
(* ================================================================== *)

Module TransportFacts.

(** The message [makeRequest] throws after [n] failed attempts, the last
    of which failed with [e]. *)
Definition failedMessage (name : jsstring) (n : nat) (e : jsstring) : jsstring :=
  js "Failed to fetch from " ++ name ++ js " after "
  ++ ofN (N.of_nat n) ++ js " attempts: " ++ e.

Definition thrownMessage (name : jsstring) (n : nat) (last : option jsstring)
  : jsstring :=
  match last with
  | Some e => failedMessage name n e
  | None => js "Cannot read properties of undefined (reading 'message')"
  end.

(** As the specification words it: the delay after the failed attempt
    number [attempt] is 1000ms * 2^(attempt-1). *)
Definition backoff (attempt : nat) : Z := 1000 * 2 ^ (Z.of_nat attempt - 1).

(** A failed light attempt out of [n]: the attempt, then the backoff
    unless it was the last one allowed. *)
Definition failedAttempt (n attempt : nat) : list event :=
  LightAttempt attempt :: (if attempt <? n then [Delay (backoff attempt)] else []).

(** The light attempts 1 to [n], all failed. *)
Definition failedLight (n : nat) : list event :=
  flat_map (failedAttempt n) (seq 1 n).


Section Chain.
Variable axios : nat -> answer.
Variable browser : nat -> answer.
Variable name : jsstring.
Variable n : nat.
Variable errs : nat -> jsstring.

Lemma attempts_all_fail :
(forall i, i < n -> axios i = Failure (errs i)) ->
forall (remaining : nat) (last : option jsstring) (w : world),
  remaining <= n -> axiosCalls w = n - remaining ->
  attempts axios name n remaining last w
  = (Err (thrownMessage name n
            (match remaining with O => last | S _ => Some (errs (n - 1)) end)),
     mkWorld n (browserCalls w)
             (trace w ++ flat_map (failedAttempt n)
                                  (seq (S (n - remaining)) remaining))).
Proof.
intros Hax. induction remaining as [|k IH]; intros last w Hle Hw.
- destruct w as [a b t]. cbn in *. rewrite Nat.sub_0_r in Hw. subst a.
  rewrite app_nil_r. destruct last; reflexivity.
- cbn [attempts]. unfold tryCatch at 1. unfold callAxios at 1.
  rewrite Hw, Hax by lia. unfold bind at 1.
  set (attempt := S (n - S k)).
  assert (Hk : n - k = attempt) by (unfold attempt; lia).
  assert (Hstep : forall w1 : world,
             axiosCalls w1 = attempt ->
             attempts axios name n k (Some (errs (n - S k))) w1
             = (Err (thrownMessage name n (Some (errs (n - 1)))),
                mkWorld n (browserCalls w1)
                        (trace w1 ++ flat_map (failedAttempt n) (seq (S attempt) k)))).
  { intros w1 H1. rewrite IH by lia. rewrite Hk. repeat f_equal.
    destruct k; [|reflexivity]. reflexivity. }
  cbn [seq flat_map]. fold attempt. unfold failedAttempt at 1.
  destruct (attempt <? n); cbn [delay ret].
  + unfold delay. rewrite Hstep by reflexivity. cbn [browserCalls trace].
    unfold backoff. now rewrite <- !app_assoc.
  + unfold ret. rewrite Hstep by reflexivity. cbn [browserCalls trace].
    now rewrite <- !app_assoc.
Qed.

(** [makeRequest] when every attempt fails. *)
Lemma makeRequest_all_fail :
(forall i, i < n -> axios i = Failure (errs i)) ->
makeRequest axios name n start
= (Err (thrownMessage name n
          (match n with O => None | S _ => Some (errs (n - 1)) end)),
   mkWorld n 0 (failedLight n)).
Proof.
intros Hax. unfold makeRequest.
rewrite (@attempts_all_fail Hax n None start) by (cbn; lia).
cbn [start browserCalls trace app]. rewrite Nat.sub_diag. reflexivity.
Qed.

Lemma attempts_success (p : nat) (d : jsstring) :
p < n ->
(forall i, i < p -> axios i = Failure (errs i)) ->
axios p = Content d ->
forall (failures : nat) (last : option jsstring) (w : world),
  failures <= p -> axiosCalls w = p - failures ->
  attempts axios name n (n - p + failures) last w
  = (Ok d,
     mkWorld (S p) (browserCalls w)
             (trace w ++ flat_map (failedAttempt n) (seq (S (p - failures)) failures)
              ++ [LightAttempt (S p)])).
Proof.
intros Hp Hax Hd. induction failures as [|k IH]; intros last w Hle Hw.
- rewrite Nat.add_0_r. destruct (n - p) as [|r] eqn:E; [lia|].
  cbn [attempts]. unfold tryCatch, callAxios.
  rewrite Nat.sub_0_r in Hw. rewrite Hw, Hd.
  cbn [seq flat_map app]. repeat f_equal. lia.
- replace (n - p + S k) with (S (n - p + k)) by lia.
  cbn [attempts]. unfold tryCatch at 1. unfold callAxios at 1.
  rewrite Hw, Hax by lia. unfold bind at 1.
  replace (S (n - S (n - p + k))) with (S (p - S k)) by lia.
  set (attempt := S (p - S k)).
  assert (Hlt : (attempt <? n) = true) by (apply Nat.ltb_lt; unfold attempt; lia).
  rewrite Hlt. unfold delay.
  rewrite IH by (cbn; lia). cbn [browserCalls trace].
  replace (S (p - k)) with (S attempt) by (unfold attempt; lia).
  cbn [seq flat_map]. fold attempt. unfold failedAttempt at 2. rewrite Hlt.
  unfold backoff. f_equal. f_equal. rewrite <- !app_assoc. reflexivity.
Qed.

End Chain.


End TransportFacts.

(* ================================================================== *)
(** * A worked search *)
(* ================================================================== *)

Module Demo.
Import ScraperRegistry.

Definition listed (t : string) (p : Z) : rawResult :=
  {| r_title := js t; r_price := PNum (ofZ p);
     r_url := js "https://example.in/p"; r_imageUrl := [];
     r_availability := VStr (js "available");
     r_specs := []; r_description := [] |}.

(** Seven colours of one phone, a case, and two listings whose price did
    not parse or is below the threshold. *)
Definition amazonPage : list rawResult :=
  [ listed "Apple iPhone 15 (Black, 128 GB)" 69900;
    listed "Apple iPhone 15 (Blue, 128 GB)" 68900;
    listed "Apple iPhone 15 (Pink, 128 GB)" 70900;
    listed "iPhone 15 Pro Max Silicone Case" 999;
    listed "Apple iPhone 15 (Green, 128 GB)" 69500;
    listed "Apple iPhone 15 (Yellow, 128 GB)" 69400;
    listed "Apple iPhone 15 (White, 128 GB)" 71000;
    listed "Apple iPhone 15 (Red, 128 GB)" 67900;
    {| r_title := js "Apple iPhone 15 (Gold, 128 GB)"; r_price := PNull;
       r_url := []; r_imageUrl := []; r_availability := VUndefined;
       r_specs := []; r_description := [] |};
    listed "Apple iPhone 15 (Silver, 128 GB)" 15 ].

Definition amazonDemo : scraper :=
  fun _ _ => mkRun (Returned (BaseScraper.normalizeResults (js "amazon") amazonPage)) 2100.

Definition flipkartDemo : scraper :=
  fun _ _ =>
    mkRun (Threw (js "Flipkart search failed: could not fetch search page (timeout of 15000ms exceeded)"))
          31000.

Definition myntraDemo : scraper :=
  fun _ _ => mkRun (Returned []) 900.

Definition demoRegistry : registry :=
  register (register (register [] (js "amazon") amazonDemo)
                     (js "flipkart") flipkartDemo)
           (js "myntra") myntraDemo.

Definition demoClock : clock := mkClock (js "2025-01-01T00:00:00.000Z") 31005.

Definition demoResult (limit : jsint) : aggregated :=
  SearchService.searchAll demoRegistry demoClock (js "iPhone 15") limit.

Definition pricesOf (agg : aggregated) (name : jsstring) : list jsprice :=
  match JsObject.get (platforms agg) name with
  | Some d => map price (results d)
  | None => []
  end.

End Demo.

Module DemoFacts.
Import Demo ScraperRegistry.

(** The search for "iPhone 15" with the limit 10: the entry of amazon
    keeps five phones, cheapest first, the case and the two unpriced
    listings are gone, and the lowest price is that of the cheapest phone
    retained. *)
Example demo_limit_10 :
  keys (platforms (demoResult (Some 10%Z))) = [js "amazon"; js "flipkart"; js "myntra"]
  /\ pricesOf (demoResult (Some 10%Z)) (js "amazon")
     = [PNum (ofZ 68900); PNum (ofZ 69400); PNum (ofZ 69500);
        PNum (ofZ 69900); PNum (ofZ 70900)]
  /\ option_map price (lowestPrice (demoResult (Some 10%Z))) = Some (PNum (ofZ 68900))
  /\ totalResults (demoResult (Some 10%Z)) = 5
  /\ map (fun kv => (success (snd kv), count (snd kv)))
         (platforms (demoResult (Some 10%Z)))
     = [(true, 5); (false, 0); (true, 0)].
Proof. repeat split; vm_compute; reflexivity. Qed.

(** The same search with the limit 1 keeps one product per source. *)
Example demo_limit_1 :
  pricesOf (demoResult (Some 1%Z)) (js "amazon") = [PNum (ofZ 69900)]
  /\ option_map price (lowestPrice (demoResult (Some 1%Z))) = Some (PNum (ofZ 69900)).
Proof. split; vm_compute; reflexivity. Qed.

Lemma demoRegistry_keys :
  keys demoRegistry = [js "amazon"; js "flipkart"; js "myntra"].
Proof. reflexivity. Defined.

Lemma demoRegistry_NoDup : NoDup (keys demoRegistry).
Proof.
  rewrite demoRegistry_keys.
  repeat constructor; cbn; intuition discriminate.
Defined.





End DemoFacts.

(* ================================================================== *)
(** * The price normalizer and the schema: what every caller can rely on *)
(* ================================================================== *)

Module NormalizerFacts.
Import BaseScraper NumFacts StepFacts PriceFacts.

(** X1.  Whatever text it is given, [extractPrice] never hands back a
    fallback: a result is a number (not NaN), at least 100 and above 0.
    A null argument gives null. *)
Theorem extractPrice_never_below_floor (priceText : option jsstring) (m : jsnum) :
  extractPrice priceText = Some m ->
  isNaN m = false /\ ge m hundred = true /\ gt m zero = true
  /\ truthy m = true /\ extractPrice None = None.
Proof.
  intros H. apply extractPrice_atLeast100 in H.
  repeat split.
  - now apply atLeast100_number.
  - now apply ge_hundred_iff.
  - now apply atLeast100_positive.
  - now apply atLeast100_truthy.
Qed.

Lemma extractPrice_never_below_floor_witness :
  extractPrice (Some (rupee :: js "79,900")) = Some (ofZ 79900)
  /\ isNaN (ofZ 79900) = false /\ ge (ofZ 79900) hundred = true.
Proof.
  split; [vm_compute; reflexivity|].
  destruct (@extractPrice_never_below_floor
              (Some (rupee :: js "79,900")) (ofZ 79900))
    as (H1 & H2 & _).
  - vm_compute. reflexivity.
  - split; assumption.
Defined.

(** X2.  Every product [normalizeResults] emits carries the name of its
    scraper in [source], [platform] and [siteName], the cleaned title in
    its three title fields, and a price that is a number at least 100;
    nothing is added, and the price check of the search service (its
    RULE 2) finds nothing left to remove. *)
Theorem normalizeResults_canonical (platformName : jsstring)
        (raws : list rawResult) :
  Forall
    (fun p =>
       source p = platformName /\ platform p = platformName
       /\ siteName p = platformName
       /\ product_name p = title p /\ productTitle p = title p
       /\ product_url p = url p /\ productUrl p = url p
       /\ exists n, price p = PNum n /\ ge n hundred = true)
    (normalizeResults platformName raws)
  /\ length (normalizeResults platformName raws) <= length raws
  /\ filter (fun p => negb (priceInvalid (price p)))
            (normalizeResults platformName raws)
     = normalizeResults platformName raws.
Proof.
  unfold normalizeResults. split; [|split].
  - apply Forall_forall. intros p H.
    apply in_map_iff in H as (raw & <- & H). apply filter_In in H as (_ & H).
    cbn [source platform siteName product_name title productTitle
         product_url url productUrl price].
    repeat split.
    apply negb_true_iff in H.
    destruct (@priceInvalid_false
                {| source := []; platform := []; siteName := [];
                   product_name := []; title := []; productTitle := [];
                   price := r_price raw; currency := []; product_url := [];
                   url := []; productUrl := []; image_url := None;
                   imageUrl := None; availability := VNull; inStock := true;
                   specs := []; description := [] |} H) as (n & E & A).
    exists n. split; [exact E | now apply ge_hundred_iff].
  - rewrite length_map. apply filter_length_le.
  - assert (K : forall (f : rawResult -> product) (l : list rawResult),
               (forall r, price (f r) = r_price r) ->
               Forall (fun r => priceInvalid (r_price r) = false) l ->
               filter (fun p => negb (priceInvalid (price p))) (map f l) = map f l).
    { intros f l Hf. induction l as [|r l IH]; intros F; [reflexivity|].
      inversion F as [|? ? H1 H2]; subst. cbn [map filter].
      rewrite Hf, H1. cbn [negb]. f_equal. now apply IH. }
    apply K; [reflexivity|].
    apply Forall_forall. intros r Hr.
    apply filter_In in Hr as (_ & Hr). now apply negb_true_iff.
Qed.

End NormalizerFacts.

(* ================================================================== *)
(** * scrapers/index.js: registering and looking up scrapers *)
(* ================================================================== *)

Module RegistryOps.
Import ScraperRegistry Transport.

(** [getScraper(platform)]: throws for a platform without scraper. *)
Definition getScraper (reg : registry) (name : jsstring) : result scraper :=
  match JsObject.get reg name with
  | Some s => Ok s
  | None => Err (js "No scraper found for platform: " ++ name)
  end.

(** [getAvailablePlatforms()]. *)
Definition getAvailablePlatforms (reg : registry) : list jsstring :=
  JsObject.keys reg.

(** [initializeScrapers()] on the three scraper objects. *)
Definition initializeScrapers (amazon flipkart myntra : scraper) : registry :=
  register (register (register [] (js "amazon") amazon) (js "flipkart") flipkart)
           (js "myntra") myntra.

End RegistryOps.

Module RegistryOpsFacts.
Import ScraperRegistry Transport RegistryOps StepFacts RegistryFacts.

Lemma get_set_same (V : Type) (o : obj V) (k : jsstring) (v : V) :
  JsObject.get (JsObject.set o k v) k = Some v.
Proof.
  induction o as [|[k' v'] r IH]; cbn.
  - now rewrite str_eqb_refl.
  - destruct (JsString.eqb k' k) eqn:E; cbn; rewrite E; [reflexivity | exact IH].
Qed.

Lemma get_set_other (V : Type) (o : obj V) (k k' : jsstring) (v : V) :
  k' <> k -> JsObject.get (JsObject.set o k v) k' = JsObject.get o k'.
Proof.
  intros N. induction o as [|[k0 v0] r IH]; cbn.
  - assert (E : JsString.eqb k k' = false) by (apply str_eqb_neq; congruence).
    now rewrite E.
  - destruct (JsString.eqb k0 k) eqn:E; cbn.
    + apply str_eqb_eq in E. subst k0.
      destruct (JsString.eqb k k') eqn:E'; [|reflexivity].
      apply str_eqb_eq in E'. congruence.
    + now rewrite IH.
Qed.

Lemma set_keys (V : Type) (o : obj V) (k : jsstring) (v : V) :
  keys (JsObject.set o k v)
  = if existsb (JsString.eqb k) (keys o) then keys o else keys o ++ [k].
Proof.
  induction o as [|[k' v'] r IH]; [reflexivity|].
  cbn [JsObject.set keys map fst existsb].
  destruct (JsString.eqb k' k) eqn:E.
  - apply str_eqb_eq in E. subst k'. now rewrite str_eqb_refl.
  - assert (E' : JsString.eqb k k' = false).
    { apply str_eqb_neq. apply str_eqb_neq in E. congruence. }
    rewrite E'. cbn [orb map fst]. fold (keys (JsObject.set r k v)). rewrite IH.
    fold (keys r). now destruct (existsb (JsString.eqb k) (keys r)).
Qed.

(** X3.  Registering and looking up: after [register(p, s)] the scraper
    of [p] is [s] and every other lookup is as before; a platform that is
    already registered keeps its place in the list of platforms, a new one
    goes to the end; the names stay distinct; and looking up a platform
    that was never registered throws "No scraper found for platform: p". *)
Theorem register_then_getScraper (reg : registry) (name other : jsstring)
        (s : scraper) :
  getScraper (register reg name s) name = Ok s
  /\ (other <> name ->
      getScraper (register reg name s) other = getScraper reg other)
  /\ (In name (getAvailablePlatforms reg) ->
      getAvailablePlatforms (register reg name s) = getAvailablePlatforms reg)
  /\ (~ In name (getAvailablePlatforms reg) ->
      getAvailablePlatforms (register reg name s)
      = getAvailablePlatforms reg ++ [name])
  /\ (NoDup (getAvailablePlatforms reg) ->
      NoDup (getAvailablePlatforms (register reg name s)))
  /\ (~ In other (getAvailablePlatforms reg) ->
      getScraper reg other = Err (js "No scraper found for platform: " ++ other)).
Proof.
  unfold getScraper, register, getAvailablePlatforms.
  split; [|split; [|split; [|split; [|split]]]].
  - now rewrite get_set_same.
  - intros N. now rewrite get_set_other.
  - intros I. rewrite set_keys.
    replace (existsb (JsString.eqb name) (keys reg)) with true; [reflexivity|].
    symmetry. apply existsb_exists. exists name. split; [assumption|].
    apply str_eqb_refl.
  - intros I. rewrite set_keys.
    replace (existsb (JsString.eqb name) (keys reg)) with false; [reflexivity|].
    symmetry. apply not_true_is_false. intros H.
    apply existsb_exists in H as (x & Hx & E). apply str_eqb_eq in E. now subst.
  - apply set_keys_NoDup.
  - intros I. now rewrite get_None.
Qed.

(** The registry of the module: amazon, flipkart and myntra, in this
    order, each with its own scraper. *)
Example initializeScrapers_platforms (amazon flipkart myntra : scraper) :
  getAvailablePlatforms (initializeScrapers amazon flipkart myntra)
  = [js "amazon"; js "flipkart"; js "myntra"]
  /\ getScraper (initializeScrapers amazon flipkart myntra) (js "flipkart")
     = Ok flipkart.
Proof. split; reflexivity. Qed.

End RegistryOpsFacts.

(* ================================================================== *)
(** * scrapers/index.js: the totals of the aggregated result *)
(* ================================================================== *)

Module RegistryTotals.
Import ScraperRegistry StepFacts RegistryFacts NumFacts.

Lemma entryOf_shape (reg : registry) (q : jsstring) (limit : jsint)
      (name : jsstring) :
  let e := entryOf reg q limit name in
  count e = length (results e) /\ checked e = true /\ rejectedCount e = None
  /\ (success e = true <-> error e = None)
  /\ (success e = false -> results e = []).
Proof.
  unfold entryOf. destruct (outcome (searchPlatform reg name q limit)); cbn.
  - repeat split; auto. discriminate.
  - repeat split; auto; discriminate.
Qed.

(** The running totals of [allResults.forEach]. *)
Lemma collect_totals (reg : registry) (q : jsstring) (limit : jsint) :
  forall (names : list jsstring) (agg : aggregated),
    let final := fold_left collect (map (searchTask reg q limit) names) agg in
    totalResults final
    = totalResults agg
      + list_sum (map (fun name => length (results (entryOf reg q limit name))) names)
    /\ lowestPrice final
       = fold_left (fun low name =>
                      fold_left (trackLowest name)
                                (results (entryOf reg q limit name)) low)
                   names (lowestPrice agg)
    /\ query final = query agg.
Proof.
  induction names as [|name names IH]; intros agg.
  - cbn. auto.
  - cbn [map fold_left]. cbn zeta in IH.
    destruct (IH (collect agg (searchTask reg q limit name))) as (H1 & H2 & H3).
    rewrite H1, H2, H3. clear H1 H2 H3 IH.
    destruct (searchTask_fulfilled reg q limit name) as (v & -> & <- & <-).
    cbn [collect totalResults lowestPrice query results].
    repeat split. unfold list_sum. cbn [fold_right]. lia.
Qed.

(** X4.  In the aggregated result of the registry (distinct platform
    names, none of them "__proto__", under which a plain object keeps no
    entry): [totalResults] is the sum of the [count]s of the entries and
    the number of products they hold; each [count] is the length of its
    [results]; an entry has an error exactly when [success] is false, and
    then it holds no product. *)
Theorem registry_totals_agree (reg : registry) (clk : clock) (q : jsstring)
        (m : jsint) :
  NoDup (keys reg) ->
  ~ In (js "__proto__") (keys reg) ->
  let agg := searchAll reg clk q m in
  totalResults agg = list_sum (map (fun kv => count (snd kv)) (platforms agg))
  /\ totalResults agg
     = length (flat_map (fun kv => results (snd kv)) (platforms agg))
  /\ Forall (fun kv =>
               count (snd kv) = length (results (snd kv))
               /\ checked (snd kv) = true
               /\ (success (snd kv) = true <-> error (snd kv) = None)
               /\ (success (snd kv) = false -> results (snd kv) = []))
            (platforms agg)
  /\ query agg = q.
Proof.
  intros ND _ agg. unfold agg. rewrite searchAll_platforms by assumption.
  unfold searchAll.
  destruct (collect_totals reg q (internalLimit m) (keys reg)
              {| query := q; platforms := []; totalResults := 0;
                 lowestPrice := None; searchedAt := isoNow clk;
                 overallDurationMs := overallMs clk;
                 sortedAllProducts := None |}) as (H1 & _ & H3).
  cbn zeta in H1, H3. rewrite H1, H3. cbn [totalResults query].
  repeat split.
  - rewrite map_map. cbn [snd Nat.add]. f_equal. apply map_ext_in. intros name _.
    symmetry. apply (entryOf_shape reg q (internalLimit m) name).
  - cbn [Nat.add]. clear. induction (keys reg) as [|name names IH]; [reflexivity|].
    cbn [map flat_map snd]. rewrite length_app, <- IH. reflexivity.
  - apply Forall_forall. intros kv H. apply in_map_iff in H as (name & <- & _).
    cbn [snd]. pose proof (entryOf_shape reg q (internalLimit m) name) as S.
    cbn zeta in S. tauto.
Qed.

Lemma registry_totals_agree_witness :
  totalResults (searchAll Demo.demoRegistry Demo.demoClock (js "iPhone 15") (Some 10%Z))
  = 8
  /\ totalResults (searchAll Demo.demoRegistry Demo.demoClock (js "iPhone 15") (Some 10%Z))
     = list_sum (map (fun kv => count (snd kv))
                     (platforms (searchAll Demo.demoRegistry Demo.demoClock
                                           (js "iPhone 15") (Some 10%Z)))).
Proof.
  split; [vm_compute; reflexivity|].
  refine (proj1 (@registry_totals_agree Demo.demoRegistry Demo.demoClock
                   (js "iPhone 15") (Some 10%Z) DemoFacts.demoRegistry_NoDup _)).
  rewrite DemoFacts.demoRegistry_keys. cbn [In]. intuition discriminate.
Defined.

End RegistryTotals.

(* ================================================================== *)
(** * services/searchService.js: the shape of the final result *)
(* ================================================================== *)

Module ResultShape.
Import ScraperRegistry StepFacts RegistryFacts FilterFacts PipelineFacts.
Import RegistryOpsFacts RegistryTotals.

Lemma setAll_keys_In (V : Type) (f : jsstring -> V) (x : jsstring) :
  forall (names : list jsstring) (o : obj V),
    In x (keys (fold_left (fun o name => JsObject.set o name (f name)) names o))
    <-> In x (keys o) \/ In x names.
Proof.
  induction names as [|n names IH]; intros o; cbn [fold_left].
  - cbn. tauto.
  - rewrite IH, set_keys.
    destruct (existsb (JsString.eqb n) (keys o)) eqn:E.
    + apply existsb_exists in E as (y & Hy & E). apply str_eqb_eq in E. subst y.
      cbn. intuition (subst; auto).
    + rewrite in_app_iff. cbn. tauto.
Qed.

Lemma registry_keys_In (reg : registry) (clk : clock) (q : jsstring) (m : jsint)
      (x : jsstring) :
  In x (keys (platforms (searchAll reg clk q m))) <-> In x (keys reg).
Proof.
  unfold searchAll. rewrite collect_platforms, setAll_keys_In. cbn. tauto.
Qed.

Lemma final_keys (q : jsstring) (m : jsint) (entries : obj platformData) :
  keys (map (fun kv => (fst kv, sortedData (snd kv)))
            (flat_map (filteredEntry q m) entries))
  = filter allowed (keys entries).
Proof.
  induction entries as [|[k d] r IH]; [reflexivity|].
  cbn [flat_map keys map fst filter]. unfold filteredEntry at 1. cbn [fst snd].
  destruct (allowed k); cbn [app map fst keys]; [f_equal|]; exact IH.
Qed.

(** X5.  A source has an entry in the result of the search service
    exactly when it is registered and its name, in lower case, is one of
    the five allowed websites; the entries keep the order of registration
    and their names are distinct. *)
Theorem searchAll_keeps_allowed_sources
        (reg : registry) (clk : clock) (q : jsstring) (m : jsint) :
  (forall name,
      In name (keys (platforms (SearchService.searchAll reg clk q m)))
      <-> In name (keys reg)
          /\ ProductMatcher.has SearchService.allowedWebsites (toLowerCase name) = true)
  /\ NoDup (keys (platforms (SearchService.searchAll reg clk q m)))
  /\ (NoDup (keys reg) ->
      keys (platforms (SearchService.searchAll reg clk q m))
      = filter (fun name =>
                  ProductMatcher.has SearchService.allowedWebsites (toLowerCase name))
               (keys reg)).
Proof.
  rewrite searchAll_platforms_closed, final_keys. split; [|split].
  - intros name. rewrite filter_In, registry_keys_In. reflexivity.
  - apply NoDup_filter, searchAll_NoDup.
  - intros ND. rewrite searchAll_platforms by assumption.
    unfold keys. rewrite map_map. cbn [fst]. now rewrite map_id.
Qed.

Lemma final_counts (q : jsstring) (m : jsint) (entries : obj platformData) :
  let final := map (fun kv => (fst kv, sortedData (snd kv)))
                   (flat_map (filteredEntry q m) entries) in
  list_sum (map (keptCount q m) entries)
  = list_sum (map (fun kv => count (snd kv)) final)
  /\ list_sum (map (keptCount q m) entries)
     = length (flat_map (fun kv => results (snd kv)) final).
Proof.
  induction entries as [|[k d] r IH]; [split; reflexivity|].
  cbn zeta in *. destruct IH as (IH1 & IH2).
  cbn [flat_map map]. unfold filteredEntry at 1 3, keptCount at 1 3.
  cbn [fst snd]. destruct (allowed k).
  - cbn [app map flat_map snd sortedData filteredData count results].
    rewrite length_app, sortBy_length.
    unfold list_sum in *. cbn [fold_right]. split; congruence.
  - cbn [app]. unfold list_sum in *. cbn [fold_right Nat.add]. split; assumption.
Qed.

(** X6.  The totals of the final result are recomputed from what was
    retained: [totalResults] is the sum of the [count]s, the number of
    products in the entries, and the length of [sortedAllProducts], which
    holds exactly the retained products. *)
Theorem searchAll_totals_recomputed
        (reg : registry) (clk : clock) (q : jsstring) (m : jsint) :
  let final := SearchService.searchAll reg clk q m in
  let retained := flat_map (fun kv => results (snd kv)) (platforms final) in
  totalResults final = list_sum (map (fun kv => count (snd kv)) (platforms final))
  /\ totalResults final = length retained
  /\ exists sorted, sortedAllProducts final = Some sorted
                    /\ Permutation retained sorted
                    /\ length sorted = totalResults final.
Proof.
  intros final retained.
  assert (T : totalResults final
              = list_sum (map (keptCount q m) (platforms (searchAll reg clk q m)))).
  { unfold final, SearchService.searchAll, SearchService.applySorting.
    cbn [totalResults].
    now destruct (applyRelevanceFilter_closed (searchAll reg clk q m) q m
                    (searchAll_NoDup reg clk q m)) as (_ & -> & _). }
  pose proof (final_counts q m (platforms (searchAll reg clk q m))) as (C1 & C2).
  assert (L : totalResults final = length retained).
  { unfold retained, final in *. rewrite searchAll_platforms_closed. congruence. }
  split; [|split; [exact L|]].
  - unfold final in *. rewrite searchAll_platforms_closed. congruence.
  - exists (sortBy SearchService.compareProducts retained). split; [reflexivity|].
    split; [apply sortBy_perm|]. now rewrite sortBy_length.
Qed.

(** X7.  Filtering and sorting leave the status of a source alone: every
    final entry has the [success], [error], [checked] and [durationMs] of
    the registry's entry of the same source; it holds only products that
    source returned; [rejectedCount] is what was returned less what was
    kept; and a failed source ([success = false]) holds no product, which
    tells it from a source that answered but had nothing relevant. *)
Theorem searchAll_keeps_source_status
        (reg : registry) (clk : clock) (q : jsstring) (m : jsint) :
  Forall
    (fun kv =>
       exists raw,
         In (fst kv, raw) (platforms (searchAll reg clk q m))
         /\ success (snd kv) = success raw
         /\ error (snd kv) = error raw
         /\ checked (snd kv) = true
         /\ durationMs (snd kv) = durationMs raw
         /\ (forall p, In p (results (snd kv)) -> In p (results raw))
         /\ rejectedCount (snd kv)
            = Some (length (results raw) - count (snd kv))
         /\ (success (snd kv) = true <-> error (snd kv) = None)
         /\ (success (snd kv) = false ->
             results (snd kv) = [] /\ count (snd kv) = 0))
    (platforms (SearchService.searchAll reg clk q m)).
Proof.
  apply Forall_forall. intros kv H.
  rewrite searchAll_platforms_closed in H.
  apply in_map_iff in H as ([k d] & <- & H).
  apply in_flat_map in H as ([k0 raw] & H0 & H).
  unfold filteredEntry in H. cbn [fst snd] in H.
  destruct (allowed k0); [|contradiction]. destruct H as [[= <- <-]|[]].
  exists raw. cbn [fst snd sortedData filteredData success error checked
                   durationMs results rejectedCount count].
  assert (S : count raw = length (results raw) /\ checked raw = true
              /\ rejectedCount raw = None
              /\ (success raw = true <-> error raw = None)
              /\ (success raw = false -> results raw = [])).
  { unfold searchAll in H0.
    assert (E : exists name, raw = entryOf reg q (internalLimit m) name).
    { assert (G : forall (names : list jsstring) (o : obj platformData),
                 In (k0, raw)
                    (fold_left (fun o name =>
                                  JsObject.set o name (entryOf reg q (internalLimit m) name))
                               names o) ->
                 In (k0, raw) o
                 \/ exists name, raw = entryOf reg q (internalLimit m) name).
      { induction names as [|n names IH]; intros o Hin; [now left|].
        cbn [fold_left] in Hin. apply IH in Hin as [Hin|Hin]; [|now right].
        clear IH. induction o as [|[k1 v1] r IHo].
        - cbn in Hin. destruct Hin as [[= _ <-]|[]]. right. now exists n.
        - cbn in Hin. destruct (JsString.eqb k1 n).
          + destruct Hin as [[= _ <-]|Hin]; [right; now exists n | left; now right].
          + destruct Hin as [Hin|Hin]; [left; now left|].
            destruct (IHo Hin) as [?|?]; [left; now right | now right]. }
      rewrite collect_platforms in H0. apply G in H0 as [[]|H0]. exact H0. }
    destruct E as (name & ->). apply entryOf_shape. }
  destruct S as (S1 & S2 & S3 & S4 & S5).
  split; [exact H0|]. split; [reflexivity|]. split; [reflexivity|].
  split; [exact S2|]. split; [reflexivity|].
  split. { intros p Hp. apply sortBy_In, retain_In in Hp. exact Hp. }
  split; [reflexivity|]. split; [exact S4|].
  intros H. rewrite (S5 H). split; reflexivity.
Qed.

End ResultShape.

(* ================================================================== *)
(** * Sorted output *)
(* ================================================================== *)

Module SortedFacts.
Import NumFacts StepFacts.

(** [sortBy] sorts: when the comparator decides an order [R] on the
    members of the array, the result is in that order. *)
Section SortedBy.
Variable A : Type.
Variable cmp : A -> A -> jsnum.
Variable P : A -> Prop.
Variable R : A -> A -> Prop.
Hypothesis after : forall x y, P x -> P y -> gt (cmp x y) zero = true -> R y x.
Hypothesis before : forall x y, P x -> P y -> gt (cmp x y) zero = false -> R x y.
Hypothesis trans : forall x y z, R x y -> R y z -> R x z.

Lemma insertSorted_In (x y : A) (l : list A) :
  In y (insertSorted cmp x l) -> y = x \/ In y l.
Proof.
  intros H. apply (Permutation_in _ (Permutation_sym (insertSorted_perm cmp x l))) in H.
  destruct H as [<-|H]; auto.
Qed.

Lemma insertSorted_sorted (x : A) (l : list A) :
  P x -> Forall P l -> StronglySorted R l ->
  StronglySorted R (insertSorted cmp x l).
Proof.
  intros Px. induction l as [|y r IH]; intros Pl S.
  - cbn. constructor; constructor.
  - inversion Pl as [|? ? Py Pr]; subst. inversion S as [|? ? Sr Fr]; subst.
    cbn [insertSorted]. destruct (gt (cmp x y) zero) eqn:G.
    + constructor; [now apply IH|].
      apply Forall_forall. intros z Hz. apply insertSorted_In in Hz as [->|Hz].
      * now apply after.
      * rewrite Forall_forall in Fr. now apply Fr.
    + constructor; [assumption|].
      assert (Rxy : R x y) by now apply before.
      constructor; [assumption|].
      apply Forall_forall. intros z Hz. rewrite Forall_forall in Fr.
      apply trans with y; auto.
Qed.

Lemma sortBy_sorted (l : list A) :
  Forall P l -> StronglySorted R (sortBy cmp l).
Proof.
  induction l as [|x r IH]; intros F; [constructor|].
  inversion F as [|? ? Px Pr]; subst.
  change (sortBy cmp (x :: r)) with (insertSorted cmp x (sortBy cmp r)).
  apply insertSorted_sorted; [assumption| |now apply IH].
  apply Forall_forall. intros y Hy. apply sortBy_In in Hy.
  rewrite Forall_forall in Pr. now apply Pr.
Qed.
End SortedBy.

(** Numbers that are [===] are below each other. *)
Lemma eqb_le (a b : jsnum) : JsNum.eqb a b = true -> le a b = true.
Proof.
  destruct a as [| | |x], b as [| | |y]; cbn; try discriminate; try reflexivity.
  intros E. qsolve.
Qed.

Lemma eqb_ge (a b : jsnum) : JsNum.eqb a b = true -> le b a = true.
Proof.
  destruct a as [| | |x], b as [| | |y]; cbn; try discriminate; try reflexivity.
  intros E. qsolve.
Qed.

(** [a] comes no later than [b] by price. *)
Definition priceNoHigher (a b : product) : Prop :=
  le (priceNumber (price a)) (priceNumber (price b)) = true.

Lemma compareProducts_after (a b : product) :
  validPrice a -> validPrice b ->
  gt (SearchService.compareProducts a b) zero = true -> priceNoHigher b a.
Proof.
  intros (na & Ea & Aa) (nb & Eb & Ab). unfold SearchService.compareProducts, priceNoHigher.
  rewrite Ea, Eb. cbn [priceNumber].
  destruct (JsNum.eqb na nb) eqn:E; cbn [negb].
  - intros _. now apply eqb_ge.
  - now apply sub_positive.
Qed.

Lemma compareProducts_before (a b : product) :
  validPrice a -> validPrice b ->
  gt (SearchService.compareProducts a b) zero = false -> priceNoHigher a b.
Proof.
  intros (na & Ea & Aa) (nb & Eb & Ab). unfold SearchService.compareProducts, priceNoHigher.
  rewrite Ea, Eb. cbn [priceNumber].
  destruct (JsNum.eqb na nb) eqn:E; cbn [negb].
  - intros _. now apply eqb_le.
  - now apply sub_not_positive.
Qed.

Lemma priceNoHigher_trans (a b c : product) :
  priceNoHigher a b -> priceNoHigher b c -> priceNoHigher a c.
Proof. unfold priceNoHigher. apply le_trans. Qed.

Lemma sortBy_by_price (l : list product) :
  Forall validPrice l ->
  StronglySorted priceNoHigher (sortBy SearchService.compareProducts l).
Proof.
  apply (@sortBy_sorted product SearchService.compareProducts validPrice priceNoHigher
           compareProducts_after compareProducts_before priceNoHigher_trans).
Qed.

End SortedFacts.

Module PriceOrder.
Import ScraperRegistry StepFacts RegistryFacts FilterFacts PipelineFacts SortedFacts.

(** X8.  The result of the search service is sorted by price: within
    each platform entry no product is dearer than one listed after it, and
    the same holds of [sortedAllProducts], the list across all platforms. *)
Theorem searchAll_sorted_by_price
        (reg : registry) (clk : clock) (q : jsstring) (m : jsint) :
  let final := SearchService.searchAll reg clk q m in
  Forall (fun kv =>
            StronglySorted
              (fun a b => le (priceNumber (price a)) (priceNumber (price b)) = true)
              (results (snd kv)))
         (platforms final)
  /\ exists sorted,
      sortedAllProducts final = Some sorted
      /\ StronglySorted
           (fun a b => le (priceNumber (price a)) (priceNumber (price b)) = true)
           sorted.
Proof.
  intros final. split.
  - apply Forall_forall. intros kv H.
    apply final_entry_origin in H as (raw & _ & _ & ->).
    apply sortBy_by_price, retain_valid.
  - eexists. split; [reflexivity|].
    apply sortBy_by_price. apply Forall_forall. intros p Hp.
    apply in_flat_map in Hp as ([k d] & Hk & Hp). cbn [snd] in Hp.
    apply in_map_iff in Hk as ([k' d'] & [= <- <-] & Hk).
    cbn [snd results] in Hp. apply sortBy_In in Hp.
    assert (Hfinal : In (k', d') (platforms (SearchService.applyRelevanceFilter
                                              (searchAll reg clk q m) q m))) by exact Hk.
    destruct (applyRelevanceFilter_closed (searchAll reg clk q m) q m
                (searchAll_NoDup reg clk q m)) as (E & _).
    rewrite E in Hfinal. apply in_flat_map in Hfinal as ([k0 raw] & _ & Hf).
    unfold filteredEntry in Hf. cbn [fst snd] in Hf.
    destruct (allowed k0); [|contradiction]. destruct Hf as [[= <- <-]|[]].
    cbn [results filteredData] in Hp.
    pose proof (retain_valid q m (results raw)) as F.
    rewrite Forall_forall in F. now apply F.
Qed.

End PriceOrder.

(* ================================================================== *)
(** * services/searchService.js: what a relevance score tells *)
(* ================================================================== *)

Module ScoreFacts.
Import ProductMatcher SearchService NumFacts.

(** Case analysis on the next test of a chain of early returns. *)
Ltac next_rule :=
  match goal with
  | |- context [if ?c then minusOne else _] => destruct c eqn:?
  end.

Lemma overlap_positive (matched size : nat) :
  Qle_bool (if size <=? 3 then (1 # 2)%Q else (2 # 5)%Q)
           (Z.of_nat matched # Pos.of_nat size) = true ->
  1 <= matched.
Proof.
  intros H. apply Qle_bool_iff in H. unfold Qle in H.
  destruct (size <=? 3); cbn [Qnum Qden] in H; destruct matched; try lia.
Qed.

(** X9.  A relevance score is either exactly -1 (rejected) or a rational
    number that is at least 1 (accepted): it is never 0, NaN or an
    infinity, so the test [score <= 0] of the filter separates exactly
    these two cases. *)
Theorem scoreRelevance_rejects_or_accepts (searchQuery title : jsstring) :
  (scoreRelevance searchQuery title = ofZ (-1)
   /\ le (scoreRelevance searchQuery title) zero = true)
  \/ (exists s, scoreRelevance searchQuery title = Fin s
                /\ (1 <= s)%Q
                /\ le (scoreRelevance searchQuery title) zero = false).
Proof.
  unfold scoreRelevance.
  repeat (next_rule; [left; split; reflexivity|]).
  right. eexists. split; [reflexivity|].
  match goal with
  | H : negb (Qle_bool _ _) = false |- _ =>
      apply negb_false_iff in H; pose proof (overlap_positive _ _ H) as M;
      apply Qle_bool_iff in H
  end.
  set (matched := length (filter _ (setOf (tokenize (normalizeText searchQuery))))) in *.
  set (size := length (setOf (tokenize (normalizeText searchQuery)))) in *.
  set (ratio := (Z.of_nat matched # Pos.of_nat size)%Q) in *.
  set (colorsHit := length (filter _ (filter isColor _))).
  assert (Hm : (1 <= inject_Z (Z.of_nat matched))%Q).
  { unfold Qle, inject_Z. cbn. lia. }
  assert (Hr : (0 <= ratio)%Q).
  { unfold ratio, Qle. cbn. lia. }
  assert (Hc : (0 <= inject_Z (Z.of_nat colorsHit))%Q).
  { unfold Qle, inject_Z. cbn. lia. }
  assert (S : (1 <= Qred
                 (let score0 := inject_Z (Z.of_nat matched) in
                  let score1 :=
                    if includes (normalizeText title) (normalizeText searchQuery)
                    then score0 + 5 else score0 in
                  let score2 :=
                    if 0 <? length (filter isColor (tokenize (normalizeText searchQuery)))
                    then score1 + inject_Z (Z.of_nat colorsHit) * (3 # 2)
                    else score1 in
                  let score3 := score2 + ratio * 3 in
                  let score4 :=
                    if 0 <? length (filter (has knownBrands)
                                           (tokenize (normalizeText searchQuery)))
                    then score3 + 2 else score3 in
                  if 0 <? length (filter hasDigit (tokenize (normalizeText searchQuery)))
                  then score4 + 2 else score4))%Q).
  { rewrite Qred_correct. cbv zeta.
    generalize dependent (inject_Z (Z.of_nat matched)).
    generalize dependent (inject_Z (Z.of_nat colorsHit)).
    intros c Hc s0 Hs0.
    destruct (includes _ _), (0 <? length (filter isColor _)),
      (0 <? length (filter (has knownBrands) _)),
      (0 <? length (filter hasDigit _)).
    all: lra. }
  split; [exact S|].
  cbn [le zero ofZ]. apply not_true_is_false. intros L.
  apply Qle_bool_iff in L. unfold inject_Z in L. cbv zeta in S, L.
  apply (Qle_trans _ _ _ S) in L. unfold Qle in L. cbn in L. lia.
Qed.

(** X10.  For a query that names a known brand or an electronics
    keyword, a title whose normalized text contains an accessory keyword
    or an apparel keyword is always rejected, however well the rest of it
    matches. *)
Theorem scoreRelevance_rejects_accessories (searchQuery title : jsstring) :
  existsb (fun t => has electronicsKeywords t || has knownBrands t)
          (tokenize (normalizeText searchQuery)) = true ->
  existsb (includes (normalizeText title)) accessoryKeywords = true
  \/ existsb (includes (normalizeText title)) apparelKeywords = true ->
  scoreRelevance searchQuery title = ofZ (-1).
Proof.
  intros He Hk. unfold scoreRelevance.
  repeat (next_rule; [reflexivity|]).
  exfalso. rewrite He in *. cbn [andb] in *.
  destruct Hk as [Hk|Hk]; rewrite Hk in *; discriminate.
Qed.

Lemma scoreRelevance_rejects_accessories_witness :
  scoreRelevance (js "iPhone 15") (js "iPhone 15 Pro Max Silicone Case") = ofZ (-1)
  /\ scoreRelevance (js "samsung galaxy") (js "Samsung Galaxy Printed Cotton Shirt")
     = ofZ (-1).
Proof.
  split; apply scoreRelevance_rejects_accessories;
    solve [ vm_compute; reflexivity
          | left; vm_compute; reflexivity
          | right; vm_compute; reflexivity ].
Defined.

Lemma rejected_not_positive (P : Prop) : gt minusOne zero = true -> P.
Proof. intros H. vm_compute in H. discriminate. Qed.

Lemma empty_when_not_positive (A : Type) (l : list A) :
  (0 <? length l) = false -> l = [].
Proof. destruct l; [reflexivity | discriminate]. Qed.

(** X11.  An accepted title (score above 0) contains every model number
    of the query: each query token with a digit in it occurs in the
    normalized title; and every brand token of the query is a token of the
    title or occurs in its normalized text. *)
Theorem scoreRelevance_accepted_has_model_and_brand
        (searchQuery title : jsstring) :
  gt (scoreRelevance searchQuery title) zero = true ->
  (forall t, In t (tokenize (normalizeText searchQuery)) ->
             hasDigit t = true -> includes (normalizeText title) t = true)
  /\ (forall t, In t (tokenize (normalizeText searchQuery)) ->
                has knownBrands t = true ->
                has (setOf (tokenize (normalizeText title))) t
                || includes (normalizeText title) t = true).
Proof.
  unfold scoreRelevance.
  repeat (next_rule; [apply rejected_not_positive|]).
  intros _.
  repeat match goal with
         | H : _ && negb _ = false |- _ => apply andb_false_iff in H
         end.
  split; intros t It Ht.
  - match goal with
    | H : (0 <? length (filter hasDigit _)) = false \/ negb (forallb _ _) = false |- _ =>
        destruct H as [HH|HH]
    end.
    + apply empty_when_not_positive in HH.
      assert (I : In t (filter hasDigit (tokenize (normalizeText searchQuery))))
        by (apply filter_In; auto).
      rewrite HH in I. destruct I.
    + apply negb_false_iff in HH. rewrite forallb_forall in HH. apply HH.
      apply filter_In; auto.
  - match goal with
    | H : (0 <? length (filter (has knownBrands) _)) = false
          \/ negb (forallb _ _) = false |- _ =>
        destruct H as [HH|HH]
    end.
    + apply empty_when_not_positive in HH.
      assert (I : In t (filter (has knownBrands) (tokenize (normalizeText searchQuery))))
        by (apply filter_In; auto).
      rewrite HH in I. destruct I.
    + apply negb_false_iff in HH. rewrite forallb_forall in HH. apply HH.
      apply filter_In; auto.
Qed.

Lemma scoreRelevance_accepted_has_model_and_brand_witness :
  includes (normalizeText (js "Apple iPhone 15 (128GB) Black")) (js "15") = true.
Proof.
  refine (proj1 (@scoreRelevance_accepted_has_model_and_brand
                   (js "iPhone 15") (js "Apple iPhone 15 (128GB) Black") _)
                (js "15") _ _); vm_compute; auto.
Defined.

End ScoreFacts.

(* ================================================================== *)
(** * services/searchService.js: filtering and ranking *)
(* ================================================================== *)

Module RankFacts.
Import ProductMatcher SearchService NumFacts StepFacts SortedFacts ScoreFacts.

Lemma scoreRelevance_finite (searchQuery title : jsstring) :
  exists s, scoreRelevance searchQuery title = Fin s.
Proof.
  unfold scoreRelevance.
  repeat (next_rule; [eexists; reflexivity|]).
  eexists. reflexivity.
Qed.

(** The score the filter gives a product. *)
Definition scoreOf (searchQuery : jsstring) (p : product) : jsnum :=
  scoreRelevance searchQuery (orStr (title p) (product_name p)).

(** The comparator [(a, b) => b.score - a.score] on finite scores. *)
Lemma byScore_after (x y : Q) :
  gt (sub (Fin y) (Fin x)) zero = true -> le (Fin x) (Fin y) = true.
Proof. cbn -[Qred Qminus]. intros H. qsolve. Qed.

Lemma byScore_before (x y : Q) :
  gt (sub (Fin y) (Fin x)) zero = false -> le (Fin y) (Fin x) = true.
Proof. cbn -[Qred Qminus]. intros H. qsolve. Qed.

Lemma firstn_sorted (A : Type) (R : A -> A -> Prop) (n : nat) (l : list A) :
  StronglySorted R l -> StronglySorted R (firstn n l).
Proof.
  revert l. induction n as [|n IH]; intros l S; [constructor|].
  destruct l as [|x r]; [constructor|].
  inversion S as [|? ? Sr Fr]; subst. cbn [firstn].
  constructor; [now apply IH|].
  apply Forall_forall. intros y Hy. apply firstn_member in Hy.
  rewrite Forall_forall in Fr. now apply Fr.
Qed.

Lemma slice0_sorted (A : Type) (R : A -> A -> Prop) (l : list A) (bound : jsint) :
  StronglySorted R l -> StronglySorted R (slice0 l bound).
Proof.
  intros S. destruct bound as [e|]; cbn; [|constructor].
  destruct (e <? 0)%Z; now apply firstn_sorted.
Qed.

(** The scored items that pass the filter, in rank order. *)
Definition ranked (products : list product) (searchQuery : jsstring)
  : list (product * jsnum) :=
  sortBy (fun a b => sub (snd b) (snd a))
         (filter (fun item => negb (le (snd item) zero))
                 (map (fun p => (p, scoreOf searchQuery p)) products)).

Lemma ranked_item (products : list product) (q : jsstring)
      (item : product * jsnum) :
  In item (ranked products q) ->
  In (fst item) products /\ snd item = scoreOf q (fst item)
  /\ le (snd item) zero = false.
Proof.
  unfold ranked. intros H. apply sortBy_In, filter_In in H as (H & L).
  apply in_map_iff in H as (p & <- & H). cbn [fst snd] in *.
  repeat split; [assumption|]. now apply negb_true_iff.
Qed.

Lemma ranked_sorted (products : list product) (q : jsstring) :
  StronglySorted (fun a b => le (snd b) (snd a) = true) (ranked products q).
Proof.
  unfold ranked.
  apply (@sortBy_sorted (product * jsnum) (fun a b => sub (snd b) (snd a))
           (fun item => exists s, snd item = Fin s)
           (fun a b => le (snd b) (snd a) = true)).
  - intros x y (sx & Ex) (sy & Ey). rewrite Ex, Ey. apply byScore_after.
  - intros x y (sx & Ex) (sy & Ey). rewrite Ex, Ey. apply byScore_before.
  - intros x y z H1 H2. now apply le_trans with (snd y).
  - apply Forall_forall. intros item H. apply filter_In in H as (H & _).
    apply in_map_iff in H as (p & <- & _). cbn [snd]. apply scoreRelevance_finite.
Qed.

Lemma filterAndRankProducts_ranked (products : list product) (q : jsstring)
      (m : jsint) :
  filterAndRankProducts products q m = map fst (slice0 (ranked products q) m).
Proof.
  unfold filterAndRankProducts, ranked, scoreOf.
  destruct products as [|p r]; [|reflexivity].
  unfold sortBy. cbn [map filter fold_right slice0].
  destruct m as [e|]; [|reflexivity].
  unfold slice0. destruct (e <? 0)%Z; now rewrite firstn_nil.
Qed.

Lemma map_fst_sorted (q : jsstring) (items : list (product * jsnum)) :
  Forall (fun item => snd item = scoreOf q (fst item)) items ->
  StronglySorted (fun a b => le (snd b) (snd a) = true) items ->
  StronglySorted (fun a b => le (scoreOf q b) (scoreOf q a) = true) (map fst items).
Proof.
  induction items as [|x r IH]; intros F S; [constructor|].
  inversion F as [|? ? Fx Fr]; subst. inversion S as [|? ? Sr Sx]; subst.
  cbn [map]. constructor; [now apply IH|].
  apply Forall_forall. intros b Hb. apply in_map_iff in Hb as (y & <- & Hy).
  rewrite Forall_forall in Fr, Sx. rewrite <- Fx, <- (Fr y Hy). now apply Sx.
Qed.

Lemma positive_when_not_rejected (q : jsstring) (p : product) :
  negb (le (scoreOf q p) zero) = gt (scoreOf q p) zero.
Proof.
  unfold scoreOf.
  destruct (scoreRelevance_finite q (orStr (title p) (product_name p))) as (s & ->).
  reflexivity.
Qed.

(** X12.  [filterAndRankProducts] returns only products it was given
    whose score is above 0, best score first; never more than it was
    given, nor more than a limit that is not negative; nothing at all for
    a limit that is NaN; and for a negative limit -k it drops the k
    lowest-ranked of the accepted products ([slice(0, -k)]). *)
Theorem filterAndRankProducts_best_first (products : list product)
        (searchQuery : jsstring) (maxResults : jsint) :
  let out := filterAndRankProducts products searchQuery maxResults in
  let accepted :=
    filter (fun p => gt (scoreOf searchQuery p) zero) products in
  Forall (fun p => In p products /\ gt (scoreOf searchQuery p) zero = true) out
  /\ StronglySorted
       (fun a b => le (scoreOf searchQuery b) (scoreOf searchQuery a) = true) out
  /\ length out <= length accepted <= length products
  /\ (forall limit, maxResults = Some limit -> (0 <= limit)%Z ->
                    length out = Nat.min (Z.to_nat limit) (length accepted))
  /\ (forall limit, maxResults = Some limit -> (limit < 0)%Z ->
                    length out = length accepted - Z.to_nat (- limit))
  /\ (maxResults = None -> out = []).
Proof.
  intros out accepted. unfold out. rewrite filterAndRankProducts_ranked.
  assert (La : length (ranked products searchQuery) = length accepted).
  { unfold ranked, accepted. rewrite sortBy_length.
    induction products as [|p r IH]; [reflexivity|].
    cbn [map filter snd]. rewrite <- (positive_when_not_rejected searchQuery p).
    destruct (negb (le (scoreOf searchQuery p) zero)); cbn [length]; now rewrite IH. }
  split; [|split; [|split; [|split; [|split]]]].
  - apply Forall_forall. intros p H. apply in_map_iff in H as (item & <- & H).
    apply slice0_In, ranked_item in H as (H1 & H2 & H3). split; [assumption|].
    rewrite <- positive_when_not_rejected, <- H2, H3. reflexivity.
  - apply map_fst_sorted.
    + apply Forall_forall. intros item H. now apply slice0_In, ranked_item in H.
    + apply slice0_sorted, ranked_sorted.
  - rewrite length_map. split.
    + rewrite <- La. apply slice0_length.
    + unfold accepted. apply filter_length_le.
  - intros limit -> L. rewrite length_map. cbn [slice0].
    replace (limit <? 0)%Z with false by (symmetry; apply Z.ltb_ge; lia).
    now rewrite length_firstn, La.
  - intros limit -> L. rewrite length_map. cbn [slice0].
    replace (limit <? 0)%Z with true by (symmetry; apply Z.ltb_lt; lia).
    rewrite length_firstn, La. lia.
  - intros ->. reflexivity.
Qed.

End RankFacts.

(* ================================================================== *)
(** * utils/productMatcher.js: the matching relation *)
(* ================================================================== *)

Module MatchFacts.
Import ProductMatcher NumFacts StepFacts.

Lemma str_eqb_comm (a b : jsstring) : JsString.eqb a b = JsString.eqb b a.
Proof.
  destruct (JsString.eqb a b) eqn:E.
  - apply str_eqb_eq in E. subst. symmetry. apply str_eqb_refl.
  - symmetry. apply str_eqb_neq. apply str_eqb_neq in E. congruence.
Qed.

Lemma has_In (set : list jsstring) (x : jsstring) : has set x = true <-> In x set.
Proof.
  unfold has. rewrite existsb_exists. split.
  - intros (y & Hy & E). apply str_eqb_eq in E. now subst.
  - intros H. exists x. split; [assumption | apply str_eqb_refl].
Qed.

Lemma setOf_In (l : list jsstring) (x : jsstring) : In x (setOf l) <-> In x l.
Proof.
  induction l as [|y r IH]; [reflexivity|].
  cbn [setOf In]. rewrite filter_In, IH, negb_true_iff, str_eqb_neq.
  destruct (list_eq_dec N.eq_dec y x) as [->|N]; [tauto|].
  split; [tauto|]. intros [H|H]; [tauto|]. right. split; congruence.
Qed.

Lemma setOf_NoDup (l : list jsstring) : NoDup (setOf l).
Proof.
  induction l as [|y r IH]; [constructor|].
  cbn [setOf]. constructor; [|now apply NoDup_filter].
  rewrite filter_In, negb_true_iff. intros (_ & E).
  now rewrite str_eqb_refl in E.
Qed.

(** The two ways of counting the common words agree. *)
Lemma common_words_comm (a b : list jsstring) :
  NoDup a -> NoDup b ->
  length (filter (has b) a) = length (filter (has a) b).
Proof.
  intros Na Nb. apply Permutation_length. apply NoDup_Permutation.
  - now apply NoDup_filter.
  - now apply NoDup_filter.
  - intros x. rewrite !filter_In, !has_In. tauto.
Qed.

Lemma similarity_comm (title1 title2 : jsstring) :
  calculateTitleSimilarity title1 title2 = calculateTitleSimilarity title2 title1.
Proof.
  unfold calculateTitleSimilarity.
  rewrite (str_eqb_comm (normalizeTitle title1)).
  destruct (JsString.eqb (normalizeTitle title2) (normalizeTitle title1));
    [reflexivity|].
  rewrite orb_comm.
  destruct ((length (setOf _) =? 0) || (length (setOf _) =? 0)); [reflexivity|].
  rewrite common_words_comm by apply setOf_NoDup.
  now rewrite Nat.max_comm.
Qed.

Lemma bothAndDiffer_comm (a b : option jsstring) :
  bothAndDiffer a b = bothAndDiffer b a.
Proof.
  destruct a as [[|x a]|], b as [[|y b]|]; try reflexivity.
  cbn [bothAndDiffer]. now rewrite str_eqb_comm.
Qed.

Lemma bothAndDiffer_same (a : option jsstring) : bothAndDiffer a a = false.
Proof.
  destruct a as [[|x a]|]; try reflexivity.
  cbn [bothAndDiffer]. now rewrite str_eqb_refl.
Qed.

(** The title [doProductsMatch] reads off a product. *)
Definition shownTitle (p : product) : jsstring :=
  orStr (title p) (product_name p).

Lemma doProductsMatch_same_title (p1 p2 : product) :
  shownTitle p1 = shownTitle p2 -> doProductsMatch p1 p2 = true.
Proof.
  unfold shownTitle, doProductsMatch. intros ->.
  unfold calculateTitleSimilarity. rewrite str_eqb_refl.
  now rewrite !bothAndDiffer_same.
Qed.

(** X13.  The matching relation of the deduplication is symmetric, and
    two products that show the same title always match (so a product
    matches itself); together with the three listings of
    [matching_is_not_transitive] this makes it a relation that is
    reflexive and symmetric but not transitive. *)
Theorem doProductsMatch_symmetric_reflexive (p1 p2 : product) :
  doProductsMatch p1 p2 = doProductsMatch p2 p1
  /\ doProductsMatch p1 p1 = true
  /\ (orStr (title p1) (product_name p1) = orStr (title p2) (product_name p2) ->
      doProductsMatch p1 p2 = true).
Proof.
  split; [|split].
  - unfold doProductsMatch.
    rewrite (similarity_comm (orStr (title p1) (product_name p1))).
    now rewrite !(bothAndDiffer_comm (_ (orStr (title p1) (product_name p1)))).
  - now apply doProductsMatch_same_title.
  - apply doProductsMatch_same_title.
Qed.

Lemma filter_length_bound (A : Type) (f : A -> bool) (l : list A) :
  length (filter f l) <= length l.
Proof. apply filter_length_le. Qed.

Lemma percentage_bounds (k n : nat) :
  1 <= n -> k <= n -> (0 <= (Z.of_nat k # Pos.of_nat n) * 100 <= 100)%Q.
Proof.
  intros Hn Hk.
  assert (P : Z.pos (Pos.of_nat n) = Z.of_nat n).
  { rewrite <- positive_nat_Z, Nat2Pos.id by lia. reflexivity. }
  unfold Qle, Qmult. cbn [Qnum Qden]. rewrite Pos.mul_1_r, P. lia.
Qed.

(** X14.  The title similarity is a percentage between 0 and 100 that
    does not depend on the order of the two titles; it is 100 when the
    normalized titles are equal, and 0 when they differ and one of them
    has no word longer than two characters. *)
Theorem calculateTitleSimilarity_percentage (title1 title2 : jsstring) :
  (0 <= calculateTitleSimilarity title1 title2 <= 100)%Q
  /\ calculateTitleSimilarity title1 title2 = calculateTitleSimilarity title2 title1
  /\ (normalizeTitle title1 = normalizeTitle title2 ->
      calculateTitleSimilarity title1 title2 = 100%Q)
  /\ (normalizeTitle title1 <> normalizeTitle title2 ->
      filter (fun w => 2 <? length w) (split_space (normalizeTitle title1)) = [] ->
      calculateTitleSimilarity title1 title2 = 0%Q).
Proof.
  split; [|split; [apply similarity_comm|split]].
  - unfold calculateTitleSimilarity.
    destruct (JsString.eqb _ _); [split; discriminate|].
    destruct ((length (setOf _) =? 0) || (length (setOf _) =? 0)) eqn:E;
      [split; discriminate|].
    apply orb_false_iff in E as (E1 & E2).
    apply Nat.eqb_neq in E1, E2.
    apply percentage_bounds; [lia|].
    etransitivity; [apply filter_length_bound | apply Nat.le_max_l].
  - intros E. unfold calculateTitleSimilarity. now rewrite E, str_eqb_refl.
  - intros N E. unfold calculateTitleSimilarity.
    apply str_eqb_neq in N. now rewrite N, E.
Qed.

End MatchFacts.

(* ================================================================== *)
(** * utils/productMatcher.js: what deduplication keeps *)
(* ================================================================== *)

Module DedupKeeps.
Import ProductMatcher NumFacts StepFacts MatchFacts DedupFacts.

Lemma setAt_length (i : nat) (x : product) (arr : list product) :
  length (setAt i x arr) = length arr.
Proof.
  revert i. induction arr as [|y r IH]; intros [|k]; cbn; auto.
Qed.

Lemma dedupStep_length (st : list product * list product) (p : product) :
  length (snd st) <= length (snd (dedupStep st p)) <= S (length (snd st)).
Proof.
  destruct st as [seen dd]. cbn [dedupStep].
  destruct (firstMatch p seen 0) as [i|].
  - destruct (nth_error seen i) as [s|]; [|cbn; lia].
    destruct (cheaper p s); cbn [snd]; [rewrite setAt_length|]; lia.
  - cbn [snd]. rewrite length_app. cbn. lia.
Qed.

Lemma dedupFold_length (l : list product) (st : list product * list product) :
  length (snd st) <= length (snd (fold_left dedupStep l st))
  <= length (snd st) + length l.
Proof.
  revert st. induction l as [|p r IH]; intros st; [cbn; lia|].
  cbn [fold_left length]. pose proof (IH (dedupStep st p)) as H.
  pose proof (dedupStep_length st p). lia.
Qed.

(** The two arrays of the loop hold the same products at every turn. *)
Lemma dedupFold_same_arrays (l : list product) (st : list product * list product) :
  fst st = snd st ->
  fst (fold_left dedupStep l st) = snd (fold_left dedupStep l st).
Proof.
  revert st. induction l as [|p r IH]; intros st E; [exact E|].
  cbn [fold_left]. apply IH. destruct st as [seen dd]. cbn in E. subst dd.
  cbn [dedupStep]. destruct (firstMatch p seen 0) as [i|]; [|reflexivity].
  destruct (nth_error seen i) as [s|]; [|reflexivity].
  now destruct (cheaper p s).
Qed.

Lemma lt_trans (a b c : jsnum) : lt a b = true -> lt b c = true -> lt a c = true.
Proof.
  destruct a as [| | |x], b as [| | |y], c as [| | |z]; cbn;
    try discriminate; try reflexivity.
  intros H1 H2. qsolve.
Qed.

(** The first slot only ever changes to a cheaper product. *)
Definition headNotDearer (first : product) (arr : list product) : Prop :=
  exists h rest,
    arr = h :: rest
    /\ (h = first
        \/ lt (priceNumber (price h)) (priceNumber (price first)) = true).

Lemma firstMatch_bound (p : product) (seen : list product) (i j : nat) :
  firstMatch p seen i = Some j -> i <= j.
Proof.
  revert i. induction seen as [|s r IH]; intros i; [discriminate|].
  cbn [firstMatch]. destruct (doProductsMatch p s).
  - intros [= <-]. lia.
  - intros H. apply IH in H. lia.
Qed.

Lemma dedupStep_head (first : product) (st : list product * list product)
      (p : product) :
  fst st = snd st -> headNotDearer first (snd st) ->
  headNotDearer first (snd (dedupStep st p)).
Proof.
  destruct st as [seen dd]. cbn [fst snd]. intros <- (h & rest & -> & Hh).
  cbn [dedupStep]. destruct (firstMatch p (h :: rest) 0) as [i|] eqn:F.
  - destruct (nth_error (h :: rest) i) as [s|] eqn:Nth;
      [|exists h, rest; auto].
    destruct (cheaper p s) eqn:C; [|exists h, rest; auto].
    cbn [snd]. destruct i as [|i].
    + cbn in Nth. injection Nth as <-. cbn [setAt]. exists p, rest.
      split; [reflexivity|]. right.
      unfold cheaper in C. apply andb_true_iff in C as (_ & C).
      destruct Hh as [->|Hh]; [exact C | now apply lt_trans with (priceNumber (price h))].
    + cbn [setAt]. eexists h, _. split; [reflexivity | exact Hh].
  - cbn [snd app]. eexists h, _. split; [reflexivity | exact Hh].
Qed.

Lemma dedupFold_head (first : product) (l : list product)
      (st : list product * list product) :
  fst st = snd st -> headNotDearer first (snd st) ->
  headNotDearer first (snd (fold_left dedupStep l st)).
Proof.
  revert st. induction l as [|p r IH]; intros st E H; [exact H|].
  cbn [fold_left]. apply IH.
  - apply (dedupFold_same_arrays [p] st E).
  - now apply dedupStep_head.
Qed.

(** X15.  Deduplication only selects: its output holds products of the
    input, never more of them, and at least one when the input is not
    empty; an input of at most one product comes back as it is; and the
    first product of the output is the first product of the input or a
    strictly cheaper one that took its place. *)
Theorem deduplicateByWebsite_selects (products : list product) :
  let out := deduplicateByWebsite products in
  Forall (fun p => In p products) out
  /\ length out <= length products
  /\ (products <> [] -> out <> [])
  /\ (length products <= 1 -> out = products)
  /\ (forall first rest,
        products = first :: rest ->
        exists h others,
          out = h :: others
          /\ (h = first
              \/ lt (priceNumber (price h)) (priceNumber (price first)) = true)).
Proof.
  intros out. unfold out, deduplicateByWebsite.
  destruct (length products <=? 1) eqn:L.
  - repeat split; auto.
    + apply Forall_forall. auto.
    + intros first rest ->. exists first, rest. auto.
  - apply Nat.leb_gt in L.
    destruct products as [|first rest]; [cbn in L; lia|].
    assert (H : headNotDearer first (snd (fold_left dedupStep (first :: rest) ([], [])))).
    { cbn [fold_left dedupStep firstMatch app].
      apply dedupFold_head; [reflexivity|]. exists first, []. auto. }
    repeat split.
    + apply Forall_forall. intros p Hp. now apply dedupFold_In in Hp as [[]|Hp].
    + pose proof (dedupFold_length (first :: rest) ([], [])) as B. cbn in *. lia.
    + intros _ E. destruct H as (h & others & E' & _). congruence.
    + intros L'. lia.
    + intros first' rest' [= <- <-]. exact H.
Qed.

(** X16.  A list in which no product matches an earlier one is left
    unchanged, and deduplicating it again changes nothing either. *)
Theorem deduplicateByWebsite_unchanged_without_duplicates
        (products : list product) :
  noneMatchesEarlier [] products ->
  deduplicateByWebsite products = products
  /\ deduplicateByWebsite (deduplicateByWebsite products)
     = deduplicateByWebsite products.
Proof.
  intros H. assert (E : deduplicateByWebsite products = products).
  { unfold deduplicateByWebsite. destruct (length products <=? 1); [reflexivity|].
    now rewrite dedupFold_fixed. }
  now rewrite !E.
Qed.

Lemma deduplicateByWebsite_unchanged_without_duplicates_witness :
  deduplicateByWebsite [bottle; flask] = [bottle; flask].
Proof.
  apply (@deduplicateByWebsite_unchanged_without_duplicates [bottle; flask]).
  cbn [noneMatchesEarlier app]. repeat split.
  - intros s [].
  - intros s [<-|[]]. vm_compute. reflexivity.
Defined.

(** All the products show the title [t] and have a valid price. *)
Definition sameListing (t : jsstring) (l : list product) : Prop :=
  Forall (fun p => orStr (title p) (product_name p) = t /\ validPrice p) l.

Lemma dedupFold_same_listing (t : jsstring) (l : list product) (m : product) :
  sameListing t (m :: l) ->
  exists m',
    fold_left dedupStep l ([m], [m]) = ([m'], [m'])
    /\ In m' (m :: l)
    /\ forall p, In p (m :: l) ->
                 le (priceNumber (price m')) (priceNumber (price p)) = true.
Proof.
  revert m. induction l as [|p r IH]; intros m S.
  - exists m. split; [reflexivity|]. split; [now left|].
    intros p [<-|[]]. inversion S as [|? ? (_ & V) _]; subst.
    apply le_refl. now apply PipelineFacts.validPrice_number.
  - inversion S as [|? ? (Tm & Vm) S']; subst.
    inversion S' as [|? ? (Tp & Vp) Sr]; subst.
    destruct (PipelineFacts.validPrice_number Vm) as (Am & Trm).
    destruct (PipelineFacts.validPrice_number Vp) as (Ap & Trp).
    cbn [fold_left dedupStep firstMatch].
    rewrite doProductsMatch_same_title by (unfold shownTitle; congruence).
    cbn [nth_error]. unfold cheaper. rewrite Trp, Trm. cbn [andb setAt].
    destruct (lt (priceNumber (price p)) (priceNumber (price m))) eqn:C.
    + destruct (IH p) as (m' & E & I & Lm).
      { constructor; [split; assumption | assumption]. }
      exists m'. split; [exact E|]. split.
      * destruct I as [<-|I]; [right; now left | right; now right].
      * intros x [<-|Hx]; [|now apply Lm].
        apply le_trans with (priceNumber (price p)); [apply Lm; now left | now apply lt_le].
    + destruct (IH m) as (m' & E & I & Lm).
      { constructor; [split; [reflexivity | assumption] | assumption]. }
      exists m'. split; [exact E|]. split.
      * destruct I as [<-|I]; [now left | right; now right].
      * intros x [<-|[<-|Hx]].
        -- apply Lm. now left.
        -- apply le_trans with (priceNumber (price m)); [apply Lm; now left|].
           apply not_lt_le; try assumption; now apply atLeast100_number.
        -- apply Lm. now right.
Qed.

(** X17.  When one listing appears several times (the same title each
    time, valid prices), deduplication keeps exactly one of them, and none
    of the others is cheaper. *)
Theorem deduplicateByWebsite_keeps_cheapest_of_same_listing
        (t : jsstring) (products : list product) :
  products <> [] ->
  Forall (fun p => orStr (title p) (product_name p) = t
                   /\ exists n, price p = PNum n /\ ge n hundred = true)
         products ->
  exists kept,
    deduplicateByWebsite products = [kept]
    /\ In kept products
    /\ forall p, In p products ->
                 le (priceNumber (price kept)) (priceNumber (price p)) = true.
Proof.
  intros NE F.
  assert (S : sameListing t products).
  { unfold sameListing. apply Forall_forall. intros p Hp.
    rewrite Forall_forall in F. destruct (F p Hp) as (Tp & n & E & G).
    split; [assumption|]. exists n. split; [assumption | now apply ge_hundred_iff]. }
  destruct products as [|m l]; [congruence|].
  destruct (dedupFold_same_listing S) as (m' & E & I & L).
  unfold deduplicateByWebsite. destruct (length (m :: l) <=? 1) eqn:Len.
  - destruct l as [|p r]; [|discriminate].
    exists m. split; [reflexivity|]. split; [now left|].
    intros p [<-|[]]. inversion S as [|? ? (_ & V) _]; subst.
    apply le_refl. now apply PipelineFacts.validPrice_number.
  - exists m'. cbn [fold_left dedupStep firstMatch app]. rewrite E.
    split; [reflexivity|]. split; assumption.
Qed.

Lemma deduplicateByWebsite_keeps_cheapest_of_same_listing_witness :
  exists kept,
    deduplicateByWebsite
      [listing "steel water bottle" 500; listing "steel water bottle" 450;
       listing "steel water bottle" 475] = [kept]
    /\ price kept = PNum (ofZ 450).
Proof.
  destruct (@deduplicateByWebsite_keeps_cheapest_of_same_listing
              (js "steel water bottle")
              [listing "steel water bottle" 500; listing "steel water bottle" 450;
               listing "steel water bottle" 475])
    as (kept & E & _ & _).
  - discriminate.
  - repeat constructor; eexists; split; try reflexivity.
  - exists kept. split; [exact E|].
    assert (E' : deduplicateByWebsite
                   [listing "steel water bottle" 500; listing "steel water bottle" 450;
                    listing "steel water bottle" 475]
                 = [listing "steel water bottle" 450]) by (vm_compute; reflexivity).
    rewrite E' in E. now injection E as <-.
Defined.

End DedupKeeps.

(* ================================================================== *)
(** * scrapers/BaseScraper.js: the cost of [makeRequest] *)
(* ================================================================== *)

Module RetryFacts.
Import TransportFacts.

(** The time spent in [this.delay], in milliseconds. *)
Definition totalDelay (t : list event) : Z :=
  fold_right (fun e acc => match e with Delay ms => (ms + acc)%Z | _ => acc end)
             0%Z t.

Definition lightOnly (e : event) : bool :=
  match e with HeavyAttempt => false | _ => true end.

Lemma totalDelay_app (a b : list event) :
  totalDelay (a ++ b) = (totalDelay a + totalDelay b)%Z.
Proof.
  induction a as [|e r IH]; [reflexivity|].
  cbn [app totalDelay fold_right]. fold (totalDelay (r ++ b)). fold (totalDelay r).
  rewrite IH. destruct e; lia.
Qed.

Lemma failed_lightOnly (n : nat) (l : list nat) :
  forallb lightOnly (flat_map (failedAttempt n) l) = true.
Proof.
  induction l as [|k r IH]; [reflexivity|].
  cbn [flat_map]. rewrite forallb_app, IH. unfold failedAttempt.
  now destruct (k <? n).
Qed.

Lemma backoff_succ (k : nat) : backoff (S k) = (1000 * 2 ^ Z.of_nat k)%Z.
Proof. unfold backoff. f_equal. f_equal. lia. Qed.

(** The waits after [k] failed attempts that are each followed by
    another one. *)
Lemma failed_delay (n k : nat) :
  k < n ->
  totalDelay (flat_map (failedAttempt n) (seq 1 k))
  = (1000 * (2 ^ Z.of_nat k - 1))%Z.
Proof.
  induction k as [|k IH]; intros H; [reflexivity|].
  rewrite seq_S, flat_map_app, totalDelay_app, IH by lia.
  cbn [Nat.add flat_map]. rewrite app_nil_r. unfold failedAttempt.
  replace (S k <? n) with true by (symmetry; apply Nat.ltb_lt; lia).
  cbn [totalDelay fold_right]. rewrite backoff_succ.
  rewrite Nat2Z.inj_succ, Z.pow_succ_r by lia. lia.
Qed.

Lemma failedLight_delay (n : nat) :
  totalDelay (failedLight n) = (1000 * (2 ^ Z.of_nat (n - 1) - 1))%Z.
Proof.
  destruct n as [|k]; [reflexivity|].
  unfold failedLight. rewrite seq_S, flat_map_app, totalDelay_app.
  rewrite failed_delay by lia.
  cbn [Nat.add flat_map]. rewrite app_nil_r. unfold failedAttempt.
  rewrite Nat.ltb_irrefl. cbn [totalDelay fold_right].
  replace (S k - 1) with k by lia. lia.
Qed.

(** Either the first [n] answers of the network are all failures, or
    there is a first one that is not. *)
Lemma first_success (axios : nat -> answer) (n : nat) :
  (forall i, i < n -> exists e, axios i = Failure e)
  \/ exists p d,
       p < n /\ axios p = Content d
       /\ forall i, i < p -> exists e, axios i = Failure e.
Proof.
  induction n as [|n [IH|(p & d & Hp & Hd & Hf)]].
  - left. intros i Hi. lia.
  - destruct (axios n) as [d|e] eqn:E.
    + right. exists n, d. auto.
    + left. intros i Hi. destruct (Nat.eq_dec i n) as [->|Hn]; [eauto|].
      apply IH. lia.
  - right. exists p, d. repeat split; auto.
Qed.

Definition messageOf (a : answer) : jsstring :=
  match a with Failure e => e | Content _ => [] end.

(** X18.  [makeRequest] by itself, whatever the network answers: it never
    uses the browser and makes at most [maxRetries] requests; the time it
    spends waiting is 1000 * (2^(r-1) - 1) ms for r requests made; it
    returns the content of the first request that succeeds, and it throws
    exactly when the first [maxRetries] requests all fail (in particular
    at once, with no request made, when [maxRetries] is 0). *)
Theorem makeRequest_outcome
        (axios : nat -> answer) (name : jsstring) (maxRetries : nat) :
  let run := makeRequest axios name maxRetries start in
  let requests := axiosCalls (snd run) in
  browserCalls (snd run) = 0
  /\ forallb lightOnly (trace (snd run)) = true
  /\ requests <= maxRetries
  /\ totalDelay (trace (snd run)) = (1000 * (2 ^ Z.of_nat (requests - 1) - 1))%Z
  /\ match fst run with
     | Ok data =>
         1 <= requests
         /\ axios (requests - 1) = Content data
         /\ forall i, i < requests - 1 -> exists e, axios i = Failure e
     | Err _ =>
         requests = maxRetries
         /\ forall i, i < maxRetries -> exists e, axios i = Failure e
     end.
Proof.
  intros run requests. unfold requests, run. clear run requests.
  set (errs := fun i => messageOf (axios i)).
  assert (F : forall k, (forall i, i < k -> exists e, axios i = Failure e) ->
                        forall i, i < k -> axios i = Failure (errs i)).
  { intros k H i Hi. destruct (H i Hi) as (e & E). unfold errs. now rewrite E. }
  destruct (first_success axios maxRetries) as [H|(p & d & Hp & Hd & Hf)].
  - rewrite (makeRequest_all_fail axios name errs (F _ H)).
    cbn [fst snd browserCalls axiosCalls trace].
    split; [reflexivity|]. split; [apply failed_lightOnly|].
    split; [lia|]. split; [apply failedLight_delay|]. split; [reflexivity | exact H].
  - unfold makeRequest.
    pose proof (@attempts_success axios name maxRetries errs p d Hp (F _ Hf) Hd
                  p None start (Nat.le_refl p)) as E.
    replace (maxRetries - p + p) with maxRetries in E by lia.
    rewrite E by (cbn; lia).
    cbn [fst snd start browserCalls axiosCalls trace app]. rewrite Nat.sub_diag.
    replace (S p - 1) with p by lia.
    split; [reflexivity|]. split.
    { rewrite forallb_app, failed_lightOnly. reflexivity. }
    split; [lia|]. split.
    { rewrite totalDelay_app, failed_delay by lia. cbn. lia. }
    split; [lia|]. split; assumption.
Qed.

End RetryFacts.

(* ================================================================== *)
(** * [encodeURIComponent], as the scrapers use it on the query *)
(* ================================================================== *)

Module Uri.

Definition isHighSurrogate (c : N) : bool := inRange 55296 56319 c.
Definition isLowSurrogate (c : N) : bool := inRange 56320 57343 c.

(** The code units [encodeURIComponent] leaves as they are: letters,
    digits and [- _ . ! ~ * ' ( )]. *)
Definition isUnreserved (c : N) : bool :=
  isDigit c || isLower c || isUpper c
  || existsb (N.eqb c) [45; 95; 46; 33; 126; 42; 39; 40; 41]%N.

Definition hexDigit (v : N) : N :=
  if (v <? 10)%N then (48 + v)%N else (55 + v)%N.

(** [%XX] for one octet. *)
Definition percent (octet : N) : jsstring :=
  [37%N; hexDigit (octet / 16); hexDigit (octet mod 16)].

(** The octets of a code point in UTF-8. *)
Definition utf8 (cp : N) : list N :=
  (if cp <? 128 then [cp]
   else if cp <? 2048 then [192 + cp / 64; 128 + cp mod 64]
   else if cp <? 65536
        then [224 + cp / 4096; 128 + (cp / 64) mod 64; 128 + cp mod 64]
        else [240 + cp / 262144; 128 + (cp / 4096) mod 64;
              128 + (cp / 64) mod 64; 128 + cp mod 64])%N.

Definition escape (cp : N) : jsstring := flat_map percent (utf8 cp).

(** The message of the URIError (the text is the one of V8). *)
Definition malformed : jsstring := js "URI malformed".

Definition prepend (pre : jsstring) (rest : result jsstring) : result jsstring :=
  match rest with
  | Ok t => Ok (pre ++ t)
  | Err m => Err m
  end.

(** [encodeURIComponent(s)]: a surrogate that is not half of a pair is a
    URIError. *)
Fixpoint encodeURIComponent (s : jsstring) : result jsstring :=
  match s with
  | [] => Ok []
  | c :: r =>
      if isUnreserved c then prepend [c] (encodeURIComponent r)
      else if isLowSurrogate c then Err malformed
      else if isHighSurrogate c then
        match r with
        | d :: r' =>
            if isLowSurrogate d
            then prepend (escape (65536 + (c - 55296) * 1024 + (d - 56320))%N)
                         (encodeURIComponent r')
            else Err malformed
        | [] => Err malformed
        end
      else prepend (escape c) (encodeURIComponent r)
  end.

(** [s.isWellFormed()]: no lone surrogate. *)
Fixpoint isWellFormed (s : jsstring) : bool :=
  match s with
  | [] => true
  | c :: r =>
      if isLowSurrogate c then false
      else if isHighSurrogate c then
        match r with
        | d :: r' => isLowSurrogate d && isWellFormed r'
        | [] => false
        end
      else isWellFormed r
  end.

(** [s.replace(/\s+/g, '-')]: every run of white space becomes one
    hyphen. *)
Fixpoint hyphenate (s : jsstring) : jsstring :=
  match s with
  | [] => []
  | c :: r =>
      if isSpace c then
        match r with
        | d :: _ => if isSpace d then hyphenate r else 45%N :: hyphenate r
        | [] => [45%N]
        end
      else c :: hyphenate r
  end.

End Uri.

Module UriFacts.
Import Uri.

Example encodeURIComponent_examples :
  encodeURIComponent (js "iPhone 15 (Pro)") = Ok (js "iPhone%2015%20(Pro)")
  /\ encodeURIComponent (js "a&b=c/d") = Ok (js "a%26b%3Dc%2Fd")
  /\ encodeURIComponent [8377%N; 233%N] = Ok (js "%E2%82%B9%C3%A9")
  /\ encodeURIComponent [55357%N; 56832%N] = Ok (js "%F0%9F%98%80")
  /\ encodeURIComponent [97%N; 55357%N] = Err malformed
  /\ encodeURIComponent [56832%N; 97%N] = Err malformed.
Proof. repeat split; vm_compute; reflexivity. Qed.

Lemma not_low (c : N) : (c < 56320 \/ 57343 < c)%N -> isLowSurrogate c = false.
Proof.
  intros H. unfold isLowSurrogate, inRange. apply andb_false_iff.
  rewrite !N.leb_gt. lia.
Qed.

Lemma not_high (c : N) : (c < 55296 \/ 56319 < c)%N -> isHighSurrogate c = false.
Proof.
  intros H. unfold isHighSurrogate, inRange. apply andb_false_iff.
  rewrite !N.leb_gt. lia.
Qed.

Lemma unreserved_plain (c : N) :
  isUnreserved c = true -> isLowSurrogate c = false /\ isHighSurrogate c = false.
Proof.
  intros H. assert (c < 128)%N.
  { unfold isUnreserved, isDigit, isLower, isUpper, inRange, existsb in H.
    rewrite ?orb_true_iff, ?andb_true_iff, ?N.leb_le, ?N.eqb_eq in H. lia. }
  split; [apply not_low | apply not_high]; lia.
Qed.

Lemma space_plain (c : N) :
  isSpace c = true -> isLowSurrogate c = false /\ isHighSurrogate c = false.
Proof.
  intros H. assert (c < 55296 \/ 57343 < c)%N.
  { unfold isSpace, inRange in H.
    rewrite ?orb_true_iff, ?andb_true_iff, ?N.leb_le, ?N.eqb_eq in H. lia. }
  split; [apply not_low | apply not_high]; lia.
Qed.

Lemma upper_plain (c : N) :
  isUpper c = true ->
  isLowSurrogate c = false /\ isHighSurrogate c = false
  /\ isLowSurrogate (c + 32) = false /\ isHighSurrogate (c + 32) = false.
Proof.
  intros H. unfold isUpper, inRange in H.
  rewrite ?andb_true_iff, ?N.leb_le in H.
  repeat split; (apply not_low || apply not_high); lia.
Qed.

(** [encodeURIComponent] throws exactly on the texts that are not well
    formed, and then "URI malformed". *)
Lemma encodeURIComponent_outcome (s : jsstring) :
  if isWellFormed s
  then exists encoded, encodeURIComponent s = Ok encoded
  else encodeURIComponent s = Err malformed.
Proof.
  assert (P : forall n s, length s <= n ->
                if isWellFormed s
                then exists encoded, encodeURIComponent s = Ok encoded
                else encodeURIComponent s = Err malformed).
  { clear s. induction n as [|n IH]; intros [|c r] L; cbn [length] in L;
      try lia; try (cbn; eauto; fail).
    assert (step : forall pre,
               if isWellFormed r
               then exists encoded, prepend pre (encodeURIComponent r) = Ok encoded
               else prepend pre (encodeURIComponent r) = Err malformed).
    { intros pre. pose proof (IH r ltac:(lia)) as H.
      destruct (isWellFormed r); [destruct H as (t & ->); cbn; eauto|].
      now rewrite H. }
    cbn [isWellFormed encodeURIComponent].
    destruct (isUnreserved c) eqn:U.
    - destruct (unreserved_plain _ U) as (-> & ->). apply step.
    - destruct (isLowSurrogate c); [reflexivity|].
      destruct (isHighSurrogate c); [|apply step].
      destruct r as [|d r']; [reflexivity|].
      destruct (isLowSurrogate d); cbn [andb]; [|reflexivity].
      pose proof (IH r' ltac:(cbn [length] in L; lia)) as H.
      destruct (isWellFormed r'); [destruct H as (t & ->); cbn; eauto|].
      now rewrite H. }
  exact (P (length s) s (Nat.le_refl _)).
Qed.

Lemma encodeURIComponent_wellFormed (s : jsstring) :
  isWellFormed s = true -> exists encoded, encodeURIComponent s = Ok encoded.
Proof. intros H. pose proof (encodeURIComponent_outcome s) as O. now rewrite H in O. Qed.

Lemma encodeURIComponent_malformed (s : jsstring) :
  isWellFormed s = false -> encodeURIComponent s = Err malformed.
Proof. intros H. pose proof (encodeURIComponent_outcome s) as O. now rewrite H in O. Qed.

(** A unit that is no surrogate in front of a text. *)
Lemma isWellFormed_plain (c : N) (s : jsstring) :
  isLowSurrogate c = false -> isHighSurrogate c = false ->
  isWellFormed (c :: s) = isWellFormed s.
Proof. intros L H. cbn [isWellFormed]. now rewrite L, H. Qed.

Lemma lowerUnit_cases (c : N) :
  (lowerUnit c = [c])
  \/ (isLowSurrogate c = false /\ isHighSurrogate c = false
      /\ exists a rest, lowerUnit c = a :: rest
           /\ isLowSurrogate a = false /\ isHighSurrogate a = false
           /\ forall s, isWellFormed (rest ++ s) = isWellFormed s).
Proof.
  unfold lowerUnit. destruct (isUpper c) eqn:U.
  - destruct (upper_plain _ U) as (L & H & L' & H').
    right. do 2 (split; [assumption|]).
    exists (c + 32)%N, []. do 3 (split; [assumption || reflexivity|]).
    reflexivity.
  - destruct (N.eqb_spec c 8490) as [->|_].
    + right. do 2 (split; [reflexivity|]). exists 107%N, []. repeat split.
    + destruct (N.eqb_spec c 304) as [->|_]; [|now left].
      right. do 2 (split; [reflexivity|]). exists 105%N, [775%N]. repeat split.
Qed.

(** [toLowerCase] keeps a text well formed, and keeps a lone surrogate. *)
Lemma toLowerCase_wellFormed (s : jsstring) :
  isWellFormed (toLowerCase s) = isWellFormed s.
Proof.
  assert (P : forall n s, length s <= n ->
                isWellFormed (toLowerCase s) = isWellFormed s).
  { clear s. induction n as [|n IH]; intros [|c r] L; cbn [length] in L;
      try lia; try reflexivity.
    unfold toLowerCase. cbn [flat_map]. fold (toLowerCase r).
    destruct (lowerUnit_cases c) as [E|(Lc & Hc & a & rest & E & La & Ha & W)].
    - rewrite E. cbn [app isWellFormed].
      destruct (isLowSurrogate c); [reflexivity|].
      destruct (isHighSurrogate c); [|apply IH; lia].
      destruct r as [|d r']; [reflexivity|].
      unfold toLowerCase. cbn [flat_map]. fold (toLowerCase r').
      destruct (lowerUnit_cases d) as [Ed|(Ld & Hd & b & rest & Ed & Lb & Hb & W)].
      + rewrite Ed. cbn [app]. f_equal. apply IH. cbn [length] in L. lia.
      + rewrite Ed, Ld. cbn [app]. now rewrite Lb.
    - rewrite E. cbn [app]. rewrite isWellFormed_plain by assumption.
      rewrite W. rewrite isWellFormed_plain by assumption. apply IH. lia. }
  exact (P (length s) s (Nat.le_refl _)).
Qed.

Lemma dropWhile_length (f : N -> bool) (s : jsstring) :
  length (dropWhile f s) <= length s.
Proof.
  induction s as [|c r IH]; [reflexivity|]. cbn [dropWhile].
  destruct (f c); cbn [length]; lia.
Qed.

Lemma hyphenate_space (c : N) (r : jsstring) :
  isSpace c = true ->
  hyphenate (c :: r) = 45%N :: hyphenate (dropWhile isSpace r).
Proof.
  revert c. induction r as [|d r IH]; intros c H.
  - cbn [hyphenate]. now rewrite H.
  - change (hyphenate (c :: d :: r))
      with (if isSpace c
            then (if isSpace d then hyphenate (d :: r)
                  else 45%N :: hyphenate (d :: r))
            else c :: hyphenate (d :: r)).
    rewrite H. cbn [dropWhile].
    destruct (isSpace d) eqn:D; [now apply IH | reflexivity].
Qed.

Lemma isWellFormed_dropWhile (s : jsstring) :
  isWellFormed (dropWhile isSpace s) = isWellFormed s.
Proof.
  induction s as [|c r IH]; [reflexivity|]. cbn [dropWhile].
  destruct (isSpace c) eqn:S; [|reflexivity].
  destruct (space_plain _ S) as (L & H).
  now rewrite isWellFormed_plain.
Qed.

(** So does the replacement of white space by hyphens. *)
Lemma hyphenate_wellFormed (s : jsstring) :
  isWellFormed (hyphenate s) = isWellFormed s.
Proof.
  assert (P : forall n s, length s <= n ->
                isWellFormed (hyphenate s) = isWellFormed s).
  { clear s. induction n as [|n IH]; intros [|c r] L; cbn [length] in L;
      try lia; try reflexivity.
    destruct (isSpace c) eqn:S.
    - rewrite hyphenate_space by exact S.
      destruct (space_plain _ S) as (Lc & Hc).
      rewrite !isWellFormed_plain by (assumption || reflexivity).
      rewrite IH by (pose proof (dropWhile_length isSpace r); lia).
      apply isWellFormed_dropWhile.
    - cbn [hyphenate]. rewrite S. cbn [isWellFormed].
      destruct (isLowSurrogate c); [reflexivity|].
      destruct (isHighSurrogate c); [|apply IH; lia].
      destruct r as [|d r']; [reflexivity|].
      destruct (isSpace d) eqn:D.
      + rewrite hyphenate_space by exact D.
        destruct (space_plain _ D) as (-> & _). reflexivity.
      + cbn [hyphenate]. rewrite D. f_equal. apply IH. cbn [length] in L. lia. }
  exact (P (length s) s (Nat.le_refl _)).
Qed.

End UriFacts.

(* ================================================================== *)
(** * scrapers/AmazonScraper.js: the control flow of [search] *)
(* ================================================================== *)

Module ScraperPages.

(** [html && html.length < n]; [html] is undefined until a page was
    fetched, and the empty string is falsy. *)
Definition shortPage (html : option jsstring) (n : nat) : bool :=
  match html with
  | Some (c :: r) => length (c :: r) <? n
  | _ => false
  end.

(** [!html || html.length < n]. *)
Definition unusable (html : option jsstring) (n : nat) : bool :=
  match html with
  | Some (c :: r) => length (c :: r) <? n
  | _ => true
  end.

(** A step that does not touch the network. *)
Definition lift {A : Type} (r : result A) : M A := fun w => (r, w).

End ScraperPages.

Module AmazonScraper.
Import BaseScraper ScraperPages Uri.

Definition maxAttempts : nat := 3.

Section Search.
(** The network, as in [Transport]; the whole milliseconds that
    [2000 + Math.random() * 3000] comes to after the attempt [k]; and
    what cheerio finds in a page. *)
Variable axios : nat -> answer.
Variable browser : nat -> answer.
Variable wait : nat -> Z.
Variable parseSearchResults : jsstring -> jsint -> result (list rawResult).

(** The try block of one turn of the loop: the browser first, then
    [makeRequest] with two tries; [html] keeps its value when nothing
    could be fetched and the turn is not the last. *)
Definition fetchPage (attempt : nat) (html : option jsstring)
  : M (option jsstring) :=
  tryCatch (page <- fetchWithBrowser browser ;; ret (Some page))
    (fun _ =>
       tryCatch (page <- makeRequest axios (js "amazon") 2 ;; ret (Some page))
         (fun axiosErr =>
            if maxAttempts <=? attempt
            then throw (js "Amazon search failed: could not fetch search page ("
                        ++ axiosErr ++ js ")")
            else ret html)).

(** [for (let attempt = 1; attempt <= maxAttempts; attempt++)] with
    [remaining] turns to go. *)
Fixpoint attemptsLoop (remaining : nat) (html : option jsstring)
  : M (option jsstring) :=
  match remaining with
  | O => ret html
  | S k =>
      let attempt := S (maxAttempts - remaining) in
      fetched <- fetchPage attempt html ;;
      if shortPage fetched 5000
      then
        if attempt <? maxAttempts
        then delay (wait attempt) ;;; attemptsLoop k fetched
        else attemptsLoop k fetched
      else ret fetched
  end.

(** [search(query, maxResults)].  The URL is built first, and
    [encodeURIComponent(query)] can throw; the URL itself is not kept,
    since the network of the embedding answers by the number of the
    call. *)
Definition search (query : jsstring) (maxResults : jsint) : M (list product) :=
  lift (encodeURIComponent query) ;;;
  (html <- attemptsLoop maxAttempts None ;;
   if unusable html 5000 then ret []
   else
     match html with
     | Some page =>
         results <- lift (parseSearchResults page maxResults) ;;
         ret (normalizeResults (js "amazon") results)
     | None => ret []
     end).

End Search.
End AmazonScraper.

Module AmazonFacts.
Import BaseScraper ScraperPages AmazonScraper NumFacts StepFacts Uri UriFacts.

Lemma normalizeResults_valid (name : jsstring) (raws : list rawResult) :
  Forall validPrice (normalizeResults name raws).
Proof.
  apply Forall_forall. intros p Hp. unfold normalizeResults in Hp.
  apply in_map_iff in Hp as (r & <- & Hr). apply filter_In in Hr as (_ & Hr).
  apply priceInvalid_false. cbn. now apply negb_true_iff in Hr.
Qed.

(** [makeRequest] started in any state of the world. *)
Lemma attempts_calls (axios : nat -> answer) (name : jsstring)
      (n remaining : nat) (last : option jsstring) (w : world) :
  browserCalls (snd (attempts axios name n remaining last w)) = browserCalls w
  /\ axiosCalls w <= axiosCalls (snd (attempts axios name n remaining last w))
     <= axiosCalls w + remaining.
Proof.
  revert last w. induction remaining as [|k IH]; intros last w.
  - cbn. destruct last; cbn; lia.
  - cbn [attempts]. unfold tryCatch, callAxios.
    destruct (axios (axiosCalls w)) as [d|e]; [cbn; lia|].
    unfold bind. destruct (S (n - S k) <? n); unfold delay, ret.
    + match goal with
      | |- context [attempts axios name n k ?l ?w1] =>
          destruct (IH l w1) as (B & A1 & A2)
      end.
      cbn [browserCalls axiosCalls] in *. lia.
    + match goal with
      | |- context [attempts axios name n k ?l ?w1] =>
          destruct (IH l w1) as (B & A1 & A2)
      end.
      cbn [browserCalls axiosCalls] in *. lia.
Qed.

(** The step that encodes a text for a URL: it lets a well-formed text
    pass and throws on any other, and does not touch the network. *)
Lemma encode_wellFormed (A : Type) (text : jsstring) (k : M A) (w : world) :
  isWellFormed text = true ->
  (lift (encodeURIComponent text) ;;; k) w = k w.
Proof.
  intros H. destruct (encodeURIComponent_wellFormed _ H) as (encoded & E).
  unfold bind, lift. now rewrite E.
Qed.

Lemma encode_malformed (A : Type) (text : jsstring) (k : M A) (w : world) :
  isWellFormed text = false ->
  (lift (encodeURIComponent text) ;;; k) w = (Err malformed, w).
Proof.
  intros H. unfold bind, lift. now rewrite (encodeURIComponent_malformed _ H).
Qed.

Section Loop.
Variable axios : nat -> answer.
Variable browser : nat -> answer.
Variable wait : nat -> Z.
Variable parseSearchResults : jsstring -> jsint -> result (list rawResult).

Definition failedSearch (e : jsstring) : jsstring :=
  js "Amazon search failed: could not fetch search page (" ++ e ++ js ")".

(** What [search] does once the URL is built. *)
Definition searchPages (maxResults : jsint) : M (list product) :=
  html <- attemptsLoop axios browser wait maxAttempts None ;;
  if unusable html 5000 then ret []
  else
    match html with
    | Some page =>
        results <- lift (parseSearchResults page maxResults) ;;
        ret (normalizeResults (js "amazon") results)
    | None => ret []
    end.

Lemma search_wellFormed (query : jsstring) (maxResults : jsint) (w : world) :
  isWellFormed query = true ->
  search axios browser wait parseSearchResults query maxResults w
  = searchPages maxResults w.
Proof. intros H. unfold search. now rewrite encode_wellFormed. Qed.

Lemma search_malformed (query : jsstring) (maxResults : jsint) (w : world) :
  isWellFormed query = false ->
  search axios browser wait parseSearchResults query maxResults w
  = (Err malformed, w).
Proof. intros H. unfold search. now rewrite encode_malformed. Qed.

Lemma fetchPage_calls (attempt : nat) (html : option jsstring) (w : world) :
  let run := fetchPage axios browser attempt html w in
  browserCalls (snd run) = S (browserCalls w)
  /\ axiosCalls w <= axiosCalls (snd run) <= axiosCalls w + 2
  /\ (forall m, fst run = Err m ->
                maxAttempts <= attempt /\ exists e, m = failedSearch e).
Proof.
  intros run. assert (E : run = fetchPage axios browser attempt html w) by reflexivity.
  clearbody run. revert E.
  unfold fetchPage, tryCatch at 1, bind at 1, fetchWithBrowser.
  destruct (browser (browserCalls w)) as [page|e].
  - intros ->. cbn [ret fst snd browserCalls axiosCalls].
    split; [lia|]. split; [lia|]. intros m H. discriminate H.
  - unfold tryCatch, bind, makeRequest.
    match goal with
    | |- context [attempts axios ?nm 2 2 None ?w1] =>
        pose proof (attempts_calls axios nm 2 2 None w1) as (B & A1 & A2);
        destruct (attempts axios nm 2 2 None w1) as [[page|ae] w2]
    end.
    + intros ->. cbn [fst snd browserCalls axiosCalls ret] in *.
      split; [lia|]. split; [lia|]. intros m H. discriminate H.
    + destruct (maxAttempts <=? attempt) eqn:L; intros ->.
      * cbn [fst snd browserCalls axiosCalls throw] in *.
        split; [lia|]. split; [lia|]. intros m [= <-].
        split; [now apply Nat.leb_le | now exists ae].
      * cbn [fst snd browserCalls axiosCalls ret] in *.
        split; [lia|]. split; [lia|]. intros m H. discriminate H.
Qed.

Lemma attemptsLoop_calls (remaining : nat) (html : option jsstring) (w : world) :
  remaining <= maxAttempts ->
  let run := attemptsLoop axios browser wait remaining html w in
  browserCalls w <= browserCalls (snd run) <= browserCalls w + remaining
  /\ (1 <= remaining -> S (browserCalls w) <= browserCalls (snd run))
  /\ axiosCalls w <= axiosCalls (snd run)
  /\ axiosCalls (snd run) + 2 * browserCalls w
     <= axiosCalls w + 2 * browserCalls (snd run)
  /\ (forall m, fst run = Err m ->
                browserCalls (snd run) = browserCalls w + remaining
                /\ exists e, m = failedSearch e).
Proof.
  revert html w. induction remaining as [|k IH]; intros html w Hr run.
  - subst run. cbn [attemptsLoop ret fst snd].
    do 4 (split; [lia|]). intros m H. discriminate H.
  - assert (E : run = attemptsLoop axios browser wait (S k) html w) by reflexivity.
    clearbody run. revert E. cbn [attemptsLoop]. unfold bind at 1.
    pose proof (fetchPage_calls (S (maxAttempts - S k)) html w) as (B & (A1 & A2) & E).
    destruct (fetchPage axios browser (S (maxAttempts - S k)) html w)
      as [[fetched|m] w1].
    + cbn [fst snd] in *.
      assert (Rec : forall w2,
                 browserCalls w2 = browserCalls w1 -> axiosCalls w2 = axiosCalls w1 ->
                 run = attemptsLoop axios browser wait k fetched w2 ->
                 browserCalls w <= browserCalls (snd run) <= browserCalls w + S k
                 /\ (1 <= S k -> S (browserCalls w) <= browserCalls (snd run))
                 /\ axiosCalls w <= axiosCalls (snd run)
                 /\ axiosCalls (snd run) + 2 * browserCalls w
                    <= axiosCalls w + 2 * browserCalls (snd run)
                 /\ (forall m, fst run = Err m ->
                               browserCalls (snd run) = browserCalls w + S k
                               /\ exists e, m = failedSearch e)).
      { intros w2 Hb Ha ->.
        destruct (IH fetched w2 ltac:(lia)) as (R1 & R2 & R3 & R4 & R5).
        do 4 (split; [lia|]). intros m Hm. destruct (R5 m Hm) as (Rb & Re).
        split; [lia | exact Re]. }
      destruct (shortPage fetched 5000).
      * destruct (S (maxAttempts - S k) <? maxAttempts) eqn:L.
        -- unfold bind, delay. apply Rec; reflexivity.
        -- apply Rec; reflexivity.
      * intros ->. cbn [ret fst snd].
        do 4 (split; [lia|]). intros m H. discriminate H.
    + cbn [fst snd] in *. destruct (E m eq_refl) as (L & e & ->).
      assert (k = 0) by (unfold maxAttempts in *; lia). subst k.
      intros ->. cbn [fst snd].
      do 4 (split; [lia|]). intros m [= <-]. split; [lia | now exists e].
Qed.

(** The cost and the ends of a search once the URL is built. *)
Lemma searchPages_bounded (maxResults : jsint) :
  let run := searchPages maxResults start in
  1 <= browserCalls (snd run) <= 3
  /\ axiosCalls (snd run) <= 2 * browserCalls (snd run)
  /\ (forall products, fst run = Ok products -> Forall validPrice products)
  /\ (forall m, fst run = Err m ->
        (exists page, parseSearchResults page maxResults = Err m)
        \/ (browserCalls (snd run) = 3 /\ exists e, m = failedSearch e)).
Proof.
  intros run.
  assert (R : run = searchPages maxResults start) by reflexivity.
  clearbody run. revert R. unfold searchPages, bind at 1.
  pose proof (@attemptsLoop_calls maxAttempts None start (Nat.le_refl _))
    as (B & B1 & A & A2 & E).
  destruct (attemptsLoop axios browser wait maxAttempts None start) as [[html|m] w1].
  - cbn [fst snd start browserCalls axiosCalls] in *. unfold maxAttempts in *.
    specialize (B1 ltac:(lia)).
    destruct (unusable html 5000).
    + intros ->. cbn [ret fst snd]. split; [lia|]. split; [lia|]. split.
      * intros ps [= <-]. constructor.
      * intros m H. discriminate H.
    + destruct html as [page|].
      * unfold bind, lift.
        destruct (parseSearchResults page maxResults) as [raws|pe] eqn:P; intros ->.
        -- cbn [ret fst snd]. split; [lia|]. split; [lia|]. split.
           ++ intros ps [= <-]. apply normalizeResults_valid.
           ++ intros m H. discriminate H.
        -- cbn [fst snd]. split; [lia|]. split; [lia|]. split.
           ++ intros ps H. discriminate H.
           ++ intros m [= <-]. left. now exists page.
      * intros ->. cbn [ret fst snd]. split; [lia|]. split; [lia|]. split.
        -- intros ps [= <-]. constructor.
        -- intros m H. discriminate H.
  - cbn [fst snd start browserCalls axiosCalls] in *. unfold maxAttempts in *.
    destruct (E m eq_refl) as (Eb & e & ->).
    intros ->. cbn [fst snd]. split; [lia|]. split; [lia|]. split.
    + intros ps H. discriminate H.
    + intros m [= <-]. right. split; [lia | now exists e].
Qed.

(** X19.  What a search on Amazon costs and how it can end, whatever the
    network and the parser do.  A query that is not well formed (it has a
    lone surrogate) ends the search at once with the error "URI
    malformed", before any request.  For any other query there are
    between one and three browser sessions.  In both cases there are at
    most two plain requests for each session; every product returned has
    a valid price; and an error is "URI malformed", or the parser's, or
    the message "Amazon search failed: ..." thrown in the third turn,
    that is, after three browser sessions. *)
Theorem search_bounded (query : jsstring) (maxResults : jsint) :
  let run := search axios browser wait parseSearchResults query maxResults start in
  (isWellFormed query = false -> run = (Err malformed, start))
  /\ (isWellFormed query = true -> 1 <= browserCalls (snd run))
  /\ browserCalls (snd run) <= 3
  /\ axiosCalls (snd run) <= 2 * browserCalls (snd run)
  /\ (forall products, fst run = Ok products -> Forall validPrice products)
  /\ (forall m, fst run = Err m ->
        (m = malformed /\ isWellFormed query = false)
        \/ (exists page, parseSearchResults page maxResults = Err m)
        \/ (browserCalls (snd run) = 3 /\ exists e, m = failedSearch e)).
Proof.
  intros run. subst run. destruct (isWellFormed query) eqn:W.
  - rewrite search_wellFormed by exact W.
    destruct (searchPages_bounded maxResults) as ((B1 & B3) & A & V & E).
    split; [discriminate|]. split; [intros _; exact B1|].
    split; [exact B3|]. split; [exact A|]. split; [exact V|].
    intros m H. right. now apply E.
  - rewrite search_malformed by exact W. cbn [fst snd start browserCalls axiosCalls].
    split; [reflexivity|]. split; [discriminate|].
    split; [lia|]. split; [lia|]. split.
    + intros ps H. discriminate H.
    + intros m [= <-]. now left.
Qed.

Lemma fetchPage_content (attempt : nat) (html : option jsstring) (w : world)
      (page : jsstring) :
  browser (browserCalls w) = Content page ->
  fetchPage axios browser attempt html w
  = (Ok (Some page),
     mkWorld (axiosCalls w) (S (browserCalls w)) (trace w ++ [HeavyAttempt])).
Proof.
  intros H. unfold fetchPage, tryCatch at 1, bind at 1, fetchWithBrowser.
  rewrite H. reflexivity.
Qed.

Lemma shortPage_true (page : jsstring) (n : nat) :
  0 < length page < n -> shortPage (Some page) n = true.
Proof.
  destruct page as [|c r]; cbn [length]; [lia|].
  intros H. cbn [shortPage]. apply Nat.ltb_lt. cbn [length]. lia.
Qed.

Lemma shortPage_unusable (html : option jsstring) (n : nat) :
  shortPage html n = true -> unusable html n = true.
Proof. destruct html as [[|c r]|]; cbn; auto; discriminate. Qed.

(** X20.  For a well-formed query, when the first browser session fails
    and the two plain requests that follow fail as well, the search ends
    there: no second turn, no wait, no error, and an empty list, after
    one session and two requests. *)
Theorem search_ends_on_first_double_failure
        (query : jsstring) (maxResults : jsint) (e0 e1 e2 : jsstring) :
  isWellFormed query = true ->
  browser 0 = Failure e0 -> axios 0 = Failure e1 -> axios 1 = Failure e2 ->
  search axios browser wait parseSearchResults query maxResults start
  = (Ok [],
     mkWorld 2 1 [HeavyAttempt; LightAttempt 1; Delay 1000; LightAttempt 2]).
Proof.
  intros W H0 H1 H2. rewrite search_wellFormed by exact W.
  unfold searchPages, bind at 1. unfold maxAttempts. cbn [attemptsLoop Nat.sub].
  unfold bind at 1, fetchPage, tryCatch at 1, bind at 1, fetchWithBrowser.
  cbn [start browserCalls axiosCalls trace app]. rewrite H0.
  unfold tryCatch at 1, bind at 1, makeRequest. cbn [attempts Nat.sub].
  unfold tryCatch at 1, callAxios at 1. cbn [axiosCalls browserCalls trace app].
  rewrite H1. cbn [Nat.ltb Nat.leb]. unfold bind at 1, delay at 1.
  cbn [axiosCalls browserCalls trace app].
  unfold tryCatch at 1, callAxios at 1. cbn [axiosCalls browserCalls trace app].
  rewrite H2. reflexivity.
Qed.

(** The loop when every session is answered with a small page. *)
Lemma blocked_loop :
  (forall i, i < 3 ->
             exists page, browser i = Content page /\ 0 < length page < 5000) ->
  exists last,
    attemptsLoop axios browser wait maxAttempts None start
    = (Ok (Some last),
       mkWorld 0 3 [HeavyAttempt; Delay (wait 1); HeavyAttempt; Delay (wait 2);
                    HeavyAttempt])
    /\ unusable (Some last) 5000 = true.
Proof.
  intros Hb.
  destruct (Hb 0 ltac:(lia)) as (p0 & B0 & L0).
  destruct (Hb 1 ltac:(lia)) as (p1 & B1 & L1).
  destruct (Hb 2 ltac:(lia)) as (p2 & B2 & L2).
  exists p2. split; [|apply shortPage_unusable; now apply shortPage_true].
  unfold maxAttempts. cbn [attemptsLoop]. unfold maxAttempts. cbn [Nat.sub].
  unfold bind at 1. rewrite (fetchPage_content 1 None start B0).
  rewrite (@shortPage_true _ _ L0). cbn [Nat.ltb Nat.leb].
  unfold bind at 1, delay at 1. cbn [start axiosCalls browserCalls trace app].
  unfold bind at 1. rewrite fetchPage_content with (page := p1) by exact B1.
  rewrite (@shortPage_true _ _ L1). cbn [Nat.ltb Nat.leb].
  unfold bind at 1, delay at 1. cbn [axiosCalls browserCalls trace app].
  unfold bind at 1. rewrite fetchPage_content with (page := p2) by exact B2.
  rewrite (@shortPage_true _ _ L2). cbn [Nat.ltb Nat.leb ret].
  cbn [axiosCalls browserCalls trace app]. reflexivity.
Qed.

(** X21.  For a well-formed query, a site that answers every browser
    session with a small page (fewer than 5000 characters, the sign of a
    block) is asked three times, with a wait after the first and after
    the second answer, and without any plain request; the search then
    returns an empty list and does not throw. *)
Theorem search_blocked_returns_nothing
        (query : jsstring) (maxResults : jsint) :
  isWellFormed query = true ->
  (forall i, i < 3 ->
             exists page, browser i = Content page /\ 0 < length page < 5000) ->
  search axios browser wait parseSearchResults query maxResults start
  = (Ok [],
     mkWorld 0 3 [HeavyAttempt; Delay (wait 1); HeavyAttempt; Delay (wait 2);
                  HeavyAttempt]).
Proof.
  intros W Hb. destruct (blocked_loop Hb) as (last & E & U).
  rewrite search_wellFormed by exact W.
  unfold searchPages, bind at 1. rewrite E, U. reflexivity.
Qed.

End Loop.

Definition unreachable : nat -> answer := fun _ => Failure (js "timeout").

Lemma search_ends_on_first_double_failure_witness :
  search unreachable unreachable (fun _ => 3500%Z) (fun _ _ => Ok [])
         (js "iphone 15") (Some 15%Z) start
  = (Ok [],
     mkWorld 2 1 [HeavyAttempt; LightAttempt 1; Delay 1000; LightAttempt 2]).
Proof.
  apply (@search_ends_on_first_double_failure
           unreachable unreachable (fun _ => 3500%Z) (fun _ _ => Ok [])
           (js "iphone 15") (Some 15%Z)
           (js "timeout") (js "timeout") (js "timeout")); reflexivity.
Defined.

Definition captcha : nat -> answer := fun _ => Content (js "<html>Enter the characters</html>").

Lemma search_blocked_returns_nothing_witness :
  search unreachable captcha (fun k => (2000 + 700 * Z.of_nat k)%Z) (fun _ _ => Ok [])
         (js "iphone 15") (Some 15%Z) start
  = (Ok [],
     mkWorld 0 3 [HeavyAttempt; Delay 2700; HeavyAttempt; Delay 3400; HeavyAttempt]).
Proof.
  apply (@search_blocked_returns_nothing
           unreachable captcha (fun k => (2000 + 700 * Z.of_nat k)%Z) (fun _ _ => Ok [])
           (js "iphone 15") (Some 15%Z)).
  - reflexivity.
  - intros i _. eexists. split; [reflexivity|]. cbn. lia.
Defined.

End AmazonFacts.

(* ================================================================== *)
(** * scrapers/FlipkartScraper.js and MyntraScraper.js: [search] *)
(* ================================================================== *)

Module FlipkartScraper.
Import BaseScraper ScraperPages Uri.

Section Search.
Variable axios : nat -> answer.
Variable browser : nat -> answer.
(** What the two parsing strategies find in a page. *)
Variable extractFromEmbeddedData : jsstring -> jsint -> result (list rawResult).
Variable parseSearchResultsDOM : jsstring -> jsint -> result (list rawResult).

(** [search(query, maxResults)]; the URL is built first, with
    [encodeURIComponent(query)]. *)
Definition search (query : jsstring) (maxResults : jsint) : M (list product) :=
  lift (encodeURIComponent query) ;;;
  (html <- tryCatch (fetchWithBrowser browser)
             (fun _ =>
                tryCatch (makeRequest axios (js "flipkart") 2)
                  (fun axiosErr =>
                     throw (js "Flipkart search failed: could not fetch search page ("
                            ++ axiosErr ++ js ")"))) ;;
   if unusable (Some html) 1000
   then throw (js "Flipkart returned empty/blocked response")
   else
     embedded <- lift (extractFromEmbeddedData html maxResults) ;;
     results <- (if length embedded =? 0
                 then lift (parseSearchResultsDOM html maxResults)
                 else ret embedded) ;;
     ret (normalizeResults (js "flipkart") results)).

End Search.
End FlipkartScraper.

Module MyntraScraper.
Import BaseScraper ScraperPages Uri.

Section Search.
Variable axios : nat -> answer.
Variable browser : nat -> answer.
Variable extractFromEmbeddedSearchData : jsstring -> jsint -> result (list rawResult).
Variable parseSearchResultsDOM : jsstring -> jsint -> result (list rawResult).

(** [search(query, maxResults)]; the URL is built first, with
    [encodeURIComponent(querySlug)] and then [encodeURIComponent(query)],
    where [querySlug] is [query.toLowerCase().replace(/\s+/g, '-')].  Of
    the two encodings only the error they can throw is kept. *)
Definition search (query : jsstring) (maxResults : jsint) : M (list product) :=
  let querySlug := hyphenate (toLowerCase query) in
  lift (encodeURIComponent querySlug) ;;;
  lift (encodeURIComponent query) ;;;
  (html <- tryCatch (fetchWithBrowser browser)
             (fun _ =>
                tryCatch (makeRequest axios (js "myntra") 2)
                  (fun axiosErr =>
                     throw (js "Myntra search failed: could not fetch search page ("
                            ++ axiosErr ++ js ")"))) ;;
   if unusable (Some html) 500
   then throw (js "Myntra returned empty/blocked response")
   else
     embedded <- lift (extractFromEmbeddedSearchData html maxResults) ;;
     results <- (if length embedded =? 0
                 then lift (parseSearchResultsDOM html maxResults)
                 else ret embedded) ;;
     ret (normalizeResults (js "myntra") results)).

End Search.
End MyntraScraper.

Module SinglePageFacts.
Import BaseScraper ScraperPages NumFacts StepFacts Uri UriFacts.

Lemma unusable_short (page : jsstring) (n : nat) :
  length page < n -> unusable (Some page) n = true.
Proof.
  destruct page as [|c r]; [reflexivity|].
  intros H. cbn [unusable]. now apply Nat.ltb_lt.
Qed.

(** The outcome of the step shared by both scrapers: one browser
    session, and [makeRequest] with two tries when it fails. *)
Lemma page_or_throw (axios browser : nat -> answer) (name : jsstring)
      (wrap : jsstring -> jsstring) :
  let run :=
    tryCatch (fetchWithBrowser browser)
      (fun _ => tryCatch (makeRequest axios name 2)
                  (fun axiosErr => throw (wrap axiosErr))) start in
  browserCalls (snd run) = 1
  /\ axiosCalls (snd run) <= 2
  /\ (forall page, browser 0 = Content page ->
                   fst run = Ok page /\ axiosCalls (snd run) = 0)
  /\ (forall m, fst run = Err m ->
                exists e0 e, browser 0 = Failure e0 /\ m = wrap e).
Proof.
  intros run.
  assert (E : run = tryCatch (fetchWithBrowser browser)
                      (fun _ => tryCatch (makeRequest axios name 2)
                                  (fun axiosErr => throw (wrap axiosErr))) start)
    by reflexivity.
  clearbody run. revert E. unfold tryCatch at 1, fetchWithBrowser.
  cbn [start browserCalls axiosCalls trace app].
  destruct (browser 0) as [page|e0].
  - intros ->. cbn [fst snd browserCalls axiosCalls].
    split; [reflexivity|]. split; [lia|]. split.
    + intros p [= <-]. auto.
    + intros m H. discriminate H.
  - unfold tryCatch, makeRequest.
    match goal with
    | |- context [attempts axios name 2 2 None ?w1] =>
        pose proof (AmazonFacts.attempts_calls axios name 2 2 None w1) as (B & A1 & A2);
        destruct (attempts axios name 2 2 None w1) as [[page|ae] w2]
    end.
    + intros ->. cbn [fst snd browserCalls axiosCalls] in *.
      split; [lia|]. split; [lia|]. split.
      * intros p H. discriminate H.
      * intros m H. discriminate H.
    + intros ->. cbn [fst snd browserCalls axiosCalls throw] in *.
      split; [lia|]. split; [lia|]. split.
      * intros p H. discriminate H.
      * intros m [= <-]. now exists e0, ae.
Qed.

Section Outcome.
Variable axios : nat -> answer.
Variable browser : nat -> answer.
Variable embedded : jsstring -> jsint -> result (list rawResult).
Variable dom : jsstring -> jsint -> result (list rawResult).

(** The shape the two functions share; they differ in the name of the
    platform, the least length of a page, and the two messages. *)
Definition singlePageSearch (name : jsstring) (least : nat)
           (wrap : jsstring -> jsstring) (blocked : jsstring)
           (maxResults : jsint) : M (list product) :=
  html <- tryCatch (fetchWithBrowser browser)
            (fun _ => tryCatch (makeRequest axios name 2)
                        (fun axiosErr => throw (wrap axiosErr))) ;;
  if unusable (Some html) least
  then throw blocked
  else
    found <- lift (embedded html maxResults) ;;
    results <- (if length found =? 0 then lift (dom html maxResults) else ret found) ;;
    ret (normalizeResults name results).

Lemma singlePageSearch_outcome (name : jsstring) (least : nat)
      (wrap : jsstring -> jsstring) (blocked : jsstring) (maxResults : jsint) :
  let run := singlePageSearch name least wrap blocked maxResults start in
  browserCalls (snd run) = 1
  /\ axiosCalls (snd run) <= 2
  /\ (forall page, browser 0 = Content page ->
        axiosCalls (snd run) = 0
        /\ (length page < least -> fst run = Err blocked))
  /\ (forall products, fst run = Ok products -> Forall validPrice products)
  /\ (forall m, fst run = Err m ->
        m = blocked
        \/ (exists e0 e, browser 0 = Failure e0 /\ m = wrap e)
        \/ (exists page, embedded page maxResults = Err m
                         \/ dom page maxResults = Err m)).
Proof.
  intros run.
  assert (E : run = singlePageSearch name least wrap blocked maxResults start)
    by reflexivity.
  clearbody run. revert E. unfold singlePageSearch, bind at 1.
  pose proof (page_or_throw axios browser name wrap) as (B & A & C & F).
  match type of B with
  | browserCalls (snd ?c) = 1 => destruct c as [[html|m0] w1]
  end; cbn [fst snd] in *.
  - destruct (unusable (Some html) least) eqn:U.
    + intros ->. cbn [throw fst snd].
      split; [exact B|]. split; [exact A|]. split; [|split].
      * intros page Hp. destruct (C page Hp) as (_ & A0). auto.
      * intros ps H. discriminate H.
      * intros m [= <-]. now left.
    + assert (Long : forall page, browser 0 = Content page ->
                                  axiosCalls w1 = 0 /\ (length page < least -> False)).
      { intros page Hp. destruct (C page Hp) as ([= ->] & A0). split; [exact A0|].
        intros L. apply unusable_short in L. congruence. }
      unfold bind at 1, lift at 1.
      destruct (embedded html maxResults) as [found|pe] eqn:Pe.
      * unfold bind at 1.
        destruct (length found =? 0).
        -- unfold lift. destruct (dom html maxResults) as [raws|de] eqn:Pd; intros ->;
             cbn [ret fst snd]; (split; [exact B|]); (split; [exact A|]); split.
           ++ intros page Hp. destruct (Long page Hp) as (A0 & L). split; [exact A0|].
              intros Hl. now destruct (L Hl).
           ++ split; [intros ps [= <-]; apply AmazonFacts.normalizeResults_valid|].
              intros m H. discriminate H.
           ++ intros page Hp. destruct (Long page Hp) as (A0 & L). split; [exact A0|].
              intros Hl. now destruct (L Hl).
           ++ split; [intros ps H; discriminate H|].
              intros m [= <-]. right. right. exists html. now right.
        -- intros ->. cbn [ret fst snd]. split; [exact B|]. split; [exact A|]. split.
           ++ intros page Hp. destruct (Long page Hp) as (A0 & L). split; [exact A0|].
              intros Hl. now destruct (L Hl).
           ++ split; [intros ps [= <-]; apply AmazonFacts.normalizeResults_valid|].
              intros m H. discriminate H.
      * intros ->. cbn [fst snd]. split; [exact B|]. split; [exact A|]. split.
        -- intros page Hp. destruct (Long page Hp) as (A0 & L). split; [exact A0|].
           intros Hl. now destruct (L Hl).
        -- split; [intros ps H; discriminate H|].
           intros m [= <-]. right. right. exists html. now left.
  - intros ->. cbn [fst snd]. split; [exact B|]. split; [exact A|]. split.
    + intros page Hp. destruct (C page Hp) as (H & _). discriminate H.
    + split; [intros ps H; discriminate H|].
      intros m [= <-]. right. left. apply F. reflexivity.
Qed.


(** The two searches once the URL is built. *)
Definition flipkartPages (maxResults : jsint) : M (list product) :=
  singlePageSearch (js "flipkart") 1000
    (fun e => js "Flipkart search failed: could not fetch search page ("
              ++ e ++ js ")")
    (js "Flipkart returned empty/blocked response") maxResults.

Definition myntraPages (maxResults : jsint) : M (list product) :=
  singlePageSearch (js "myntra") 500
    (fun e => js "Myntra search failed: could not fetch search page ("
              ++ e ++ js ")")
    (js "Myntra returned empty/blocked response") maxResults.

Lemma flipkart_wellFormed (query : jsstring) (maxResults : jsint) (w : world) :
  isWellFormed query = true ->
  FlipkartScraper.search axios browser embedded dom query maxResults w
  = flipkartPages maxResults w.
Proof.
  intros H. unfold FlipkartScraper.search.
  now rewrite AmazonFacts.encode_wellFormed.
Qed.


Lemma myntra_wellFormed (query : jsstring) (maxResults : jsint) (w : world) :
  isWellFormed query = true ->
  MyntraScraper.search axios browser embedded dom query maxResults w
  = myntraPages maxResults w.
Proof.
  intros H. unfold MyntraScraper.search. cbv zeta.
  rewrite AmazonFacts.encode_wellFormed
    by (now rewrite hyphenate_wellFormed, toLowerCase_wellFormed).
  now rewrite AmazonFacts.encode_wellFormed.
Qed.




End Outcome.
End SinglePageFacts.

(* ================================================================== *)
(** * The three scrapers behind the registry *)
(* ================================================================== *)

Module LiveRegistry.
Import ScraperRegistry RegistryOps.

(** A [search] method as the registry sees it: it returns or throws, and
    the registry reads the clock before and after. *)
Definition asScraper (elapsed : Z)
           (search : jsstring -> jsint -> M (list product)) : scraper :=
  fun query maxResults =>
    match fst (search query maxResults start) with
    | Ok products => mkRun (Returned products) elapsed
    | Err message => mkRun (Threw message) elapsed
    end.

(** What reaches one site, and how long its search takes. *)
Record site : Type := mkSite {
  axiosOf : nat -> answer;
  browserOf : nat -> answer;
  waitOf : nat -> Z;
  embeddedOf : jsstring -> jsint -> result (list rawResult);
  domOf : jsstring -> jsint -> result (list rawResult);
  elapsedOf : Z
}.

(** The registry of scrapers/index.js. *)
Definition liveRegistry (amazon flipkart myntra : site) : registry :=
  initializeScrapers
    (asScraper (elapsedOf amazon)
       (AmazonScraper.search (axiosOf amazon) (browserOf amazon)
                             (waitOf amazon) (domOf amazon)))
    (asScraper (elapsedOf flipkart)
       (FlipkartScraper.search (axiosOf flipkart) (browserOf flipkart)
                               (embeddedOf flipkart) (domOf flipkart)))
    (asScraper (elapsedOf myntra)
       (MyntraScraper.search (axiosOf myntra) (browserOf myntra)
                             (embeddedOf myntra) (domOf myntra))).

End LiveRegistry.

Module BlockedFacts.
Import ScraperRegistry RegistryOps LiveRegistry.

(** Every browser session of the site is answered with a page that is
    not empty and shorter than [n] characters. *)
Definition blockedBelow (n : nat) (s : site) : Prop :=
  forall i, exists page, browserOf s i = Content page /\ 0 < length page < n.

(** X23.  When all three sites answer a well-formed query with a small
    block page, the search service reports Amazon as a success with no
    product and no error, and Flipkart and Myntra as failures with their
    "returned empty/blocked response" messages; nothing is thrown, the
    total is 0 and there is no lowest price. *)
Theorem blocked_sites_reported_differently
        (amazon flipkart myntra : site) (clk : clock) (q : jsstring) (m : jsint) :
  Uri.isWellFormed q = true ->
  blockedBelow 500 amazon -> blockedBelow 500 flipkart -> blockedBelow 500 myntra ->
  let final := SearchService.searchAll (liveRegistry amazon flipkart myntra) clk q m in
  platforms final
  = [(js "amazon",
      mkPlatformData true true 0 [] None (elapsedOf amazon) (Some 0));
     (js "flipkart",
      mkPlatformData false true 0 []
        (Some (js "Flipkart returned empty/blocked response"))
        (elapsedOf flipkart) (Some 0));
     (js "myntra",
      mkPlatformData false true 0 []
        (Some (js "Myntra returned empty/blocked response"))
        (elapsedOf myntra) (Some 0))]
  /\ totalResults final = 0
  /\ lowestPrice final = None
  /\ sortedAllProducts final = Some [].
Proof.
  intros W HA HF HM final. subst final.
  assert (EA : asScraper (elapsedOf amazon)
                 (AmazonScraper.search (axiosOf amazon) (browserOf amazon)
                                       (waitOf amazon) (domOf amazon))
                 q (internalLimit m)
               = mkRun (Returned []) (elapsedOf amazon)).
  { unfold asScraper. rewrite AmazonFacts.search_wellFormed by exact W.
    unfold AmazonFacts.searchPages, bind at 1.
    destruct (@AmazonFacts.blocked_loop (axiosOf amazon) (browserOf amazon)
                (waitOf amazon)) as (last & E & U).
    - intros i _. destruct (HA i) as (page & Hp & L). exists page. split; [exact Hp | lia].
    - now rewrite E, U. }
  assert (EF : asScraper (elapsedOf flipkart)
                 (FlipkartScraper.search (axiosOf flipkart) (browserOf flipkart)
                                         (embeddedOf flipkart) (domOf flipkart))
                 q (internalLimit m)
               = mkRun (Threw (js "Flipkart returned empty/blocked response"))
                       (elapsedOf flipkart)).
  { unfold asScraper. destruct (HF 0) as (page & Hp & L).
    rewrite SinglePageFacts.flipkart_wellFormed by exact W.
    pose proof (SinglePageFacts.singlePageSearch_outcome
                  (axiosOf flipkart) (browserOf flipkart)
                  (embeddedOf flipkart) (domOf flipkart)
                  (js "flipkart") 1000
                  (fun e => js "Flipkart search failed: could not fetch search page ("
                            ++ e ++ js ")")
                  (js "Flipkart returned empty/blocked response") (internalLimit m))
      as (_ & _ & C & _).
    destruct (C page Hp) as (_ & B).
    unfold SinglePageFacts.flipkartPages. now rewrite B by lia. }
  assert (EM : asScraper (elapsedOf myntra)
                 (MyntraScraper.search (axiosOf myntra) (browserOf myntra)
                                       (embeddedOf myntra) (domOf myntra))
                 q (internalLimit m)
               = mkRun (Threw (js "Myntra returned empty/blocked response"))
                       (elapsedOf myntra)).
  { unfold asScraper. destruct (HM 0) as (page & Hp & L).
    rewrite SinglePageFacts.myntra_wellFormed by exact W.
    pose proof (SinglePageFacts.singlePageSearch_outcome
                  (axiosOf myntra) (browserOf myntra)
                  (embeddedOf myntra) (domOf myntra)
                  (js "myntra") 500
                  (fun e => js "Myntra search failed: could not fetch search page ("
                            ++ e ++ js ")")
                  (js "Myntra returned empty/blocked response") (internalLimit m))
      as (_ & _ & C & _).
    destruct (C page Hp) as (_ & B).
    unfold SinglePageFacts.myntraPages. now rewrite B by lia. }
  unfold liveRegistry.
  revert EA EF EM.
  generalize (asScraper (elapsedOf amazon)
                (AmazonScraper.search (axiosOf amazon) (browserOf amazon)
                                      (waitOf amazon) (domOf amazon))).
  generalize (asScraper (elapsedOf flipkart)
                (FlipkartScraper.search (axiosOf flipkart) (browserOf flipkart)
                                        (embeddedOf flipkart) (domOf flipkart))).
  generalize (asScraper (elapsedOf myntra)
                (MyntraScraper.search (axiosOf myntra) (browserOf myntra)
                                      (embeddedOf myntra) (domOf myntra))).
  intros sM sF sA EA EF EM.
  unfold SearchService.searchAll, searchAll.
  change (JsObject.keys (initializeScrapers sA sF sM))
    with [js "amazon"; js "flipkart"; js "myntra"].
  cbn [map]. unfold searchTask, searchPlatform.
  change (JsObject.get (initializeScrapers sA sF sM) (js "amazon")) with (Some sA).
  change (JsObject.get (initializeScrapers sA sF sM) (js "flipkart")) with (Some sF).
  change (JsObject.get (initializeScrapers sA sF sM) (js "myntra")) with (Some sM).
  cbv beta iota. rewrite EA, EF, EM. cbn [outcome elapsedMs].
  repeat split; vm_compute; reflexivity.
Qed.

Definition blockPage : nat -> answer :=
  fun _ => Content (js "<html>Enter the characters you see below</html>").

Definition blockedSite (elapsed : Z) : site :=
  mkSite (fun _ => Failure (js "timeout")) blockPage (fun _ => 3500%Z)
         (fun _ _ => Ok []) (fun _ _ => Ok []) elapsed.

Lemma blocked_sites_reported_differently_witness :
  totalResults
    (SearchService.searchAll
       (liveRegistry (blockedSite 9000) (blockedSite 4000) (blockedSite 4100))
       (mkClock (js "2026-01-01T00:00:00.000Z") 9100) (js "iphone 15") (Some 10%Z))
  = 0.
Proof.
  apply (@blocked_sites_reported_differently
           (blockedSite 9000) (blockedSite 4000) (blockedSite 4100)
           (mkClock (js "2026-01-01T00:00:00.000Z") 9100) (js "iphone 15") (Some 10%Z)).
  - reflexivity.
  - intros i. eexists. split; [reflexivity|]. cbn. lia.
  - intros i. eexists. split; [reflexivity|]. cbn. lia.
  - intros i. eexists. split; [reflexivity|]. cbn. lia.
Defined.

End BlockedFacts.

(* ================================================================== *)
(** * scrapers/index.js: the failure of one of the three sources *)
(* ================================================================== *)

Module SourceFailure.
Import ScraperRegistry RegistryOps LiveRegistry Uri.














End SourceFailure.

(* ================================================================== *)
(** * BaseScraper.js: [extractPrice] reads back a printed amount *)
(* ================================================================== *)

Module RoundTrip.
Import BaseScraper NumFacts.

(** A string of decimal digits. *)
Definition allDigits (s : jsstring) : Prop := Forall (fun c => isDigit c = true) s.

Lemma digit_range (c : N) : isDigit c = true -> (48 <= c <= 57)%N.
Proof.
  unfold isDigit, inRange. intros H. apply andb_true_iff in H as (H1 & H2).
  apply N.leb_le in H1, H2. lia.
Qed.

Lemma digit_not_space (c : N) : isDigit c = true -> isSpace c = false.
Proof.
  intros H. apply digit_range in H. unfold isSpace, inRange.
  repeat match goal with
         | |- context [(?a <=? ?b)%N] =>
             let E := fresh in destruct (N.leb_spec a b) as [E|E]
         | |- context [(?a =? ?b)%N] =>
             let E := fresh in destruct (N.eqb_spec a b) as [E|E]
         end; try reflexivity; lia.
Qed.

Lemma digit_neq (c k : N) :
  isDigit c = true -> (k < 48 \/ 57 < k)%N -> (c =? k)%N = false.
Proof. intros H Hk. apply digit_range in H. apply N.eqb_neq. lia. Qed.

Lemma filter_all (A : Type) (f : A -> bool) (l : list A) :
  Forall (fun x => f x = true) l -> filter f l = l.
Proof.
  induction 1 as [|x r Hx _ IH]; [reflexivity|]. cbn. now rewrite Hx, IH.
Qed.

Lemma dropWhile_none (f : N -> bool) (s : jsstring) :
  Forall (fun c => f c = false) s -> dropWhile f s = s.
Proof. destruct 1 as [|c r Hc _]; [reflexivity|]. cbn. now rewrite Hc. Qed.

Lemma takeWhile_all (f : N -> bool) (s : jsstring) :
  Forall (fun c => f c = true) s -> takeWhile f s = s /\ dropWhile f s = [].
Proof.
  induction 1 as [|c r Hc _ (IH1 & IH2)]; [split; reflexivity|].
  cbn. rewrite Hc, IH1, IH2. split; reflexivity.
Qed.

Lemma trim_none (s : jsstring) :
  Forall (fun c => isSpace c = false) s -> trim s = s.
Proof.
  intros H. unfold trim, trimStart, trimEnd.
  rewrite (dropWhile_none _ H), dropWhile_none.
  - apply rev_involutive.
  - apply Forall_rev. exact H.
Qed.

Lemma removeRs_digits (s : jsstring) : allDigits s -> removeRs 0 s = s.
Proof.
  induction 1 as [|c r Hc _ IH]; [reflexivity|].
  cbn [removeRs]. destruct r as [|c2 r2]; [reflexivity|].
  rewrite (@digit_neq _ 82 Hc), (@digit_neq _ 114 Hc) by lia.
  cbn [orb andb]. now rewrite IH.
Qed.

Lemma dropThousandDots_digits (s : jsstring) :
  allDigits s -> dropThousandDots 0 s = s.
Proof.
  induction 1 as [|c r Hc _ IH]; [reflexivity|].
  cbn [dropThousandDots].
  assert (T : thousandDotAt (c :: r) = false).
  { unfold thousandDotAt. apply digit_range in Hc.
    destruct c as [|p]; [lia|].
    destruct (N.eq_dec (N.pos p) 46) as [E|E]; [lia|].
    repeat (destruct p as [p|p|]; try reflexivity; try (exfalso; apply E; reflexivity)). }
  now rewrite T, IH.
Qed.

Lemma execAll_skips (f : jsstring -> option (jsstring * nat)) (s : jsstring)
      (skip : nat) :
  length s <= skip -> execAll f skip s = [].
Proof.
  revert skip. induction s as [|c r IH]; intros skip H; [reflexivity|].
  cbn [execAll]. destruct skip as [|k]; [cbn in H; lia|].
  apply IH. cbn in H. lia.
Qed.

Lemma execAll_no_match (f : jsstring -> option (jsstring * nat)) (s : jsstring) :
  (forall c r, isDigit c = true -> f (c :: r) = None) ->
  allDigits s -> execAll f 0 s = [].
Proof.
  intros Hf. induction 1 as [|c r Hc _ IH]; [reflexivity|].
  cbn [execAll]. now rewrite (Hf c r Hc).
Qed.

Lemma matchRupeeAt_digit (c : N) (r : jsstring) :
  isDigit c = true -> matchRupeeAt (c :: r) = None.
Proof.
  intros H. cbn [matchRupeeAt]. unfold rupee. now rewrite (@digit_neq _ 8377 H) by lia.
Qed.

Lemma matchRsAt_digit (c : N) (r : jsstring) :
  isDigit c = true -> matchRsAt (c :: r) = None.
Proof.
  intros H. cbn [matchRsAt]. destruct r as [|c2 r2]; [reflexivity|].
  now rewrite (@digit_neq _ 82 H), (@digit_neq _ 114 H) by lia.
Qed.

Lemma Qred_int (m : Z) : Qred (inject_Z m) = inject_Z m.
Proof.
  unfold Qred, inject_Z.
  pose proof (Z.ggcd_gcd m 1) as G.
  pose proof (Z.ggcd_correct_divisors m 1) as D.
  destruct (Z.ggcd m 1) as [g [aa bb]]. cbn [fst] in G.
  rewrite Z.gcd_1_r in G. subst g. destruct D as (D1 & D2).
  replace aa with m by lia. replace bb with 1%Z by lia. reflexivity.
Qed.

Lemma scale10_int (m : Z) : scale10 m 0 = inject_Z m.
Proof.
  unfold scale10. rewrite <- (Qred_int m) at 2. apply Qred_complete.
  cbn [Qpower]. apply Qmult_1_r.
Qed.

Lemma digit_cases (c : N) :
  isDigit c = true ->
  (c = 48 \/ c = 49 \/ c = 50 \/ c = 51 \/ c = 52 \/ c = 53 \/ c = 54
   \/ c = 55 \/ c = 56 \/ c = 57)%N.
Proof. intros H. apply digit_range in H. lia. Qed.

(** [parseFloat] on a run of digits. *)
Lemma parseFloat_digits (s : jsstring) :
  allDigits s -> s <> [] -> parseFloat s = ofZ (digitsValue s).
Proof.
  intros D NE.
  destruct (takeWhile_all isDigit D) as (T1 & T2).
  unfold parseFloat, trimStart.
  rewrite dropWhile_none
    by (apply Forall_forall; intros c Hc; apply digit_not_space;
        revert c Hc; now apply Forall_forall).
  destruct s as [|c r]; [congruence|].
  assert (Hc : isDigit c = true) by now inversion D.
  destruct (digit_cases c Hc) as [E|[E|[E|[E|[E|[E|[E|[E|[E|E]]]]]]]]]; subst c.
  all: cbv beta iota zeta.
  all: change (startsWith (js "Infinity") (_ :: r)) with false.
  all: cbv beta iota zeta.
  all: rewrite T1, T2, app_nil_r.
  all: change (0 - Z.of_nat (length (@nil N)))%Z with 0%Z.
  all: unfold ofZ; now rewrite scale10_int.
Qed.

(** The value read by [digitsValue] with [acc] already read. *)
Definition accValue (acc : Z) (d : Decimal.uint) : Z :=
  match acc with
  | Z0 => Z.of_N (Pos.of_uint d)
  | Zpos a => Zpos (Pos.of_uint_acc d a)
  | Zneg _ => 0%Z
  end.

Lemma fold_digits (d : Decimal.uint) (acc : Z) :
  (0 <= acc)%Z ->
  fold_left (fun a c => (a * 10 + (Z.of_N c - 48))%Z)
            (js (NilEmpty.string_of_uint d)) acc
  = accValue acc d.
Proof.
  revert acc. induction d as [|d IH|d IH|d IH|d IH|d IH|d IH|d IH|d IH|d IH|d IH];
    intros acc H; cbn [NilEmpty.string_of_uint js fold_left];
    [destruct acc; cbn; try reflexivity; lia | ..];
    match goal with
    | |- context [N_of_ascii ?a] =>
        let v := eval vm_compute in (N_of_ascii a) in
        change (N_of_ascii a) with v
    end;
    (rewrite IH by lia);
    (destruct acc as [|a|a]; [reflexivity | | lia]);
    cbn [accValue Pos.of_uint_acc];
    match goal with
    | |- accValue ?x _ = Zpos (Pos.of_uint_acc _ ?y) =>
        replace x with (Zpos y) by lia
    end; reflexivity.
Qed.

Lemma printed_digits (d : Decimal.uint) :
  allDigits (js (NilEmpty.string_of_uint d)).
Proof. induction d; cbn; constructor; auto. Qed.

(** The decimal digits of [n]: a non-empty run of digits whose value is
    [n]. *)
Lemma ofN_digits (n : N) :
  allDigits (ofN n) /\ ofN n <> [] /\ digitsValue (ofN n) = Z.of_N n.
Proof.
  unfold ofN, digitsValue.
  rewrite <- (DecimalN.Unsigned.of_to n) at 4.
  destruct (N.to_uint n) as [|d|d|d|d|d|d|d|d|d|d] eqn:E;
    [split; [repeat constructor | split; [discriminate | reflexivity]] | ..];
    (split; [apply printed_digits|]);
    (split; [discriminate|]);
    unfold NilZero.string_of_uint; rewrite fold_digits by lia; reflexivity.
Qed.

Lemma short_digits_small (s : jsstring) :
  allDigits s -> length s < 2 -> (digitsValue s < 100)%Z.
Proof.
  intros D L. destruct s as [|c [|c2 r]]; [cbn; lia | | cbn in L; lia].
  inversion D as [|? ? Hc _]; subst. apply digit_range in Hc.
  unfold digitsValue. cbn. lia.
Qed.

Lemma plainNumber_digits (s : jsstring) (pre : jsstring) :
  allDigits s -> s <> [] ->
  Forall (fun c => (c =? rupee)%N = true) pre ->
  plainNumber (pre ++ s)
  = if (digitsValue s <? 100)%Z then None else Some (ofZ (digitsValue s)).
Proof.
  intros D NE P. unfold plainNumber.
  assert (F : filter (fun c => negb ((c =? rupee) || (c =? 36) || (c =? 44))%N
                               && negb (isSpace c)) (pre ++ s) = s).
  { rewrite filter_app. replace (filter _ pre) with (@nil N).
    - cbn [app]. apply filter_all. apply Forall_forall. intros c Hc.
      assert (Hd : isDigit c = true) by (revert c Hc; now apply Forall_forall).
      unfold rupee.
      rewrite (@digit_neq _ 8377 Hd), (@digit_neq _ 36 Hd), (@digit_neq _ 44 Hd),
        (@digit_not_space _ Hd) by lia. reflexivity.
    - symmetry. clear -P. induction P as [|c r Hc _ IH]; [reflexivity|].
      cbn [filter]. now rewrite Hc. }
  rewrite F, removeRs_digits by assumption.
  rewrite trim_none
    by (apply Forall_forall; intros c Hc; apply digit_not_space;
        revert c Hc; now apply Forall_forall).
  destruct s as [|c r] eqn:Es; [congruence|]. rewrite <- Es in *.
  rewrite dropThousandDots_digits, parseFloat_digits by assumption.
  unfold ofZ, hundred, zero, ofZ. cbn [isNaN le lt orb].
  destruct (digitsValue s <? 100)%Z eqn:C.
  - apply Z.ltb_lt in C.
    destruct (Qle_bool (inject_Z (digitsValue s)) (inject_Z 0)); [reflexivity|].
    cbn [orb]. replace (Qle_bool (inject_Z 100) (inject_Z (digitsValue s))) with false;
      [reflexivity|].
    symmetry. apply not_true_iff_false. rewrite Qle_bool_iff, <- Zle_Qle. lia.
  - apply Z.ltb_ge in C.
    replace (Qle_bool (inject_Z (digitsValue s)) (inject_Z 0)) with false
      by (symmetry; apply not_true_iff_false; rewrite Qle_bool_iff, <- Zle_Qle; lia).
    replace (Qle_bool (inject_Z 100) (inject_Z (digitsValue s))) with true
      by (symmetry; rewrite Qle_bool_iff, <- Zle_Qle; lia).
    reflexivity.
Qed.

(** X24.  [extractPrice] reads back an amount printed in decimal digits:
    for a whole number n from 100 up to 2^53 (the whole numbers a
    JavaScript number holds exactly), the text of its digits gives n, and
    so does the same text after a rupee sign; for n below 100 both texts
    give null. *)
Theorem extractPrice_reads_back_digits (n : N) :
  (n <= 2 ^ 53)%N ->
  extractPrice (Some (ofN n))
  = (if (n <? 100)%N then None else Some (ofZ (Z.of_N n)))
  /\ extractPrice (Some (rupee :: ofN n))
     = (if (n <? 100)%N then None else Some (ofZ (Z.of_N n))).
Proof.
  intros _. destruct (ofN_digits n) as (D & NE & V).
  assert (NS : Forall (fun c => isSpace c = false) (ofN n)).
  { apply Forall_forall. intros c Hc. apply digit_not_space.
    revert c Hc. now apply Forall_forall. }
  assert (C : (digitsValue (ofN n) <? 100)%Z = (n <? 100)%N).
  { rewrite V. destruct (N.ltb_spec n 100), (Z.ltb_spec (Z.of_N n) 100); lia. }
  split.
  - unfold extractPrice. rewrite (trim_none NS).
    destruct (length (ofN n) <? 2) eqn:L.
    + apply Nat.ltb_lt in L. pose proof (short_digits_small D L) as S.
      rewrite V in S. replace (n <? 100)%N with true; [reflexivity|].
      symmetry. apply N.ltb_lt. lia.
    + unfold candidatePrices, symbolMatches.
      rewrite (@execAll_no_match matchRupeeAt (ofN n) matchRupeeAt_digit D),
        (@execAll_no_match matchRsAt (ofN n) matchRsAt_digit D).
      cbn [app map filter length Nat.ltb Nat.leb].
      pose proof (plainNumber_digits (pre := []) D NE (Forall_nil _)) as P.
      cbn [app] in P. now rewrite P, C, V.
  - unfold extractPrice.
    assert (NS' : Forall (fun c => isSpace c = false) (rupee :: ofN n))
      by (constructor; [reflexivity | exact NS]).
    rewrite (trim_none NS').
    destruct (ofN n) as [|c r] eqn:E; [congruence|]. rewrite <- E in *.
    replace (length (rupee :: ofN n) <? 2) with false
      by (rewrite E; reflexivity).
    assert (M : symbolMatches (rupee :: ofN n) = [ofZ (Z.of_N n)]).
    { unfold symbolMatches. cbn [execAll].
      assert (R : matchRupeeAt (rupee :: ofN n)
                  = Some (ofN n, 1 + 0 + length (ofN n))).
      { cbn [matchRupeeAt]. rewrite N.eqb_refl.
        rewrite (dropWhile_none _ NS).
        assert (TS : takeWhile isSpace (ofN n) = []).
        { rewrite E. cbn [takeWhile].
          inversion NS as [|? ? Hc _]; subst; try congruence.
          rewrite E in H. injection H as <- <-. now rewrite Hc. }
        rewrite TS. unfold matchAmount.
        assert (DC : Forall (fun c => isDigitOrComma c = true) (ofN n)).
        { apply Forall_forall. intros x Hx. unfold isDigitOrComma.
          assert (Hd : isDigit x = true) by (revert x Hx; now apply Forall_forall).
          now rewrite Hd. }
        destruct (takeWhile_all isDigitOrComma DC) as (T1 & T2). rewrite T1, T2.
        rewrite E. rewrite <- E. now rewrite app_nil_r. }
      rewrite R. cbn [Nat.add pred].
      rewrite (@execAll_skips matchRupeeAt (ofN n) _ (Nat.le_refl _)).
      assert (Rs : matchRsAt (rupee :: ofN n) = None) by (rewrite E; reflexivity).
      rewrite Rs, (@execAll_no_match matchRsAt (ofN n) matchRsAt_digit D).
      cbn [app map]. unfold captureValue.
      rewrite filter_all.
      - rewrite (parseFloat_digits D NE). now rewrite V.
      - apply Forall_forall. intros x Hx.
        assert (Hd : isDigit x = true) by (revert x Hx; now apply Forall_forall).
        now rewrite (@digit_neq _ 44 Hd) by lia. }
    unfold candidatePrices. rewrite M. cbn [filter isNaN ofZ andb negb].
    unfold ge, hundred, ofZ. cbn [le].
    destruct (N.ltb_spec n 100) as [Lt|Ge].
    + replace (Qle_bool (inject_Z 100) (inject_Z (Z.of_N n))) with false
        by (symmetry; apply not_true_iff_false; rewrite Qle_bool_iff, <- Zle_Qle; lia).
      cbn [length Nat.ltb Nat.leb].
      assert (P : plainNumber ([rupee] ++ ofN n)
                  = if (digitsValue (ofN n) <? 100)%Z then None
                    else Some (ofZ (digitsValue (ofN n)))).
      { apply plainNumber_digits; try assumption.
        constructor; [reflexivity | constructor]. }
      cbn [app] in P. now rewrite P, C.
    + replace (Qle_bool (inject_Z 100) (inject_Z (Z.of_N n))) with true
        by (symmetry; rewrite Qle_bool_iff, <- Zle_Qle; lia).
      reflexivity.
Qed.

Lemma extractPrice_reads_back_digits_witness :
  extractPrice (Some (js "79900")) = Some (ofZ 79900)
  /\ extractPrice (Some (rupee :: js "79900")) = Some (ofZ 79900).
Proof.
  apply (@extractPrice_reads_back_digits 79900%N). vm_compute. discriminate.
Defined.

End RoundTrip.

(* ================================================================== *)
(** * services/searchService.js: a limit that is 0 or not a number *)
(* ================================================================== *)

Module LimitFacts.
Import SearchService StepFacts FilterFacts RegistryFacts PipelineFacts.

Lemma retain_nothing (q : jsstring) (m : jsint) (rs : list product) :
  m = None \/ m = Some 0%Z -> retain q m rs = [].
Proof.
  intros H. unfold retain, filterAndRankProducts.
  destruct (ProductMatcher.deduplicateByWebsite _) as [|p r]; [reflexivity|].
  destruct H as [-> | ->]; reflexivity.
Qed.

Lemma flat_map_nil (A B : Type) (f : A -> list B) (l : list A) :
  (forall x, In x l -> f x = []) -> flat_map f l = [].
Proof.
  induction l as [|x r IH]; intros H; [reflexivity|].
  cbn. rewrite H by now left. apply IH. intros y Hy. apply H. now right.
Qed.

Lemma keptCount_zero (q : jsstring) (m : jsint) (entries : obj platformData) :
  m = None \/ m = Some 0%Z -> list_sum (map (keptCount q m) entries) = 0.
Proof.
  intros Hm. induction entries as [|kv r IH]; [reflexivity|].
  cbn [map list_sum fold_right]. unfold keptCount at 1.
  rewrite (retain_nothing q (results (snd kv)) Hm).
  destruct (allowed (fst kv)); exact IH.
Qed.

Lemma lowestAfter_unchanged (q : jsstring) (m : jsint)
      (entries : obj platformData) (low : option product) :
  m = None \/ m = Some 0%Z -> fold_left (lowestAfter q m) entries low = low.
Proof.
  intros Hm. induction entries as [|kv r IH]; [reflexivity|].
  cbn [fold_left]. unfold lowestAfter at 2.
  rewrite (retain_nothing q (results (snd kv)) Hm).
  destruct (allowed (fst kv)); exact IH.
Qed.

(** X25.  With a limit that is NaN (a [limit] parameter that is not a
    number) or 0, the search service keeps nothing: every entry is there
    with its status but without products, [rejectedCount] is all that the
    source returned, the total is 0, there is no lowest price, and
    [sortedAllProducts] is empty. *)
Theorem searchAll_keeps_nothing_without_limit
        (reg : ScraperRegistry.registry) (clk : ScraperRegistry.clock)
        (q : jsstring) (m : jsint) :
  m = None \/ m = Some 0%Z ->
  let final := searchAll reg clk q m in
  Forall (fun kv =>
            results (snd kv) = [] /\ count (snd kv) = 0
            /\ exists raw,
                In (fst kv, raw) (platforms (ScraperRegistry.searchAll reg clk q m))
                /\ success (snd kv) = success raw
                /\ rejectedCount (snd kv) = Some (length (results raw)))
         (platforms final)
  /\ totalResults final = 0
  /\ lowestPrice final = None
  /\ sortedAllProducts final = Some [].
Proof.
  intros Hm final.
  assert (P : platforms final
              = map (fun kv => (fst kv, sortedData (snd kv)))
                    (flat_map (filteredEntry q m)
                       (platforms (ScraperRegistry.searchAll reg clk q m))))
    by apply searchAll_platforms_closed.
  assert (Empty : Forall (fun kv =>
            results (snd kv) = [] /\ count (snd kv) = 0
            /\ exists raw,
                In (fst kv, raw) (platforms (ScraperRegistry.searchAll reg clk q m))
                /\ success (snd kv) = success raw
                /\ rejectedCount (snd kv) = Some (length (results raw)))
         (platforms final)).
  { rewrite P. apply Forall_forall. intros kv H.
    apply in_map_iff in H as ([k d] & <- & H).
    apply in_flat_map in H as ([k0 raw] & H0 & H).
    unfold filteredEntry in H. cbn [fst snd] in H.
    destruct (allowed k0); [|contradiction].
    destruct H as [[= <- <-]|[]].
    cbn [fst snd sortedData filteredData results count success rejectedCount].
    rewrite (retain_nothing q (results raw) Hm). cbn [length].
    split; [reflexivity|]. split; [reflexivity|].
    exists raw. rewrite Nat.sub_0_r. auto. }
  split; [exact Empty|].
  destruct (applyRelevanceFilter_closed
              (ScraperRegistry.searchAll reg clk q m) q m
              (searchAll_NoDup reg clk q m)) as (_ & T & L).
  split; [|split].
  - unfold final, searchAll, applySorting. cbn [totalResults]. rewrite T.
    now apply keptCount_zero.
  - unfold final, searchAll, applySorting. cbn [lowestPrice]. rewrite L.
    now apply lowestAfter_unchanged.
  - assert (S : sortedAllProducts final
                = Some (sortBy compareProducts
                          (flat_map (fun kv => results (snd kv)) (platforms final))))
      by reflexivity.
    rewrite S, flat_map_nil; [reflexivity|].
    intros kv H. rewrite Forall_forall in Empty. now destruct (Empty kv H).
Qed.

Lemma searchAll_keeps_nothing_without_limit_witness :
  totalResults (searchAll Demo.demoRegistry Demo.demoClock (js "iphone 15") None) = 0.
Proof.
  apply (@searchAll_keeps_nothing_without_limit
           Demo.demoRegistry Demo.demoClock (js "iphone 15") None).
  now left.
Defined.

End LimitFacts.

(* ================================================================== *)
(** * services/schedulerService.js *)
(* ================================================================== *)

Module SchedulerService.
Import JsObject.

(** The service and what it holds of node-cron.  A task is named by the
    order of its creation; [active] lists the tasks that were scheduled
    and not stopped since. *)
Record scheduler : Type := mkScheduler {
  jobs : obj nat;
  isRunning : bool;
  active : list nat;
  created : nat
}.

Definition initial : scheduler := mkScheduler [] false [] 0.

(** [job.stop()]. *)
Definition stopTask (job : nat) (tasks : list nat) : list nat :=
  filter (fun t => negb (t =? job)) tasks.

Record status : Type := mkStatus {
  running : bool;
  jobCount : nat;
  jobNames : list jsstring
}.

Section Cron.
(** [cron.validate]. *)
Variable validate : jsstring -> bool.

(** [scheduleJob(name, schedule, task)]. *)
Definition scheduleJob (s : scheduler) (name schedule : jsstring)
  : result nat * scheduler :=
  if negb (validate schedule)
  then (Err (js "Invalid cron expression: " ++ schedule), s)
  else
    let tasks :=
      match get (jobs s) name with
      | Some old => stopTask old (active s)
      | None => active s
      end in
    let job := created s in
    (Ok job,
     mkScheduler (set (jobs s) name job) (isRunning s) (tasks ++ [job])
                 (S (created s))).

(** [process.env.PRICE_UPDATE_SCHEDULE || '0 */6 * * *']. *)
Definition priceUpdateSchedule (env : option jsstring) : jsstring :=
  match env with
  | Some (c :: r) => c :: r
  | _ => js "0 */6 * * *"
  end.

(** [start()]. *)
Definition start (env : option jsstring) (s : scheduler)
  : result unit * scheduler :=
  if isRunning s then (Ok tt, s)
  else
    match scheduleJob s (js "priceUpdate") (priceUpdateSchedule env) with
    | (Err e, s1) => (Err e, s1)
    | (Ok _, s1) =>
        match scheduleJob s1 (js "cacheCleanup") (js "0 0 * * *") with
        | (Err e, s2) => (Err e, s2)
        | (Ok _, s2) =>
            (Ok tt, mkScheduler (jobs s2) true (active s2) (created s2))
        end
    end.

(** [stop()]. *)
Definition stop (s : scheduler) : scheduler :=
  mkScheduler []
              false
              (fold_left (fun tasks kv => stopTask (snd kv) tasks) (jobs s) (active s))
              (created s).

(** [getJob(name)]. *)
Definition getJob (s : scheduler) (name : jsstring) : option nat :=
  get (jobs s) name.

(** [removeJob(name)]. *)
Definition removeJob (s : scheduler) (name : jsstring) : bool * scheduler :=
  match get (jobs s) name with
  | Some job =>
      (true,
       mkScheduler (delete (jobs s) name) (isRunning s)
                   (stopTask job (active s)) (created s))
  | None => (false, s)
  end.

(** [getStatus()]. *)
Definition getStatus (s : scheduler) : status :=
  mkStatus (isRunning s) (length (jobs s)) (keys (jobs s)).

(** A call of one of the methods that change the service. *)
Inductive call : Type :=
| Start (env : option jsstring)
| Stop
| ScheduleJob (name schedule : jsstring)
| RemoveJob (name : jsstring).

Definition step (s : scheduler) (c : call) : scheduler :=
  match c with
  | Start env => snd (start env s)
  | Stop => stop s
  | ScheduleJob name schedule => snd (scheduleJob s name schedule)
  | RemoveJob name => snd (removeJob s name)
  end.

Definition run (calls : list call) : scheduler := fold_left step calls initial.

End Cron.
End SchedulerService.

Module SchedulerFacts.
Import JsObject SchedulerService JsFacts StepFacts RegistryFacts RegistryOpsFacts.

(** The table and node-cron agree: the tasks still scheduled are the
    tasks of the table, each once. *)
Definition tracked (s : scheduler) : Prop :=
  NoDup (keys (jobs s))
  /\ NoDup (values (jobs s))
  /\ NoDup (active s)
  /\ (forall t, In t (active s) <-> In t (values (jobs s)))
  /\ Forall (fun t => t < created s) (values (jobs s)).

Lemma stopTask_In (job t : nat) (tasks : list nat) :
  In t (stopTask job tasks) <-> In t tasks /\ t <> job.
Proof.
  unfold stopTask. rewrite filter_In, negb_true_iff, Nat.eqb_neq. reflexivity.
Qed.

Lemma stopTask_NoDup (job : nat) (tasks : list nat) :
  NoDup tasks -> NoDup (stopTask job tasks).
Proof. apply NoDup_filter. Qed.

Lemma get_value (o : obj nat) (k : jsstring) (v : nat) :
  get o k = Some v -> In v (values o).
Proof.
  intros H. apply get_In in H. unfold values. apply in_map_iff. now exists (k, v).
Qed.

(** The values of the table after [jobs.set(k, v)] for a fresh [v]. *)
Lemma set_values (o : obj nat) (k : jsstring) (v : nat) :
  NoDup (values o) -> ~ In v (values o) ->
  NoDup (values (set o k v))
  /\ forall t, In t (values (set o k v))
               <-> t = v \/ (In t (values o) /\ get o k <> Some t).
Proof.
  induction o as [|[k' v'] r IH]; intros ND NI.
  - cbn. split; [constructor; [tauto | constructor]|].
    intros t. split; [intros [<-|[]]; now left | intros [->|([] & _)]; now left].
  - cbn [values map snd In] in ND, NI. inversion ND as [|? ? Hv Hr]; subst.
    cbn [set get]. destruct (JsString.eqb k' k) eqn:E.
    + cbn [values map snd]. split.
      * constructor; [tauto | exact Hr].
      * intros t. split.
        -- intros [<-|H]; [now left|]. right. split; [now right|].
           intros [= ->]. contradiction.
        -- intros [->|([<-|H] & G)]; [now left | congruence | now right].
    + destruct IH as (IH1 & IH2); [exact Hr | tauto |].
      cbn [values map snd]. fold (values (set r k v)). fold (values r). split.
      * constructor; [|exact IH1]. rewrite IH2. intros [->|(H & _)]; tauto.
      * intros t. split.
        -- intros [<-|H].
           ++ right. split; [now left|]. intros G. apply get_value in G. contradiction.
           ++ apply IH2 in H as [->|(H & G)]; [now left|]. right. split; [now right | exact G].
        -- intros [->|([<-|H] & G)].
           ++ right. apply IH2. now left.
           ++ now left.
           ++ right. apply IH2. right. split; assumption.
Qed.

(** The values of the table after [jobs.delete(k)]. *)
Lemma delete_values (o : obj nat) (k : jsstring) :
  NoDup (keys o) -> NoDup (values o) ->
  NoDup (values (delete o k))
  /\ forall t, In t (values (delete o k))
               <-> In t (values o) /\ get o k <> Some t.
Proof.
  induction o as [|[k' v'] r IH]; intros NK NV.
  - cbn. split; [constructor|]. intros t. tauto.
  - cbn [keys values map fst snd] in NK, NV.
    inversion NK as [|? ? Hk Hkr]; subst. inversion NV as [|? ? Hv Hvr]; subst.
    destruct (IH Hkr Hvr) as (IH1 & IH2).
    unfold delete. cbn [filter fst get]. fold (delete r k).
    destruct (JsString.eqb k' k) eqn:E; cbn [negb].
    + apply str_eqb_eq in E. subst k'.
      rewrite (delete_absent r k Hk). split; [exact Hvr|].
      intros t. cbn [values map snd]. fold (values r). split.
      * intros H. split; [now right|]. intros [= ->]. contradiction.
      * intros ([<-|H] & G); [congruence | exact H].
    + cbn [values map snd]. fold (values (delete r k)). fold (values r). split.
      * constructor; [|exact IH1]. rewrite IH2. tauto.
      * intros t. split.
        -- intros [<-|H].
           ++ split; [now left|]. intros G. apply get_value in G. contradiction.
           ++ apply IH2 in H as (H & G). split; [now right | exact G].
        -- intros ([<-|H] & G); [now left|]. right. apply IH2. split; assumption.
Qed.

Lemma stop_all_In (table : obj nat) (tasks : list nat) (t : nat) :
  In t (fold_left (fun tasks kv => stopTask (snd kv) tasks) table tasks)
  <-> In t tasks /\ ~ In t (values table).
Proof.
  revert tasks. induction table as [|[k v] r IH]; intros tasks.
  - cbn. tauto.
  - cbn [fold_left snd values map]. fold (values r).
    rewrite IH, stopTask_In. cbn [In]. split.
    + intros ((H1 & H2) & H3). split; [exact H1|]. intros [<-|H]; tauto.
    + intros (H1 & H2). repeat split; auto.
Qed.

Lemma Forall_lt_S (l : list nat) (n : nat) :
  Forall (fun t => t < n) l -> Forall (fun t => t < S n) l.
Proof. apply Forall_impl. intros t H. lia. Qed.

Section Invariant.
Variable validate : jsstring -> bool.

Lemma scheduleJob_tracked (s : scheduler) (name schedule : jsstring) :
  tracked s -> tracked (snd (scheduleJob validate s name schedule)).
Proof.
  intros (NK & NV & NA & Same & Old). unfold scheduleJob.
  destruct (validate schedule); cbn [negb snd]; [|repeat split; auto; apply Same].
  assert (Fresh : ~ In (created s) (values (jobs s))).
  { intros H. rewrite Forall_forall in Old. specialize (Old _ H). lia. }
  destruct (set_values (jobs s) name (created s) NV Fresh) as (NV' & Vals).
  unfold tracked. cbn [jobs active created].
  split; [now apply set_keys_NoDup|]. split; [exact NV'|].
  assert (Tasks : forall t,
             In t (match get (jobs s) name with
                   | Some old => stopTask old (active s)
                   | None => active s
                   end)
             <-> In t (values (jobs s)) /\ get (jobs s) name <> Some t).
  { intros t. destruct (get (jobs s) name) as [old|] eqn:G.
    - rewrite stopTask_In, Same. split; intros (H1 & H2); split; auto; congruence.
    - rewrite Same. split; [intros H; split; [exact H | discriminate] | tauto]. }
  split; [|split].
  - apply NoDup_app; repeat split.
    + destruct (get (jobs s) name); [now apply stopTask_NoDup | exact NA].
    + constructor; [tauto | constructor].
    + intros t H [<-|[]]. apply Tasks in H. tauto.
  - intros t. rewrite in_app_iff, Tasks, Vals. cbn [In]. split.
    + intros [H|[<-|[]]]; [now right | now left].
    + intros [->|H]; [right; now left | now left].
  - apply Forall_forall. intros t H. apply Vals in H as [->|(H & _)]; [lia|].
    rewrite Forall_forall in Old. specialize (Old _ H). lia.
Qed.

Lemma removeJob_tracked (s : scheduler) (name : jsstring) :
  tracked s -> tracked (snd (removeJob s name)).
Proof.
  intros (NK & NV & NA & Same & Old). unfold removeJob.
  destruct (get (jobs s) name) as [job|] eqn:G; cbn [snd];
    [|repeat split; auto; apply Same].
  destruct (@delete_values (jobs s) name NK NV) as (NV' & Vals).
  unfold tracked. cbn [jobs active created].
  split; [rewrite delete_keys; now apply NoDup_filter|].
  split; [exact NV'|]. split; [now apply stopTask_NoDup|]. split.
  - intros t. rewrite stopTask_In, Vals, Same, G.
    split; intros (H1 & H2); split; auto; congruence.
  - apply Forall_forall. intros t H. apply Vals in H as (H & _).
    rewrite Forall_forall in Old. now apply Old.
Qed.

Lemma stop_empty (s : scheduler) :
  tracked s -> stop s = mkScheduler [] false [] (created s).
Proof.
  intros (_ & _ & _ & Same & _). unfold stop. f_equal.
  destruct (fold_left _ (jobs s) (active s)) as [|t r] eqn:E; [reflexivity|].
  assert (H : In t (fold_left (fun tasks kv => stopTask (snd kv) tasks)
                              (jobs s) (active s))) by (rewrite E; now left).
  apply stop_all_In in H as (H1 & H2). apply Same in H1. contradiction.
Qed.

Lemma tracked_empty (n : nat) : tracked (mkScheduler [] false [] n).
Proof.
  unfold tracked. cbn. repeat split; try constructor; tauto.
Qed.

Lemma start_tracked (env : option jsstring) (s : scheduler) :
  tracked s -> tracked (snd (start validate env s)).
Proof.
  intros T. unfold start. destruct (isRunning s); [exact T|].
  pose proof (@scheduleJob_tracked s (js "priceUpdate") (priceUpdateSchedule env) T) as T1.
  destruct (scheduleJob validate s (js "priceUpdate") (priceUpdateSchedule env))
    as [[j1|e1] s1]; cbn [snd] in *; [|exact T1].
  pose proof (@scheduleJob_tracked s1 (js "cacheCleanup") (js "0 0 * * *") T1) as T2.
  destruct (scheduleJob validate s1 (js "cacheCleanup") (js "0 0 * * *"))
    as [[j2|e2] s2]; cbn [snd] in *; [|exact T2].
  exact T2.
Qed.

Lemma step_tracked (s : scheduler) (c : call) :
  tracked s -> tracked (step validate s c).
Proof.
  intros T. destruct c as [env| |name schedule|name]; cbn [step].
  - now apply start_tracked.
  - rewrite (@stop_empty s T). apply tracked_empty.
  - now apply scheduleJob_tracked.
  - now apply removeJob_tracked.
Qed.

Lemma run_tracked (calls : list call) (s : scheduler) :
  tracked s -> tracked (fold_left (step validate) calls s).
Proof.
  revert s. induction calls as [|c r IH]; intros s T; [exact T|].
  cbn [fold_left]. apply IH. now apply step_tracked.
Qed.

(** X26.  Whatever methods of the scheduler are called, in whatever
    order and with whatever cron expressions: the cron tasks still
    scheduled are exactly the tasks of the job table, each once, so no
    task keeps firing after it was replaced or removed; [jobCount] is
    their number and the names are distinct; and [stop()] then leaves no
    task scheduled, an empty table and [running = false]. *)
Theorem scheduler_tracks_its_tasks (calls : list call) :
  let s := run validate calls in
  NoDup (active s)
  /\ (forall t, In t (active s) <-> exists name, getJob s name = Some t)
  /\ jobCount (getStatus s) = length (active s)
  /\ NoDup (jobNames (getStatus s))
  /\ active (stop s) = []
  /\ getStatus (stop s) = mkStatus false 0 [].
Proof.
  intros s.
  assert (T : tracked s) by (apply run_tracked, tracked_empty).
  destruct T as (NK & NV & NA & Same & Old).
  split; [exact NA|]. split; [|split; [|split; [exact NK|]]].
  - intros t. rewrite Same. unfold getJob. split.
    + intros H. apply in_map_iff in H as ([k v] & <- & H). exists k.
      cbn [snd]. clear -H NK. induction (jobs s) as [|[k' v'] r IH]; [destruct H|].
      cbn [keys map fst] in NK. inversion NK as [|? ? Hk Hr]; subst.
      cbn [get]. destruct H as [[= -> ->]|H]; [now rewrite str_eqb_refl|].
      destruct (JsString.eqb k' k) eqn:E; [|now apply IH].
      apply str_eqb_eq in E. subst k'. exfalso. apply Hk.
      apply in_map_iff. now exists (k, v).
    + intros (name & H). now apply get_value in H.
  - cbn [getStatus jobCount]. unfold values in *.
    rewrite <- (length_map snd (jobs s)). symmetry.
    apply Permutation_length, NoDup_Permutation; assumption.
  - rewrite (@stop_empty s (conj NK (conj NV (conj NA (conj Same Old))))).
    split; reflexivity.
Qed.

(** X27.  [start()] on a scheduler that is not running: with an invalid
    expression in PRICE_UPDATE_SCHEDULE it throws "Invalid cron
    expression: ..." and changes nothing, the scheduler staying stopped;
    with valid expressions it ends running, with the jobs priceUpdate and
    cacheCleanup in the table, both scheduled.  On a scheduler that is
    running it does nothing at all. *)
Theorem start_outcome (env : option jsstring) (s : scheduler) :
  tracked s ->
  (isRunning s = true -> start validate env s = (Ok tt, s))
  /\ (isRunning s = false -> validate (priceUpdateSchedule env) = false ->
      start validate env s
      = (Err (js "Invalid cron expression: " ++ priceUpdateSchedule env), s))
  /\ (isRunning s = false -> validate (priceUpdateSchedule env) = true ->
      validate (js "0 0 * * *") = true ->
      let after := snd (start validate env s) in
      fst (start validate env s) = Ok tt
      /\ isRunning after = true
      /\ getJob after (js "priceUpdate") = Some (created s)
      /\ getJob after (js "cacheCleanup") = Some (S (created s))
      /\ In (created s) (active after)
      /\ In (S (created s)) (active after)).
Proof.
  intros T. split; [|split].
  - intros R. unfold start. now rewrite R.
  - intros R V. unfold start, scheduleJob. now rewrite R, V.
  - intros R V1 V2 after. subst after.
    unfold start. rewrite R. unfold scheduleJob at 1 3 5 7 9 11. rewrite V1.
    cbn [negb]. unfold scheduleJob. cbn [jobs isRunning active created].
    rewrite V2. cbn [negb fst snd jobs isRunning active created getJob].
    split; [reflexivity|]. split; [reflexivity|].
    unfold getJob. cbn [jobs active].
    assert (D : js "priceUpdate" <> js "cacheCleanup") by discriminate.
    assert (D' : js "cacheCleanup" <> js "priceUpdate") by discriminate.
    split; [|split; [|split]].
    + rewrite get_set_other by exact D. apply get_set_same.
    + apply get_set_same.
    + rewrite get_set_other by exact D'.
      destruct (get (jobs s) (js "cacheCleanup")) as [old|] eqn:G.
      * apply in_app_iff. left. apply stopTask_In.
        split; [apply in_app_iff; right; now left|].
        intros E. subst old. apply get_value in G.
        destruct T as (_ & _ & _ & _ & Old). rewrite Forall_forall in Old.
        specialize (Old _ G). lia.
      * apply in_app_iff. left. apply in_app_iff. right. now left.
    + apply in_app_iff. right. now left.
Qed.

End Invariant.

Lemma start_outcome_witness :
  isRunning (snd (start (fun _ => true) None initial)) = true.
Proof.
  apply (@start_outcome (fun _ => true) None initial (tracked_empty 0));
    reflexivity.
Defined.

End SchedulerFacts.

(* ================================================================== *)
(** * services/searchService.js: the search of one platform *)
(* ================================================================== *)

Module PlatformSearch.
Import SearchService.

(** What [searchPlatform] resolves to. *)
Record platformSearch : Type := mkPlatformSearch {
  ps_platform : jsstring;
  ps_query : jsstring;
  ps_results : list product;
  ps_searchedAt : jsstring
}.

(** [searchPlatform(platform, searchQuery, maxResults)]; the catch block
    logs the error and throws it again.  [now] is
    [new Date().toISOString()]. *)
Definition searchPlatform (reg : ScraperRegistry.registry) (now : jsstring)
           (platform searchQuery : jsstring) (maxResults : jsint)
  : result platformSearch :=
  match outcome (ScraperRegistry.searchPlatform reg platform searchQuery maxResults) with
  | Returned rawResults =>
      Ok (mkPlatformSearch platform searchQuery
            (filterAndRankProducts rawResults searchQuery maxResults) now)
  | Threw message => Err message
  end.

End PlatformSearch.

Module PlatformSearchFacts.
Import SearchService PlatformSearch JsFacts StepFacts RankFacts.

Lemma positive_not_rejected (a : jsnum) :
  gt a zero = true -> negb (le a zero) = true.
Proof. destruct a; cbn; try discriminate; auto. Qed.

(** With a limit that covers the whole list, ranking drops nothing but
    the rejected products. *)
Lemma filterAndRankProducts_complete (products : list product) (q : jsstring)
      (limit : Z) (p : product) :
  (Z.of_nat (length products) <= limit)%Z ->
  In p products -> gt (scoreOf q p) zero = true ->
  In p (filterAndRankProducts products q (Some limit)).
Proof.
  intros L H G. rewrite filterAndRankProducts_ranked.
  apply in_map_iff. exists (p, scoreOf q p). split; [reflexivity|].
  assert (R : In (p, scoreOf q p) (ranked products q)).
  { unfold ranked. apply sortBy_In, filter_In. split.
    - apply in_map_iff. now exists p.
    - cbn [snd]. now apply positive_not_rejected. }
  unfold JsObject.slice0.
  replace (limit <? 0)%Z with false by (symmetry; apply Z.ltb_ge; lia).
  rewrite firstn_all2; [exact R|].
  unfold ranked. rewrite sortBy_length.
  pose proof (filter_length_le (fun item : product * jsnum => negb (le (snd item) zero))
                (map (fun p => (p, scoreOf q p)) products)) as F.
  rewrite length_map in F. lia.
Qed.

(** X28.  The search of one platform through the search service: a
    platform that is not registered gives the error "No scraper found for
    platform: ..."; an error of the scraper is thrown again as it is
    (nothing is turned into an entry, as the search of all platforms
    does); and when the scraper returns, the answer names the platform and
    the query and holds products the scraper returned with a score above
    0, at most [maxResults] of them (for a limit that is not negative).
    Apart from the limit, only rejected products are left out: there is
    no price check, no deduplication and no cap of five here. *)
Theorem searchPlatform_outcome
        (reg : ScraperRegistry.registry) (now platform q : jsstring) (m : jsint) :
  (~ In platform (JsObject.keys reg) ->
   searchPlatform reg now platform q m
   = Err (js "No scraper found for platform: " ++ platform))
  /\ (forall s e,
        JsObject.get reg platform = Some s -> outcome (s q m) = Threw e ->
        searchPlatform reg now platform q m = Err e)
  /\ (forall s raw,
        JsObject.get reg platform = Some s -> outcome (s q m) = Returned raw ->
        exists r,
          searchPlatform reg now platform q m = Ok r
          /\ ps_platform r = platform /\ ps_query r = q /\ ps_searchedAt r = now
          /\ (forall p, In p (ps_results r) ->
                        In p raw /\ gt (scoreOf q p) zero = true)
          /\ (forall limit, m = Some limit -> (0 <= limit)%Z ->
                            length (ps_results r) <= Z.to_nat limit)
          /\ (forall limit p,
                m = Some limit -> (Z.of_nat (length raw) <= limit)%Z ->
                In p raw -> gt (scoreOf q p) zero = true ->
                In p (ps_results r))).
Proof.
  split; [|split].
  - intros H. unfold searchPlatform, ScraperRegistry.searchPlatform.
    now rewrite (get_None reg platform H).
  - intros s e G O. unfold searchPlatform, ScraperRegistry.searchPlatform.
    now rewrite G, O.
  - intros s raw G O. unfold searchPlatform, ScraperRegistry.searchPlatform.
    rewrite G, O. eexists. split; [reflexivity|]. cbn [ps_platform ps_query ps_searchedAt ps_results].
    split; [reflexivity|]. split; [reflexivity|]. split; [reflexivity|].
    split; [|split].
    + intros p H. split; [now apply filterAndRankProducts_In in H|].
      rewrite filterAndRankProducts_ranked in H.
      apply in_map_iff in H as (item & <- & H). apply slice0_In in H.
      apply ranked_item in H as (_ & E & L).
      rewrite <- positive_when_not_rejected, <- E, L. reflexivity.
    + intros limit -> H. now apply filterAndRankProducts_bound.
    + intros limit p -> L H P. now apply filterAndRankProducts_complete.
Qed.

End PlatformSearchFacts.

(* ================================================================== *)
(** * utils/productMatcher.js: [selectBestMatch] *)
(* ================================================================== *)

Module BestMatch.

(** [s.split(/\s+/)]: the pieces between the runs of white space; white
    space at either end leaves an empty piece there.  [inRun] tells that
    the code unit before was white space. *)
Fixpoint splitRuns (s : jsstring) (inRun : bool) : list jsstring :=
  match s with
  | [] => [[]]
  | c :: r =>
      if isSpace c
      then if inRun then splitRuns r true else [] :: splitRuns r true
      else match splitRuns r false with
           | w :: ws => (c :: w) :: ws
           | [] => [[c]]
           end
  end.

(** [p.price || Infinity]. *)
Definition priceOrInfinity (p : product) : jsnum :=
  if priceTruthy (price p) then priceNumber (price p) else PInf.

Definition availabilityRank (p : product) : Z :=
  if strictEqTrue (availability p) || strictEqStr (availability p) (js "available")
  then 0%Z else 1%Z.

(** The comparator of the sort: the price, then the availability. *)
Definition bestFirst (a b : product) : jsnum :=
  if negb (JsNum.eqb (priceOrInfinity a) (priceOrInfinity b))
  then sub (priceOrInfinity a) (priceOrInfinity b)
  else ofZ (availabilityRank a - availabilityRank b).

Section Lower.
(** [String.prototype.toLowerCase], on any text. *)
Variable lower : jsstring -> jsstring.

(** [selectBestMatch(products, searchQuery)]. *)
Definition selectBestMatch (products : list product) (searchQuery : jsstring)
  : option product :=
  match products with
  | [] => None
  | [only] => Some only
  | first :: _ =>
      let queryWords :=
        filter (fun w => 2 <? length w) (splitRuns (lower searchQuery) false) in
      let titleLower := lower (title first) in
      if negb (existsb (fun word => includes titleLower word) queryWords)
      then None
      else hd_error (sortBy bestFirst products)
  end.

End Lower.
End BestMatch.

Module BestMatchFacts.
Import BestMatch JsFacts NumFacts SortedFacts.

Lemma priceOrInfinity_number (p : product) : isNaN (priceOrInfinity p) = false.
Proof.
  unfold priceOrInfinity. destruct (price p) as [| |[| | |x]]; try reflexivity.
  cbn [priceTruthy priceNumber truthy]. now destruct (negb (Qeq_bool x 0)).
Qed.

Lemma number_le_refl (a : jsnum) : isNaN a = false -> le a a = true.
Proof.
  destruct a as [| | |x]; cbn; try discriminate; try reflexivity.
  intros _. apply Qle_bool_iff. apply Qle_refl.
Qed.

Lemma sub_after (a b : jsnum) :
  isNaN a = false -> isNaN b = false ->
  gt (sub a b) zero = true -> le b a = true.
Proof.
  destruct a as [| | |x], b as [| | |y]; cbn -[Qred Qminus];
    try discriminate; try reflexivity.
  intros _ _ H. qsolve.
Qed.

Lemma sub_before (a b : jsnum) :
  isNaN a = false -> isNaN b = false ->
  gt (sub a b) zero = false -> le a b = true.
Proof.
  destruct a as [| | |x], b as [| | |y]; cbn -[Qred Qminus];
    try discriminate; try reflexivity.
  intros _ _ H. qsolve.
Qed.

(** [a] is listed no later than [b] by price. *)
Definition noDearer (a b : product) : Prop :=
  le (priceOrInfinity a) (priceOrInfinity b) = true.

Lemma bestFirst_after (a b : product) :
  True -> True -> gt (bestFirst a b) zero = true -> noDearer b a.
Proof.
  intros _ _. unfold bestFirst, noDearer.
  destruct (JsNum.eqb (priceOrInfinity a) (priceOrInfinity b)) eqn:E; cbn [negb].
  - intros _. now apply eqb_ge.
  - apply sub_after; apply priceOrInfinity_number.
Qed.

Lemma bestFirst_before (a b : product) :
  True -> True -> gt (bestFirst a b) zero = false -> noDearer a b.
Proof.
  intros _ _. unfold bestFirst, noDearer.
  destruct (JsNum.eqb (priceOrInfinity a) (priceOrInfinity b)) eqn:E; cbn [negb].
  - intros _. now apply eqb_le.
  - apply sub_before; apply priceOrInfinity_number.
Qed.

Lemma noDearer_trans (a b c : product) :
  noDearer a b -> noDearer b c -> noDearer a c.
Proof. unfold noDearer. apply le_trans. Qed.

Lemma sortBy_bestFirst (l : list product) :
  StronglySorted noDearer (sortBy bestFirst l).
Proof.
  apply (@sortBy_sorted product bestFirst (fun _ => True) noDearer
           bestFirst_after bestFirst_before noDearer_trans).
  apply Forall_forall. auto.
Qed.

Section Lower.
Variable lower : jsstring -> jsstring.

(** X29.  [selectBestMatch]: no product gives null; a single product is
    returned as it is, whatever the query; for two products or more the
    answer is null exactly when no word of the query longer than two
    characters occurs in the title of the first product (the others are
    not looked at), and otherwise it is a product of the list than which
    none is cheaper, a price that is missing, null or 0 counting as
    infinite. *)
Theorem selectBestMatch_cheapest (products : list product) (q : jsstring) :
  selectBestMatch lower [] q = None
  /\ (forall only, selectBestMatch lower [only] q = Some only)
  /\ (forall best,
        selectBestMatch lower products q = Some best ->
        In best products
        /\ forall p, In p products ->
                     le (priceOrInfinity best) (priceOrInfinity p) = true)
  /\ (forall first second rest,
        products = first :: second :: rest ->
        (selectBestMatch lower products q = None
         <-> existsb (fun word => includes (lower (title first)) word)
                     (filter (fun w => 2 <? length w)
                             (splitRuns (lower q) false)) = false)).
Proof.
  split; [reflexivity|]. split; [reflexivity|]. split.
  - intros best H.
    assert (Least : forall l b,
               hd_error (sortBy bestFirst l) = Some b ->
               In b l /\ forall p, In p l -> noDearer b p).
    { intros l b Hb. pose proof (sortBy_bestFirst l) as S.
      destruct (sortBy bestFirst l) as [|h t] eqn:E; [discriminate|].
      injection Hb as ->.
      assert (Hin : forall x, In x l <-> In x (b :: t))
        by (intros x; rewrite <- E; symmetry; apply sortBy_In).
      split; [apply Hin; now left|].
      intros p Hp. apply Hin in Hp as [<-|Hp].
      - apply number_le_refl, priceOrInfinity_number.
      - inversion S as [|? ? _ F]; subst. rewrite Forall_forall in F. now apply F. }
    destruct products as [|first [|second rest]]; [discriminate | |].
    + injection H as <-. split; [now left|].
      intros p [<-|[]]. apply number_le_refl, priceOrInfinity_number.
    + cbn [selectBestMatch] in H.
      destruct (negb (existsb _ _)); [discriminate|]. now apply Least.
  - intros first second rest ->. cbn [selectBestMatch].
    destruct (existsb _ _) eqn:E; cbn [negb].
    + split; [|discriminate].
      destruct (sortBy bestFirst (first :: second :: rest)) as [|h t] eqn:S;
        [|discriminate].
      pose proof (sortBy_length bestFirst (first :: second :: rest)) as L.
      rewrite S in L. discriminate L.
    + split; reflexivity.
Qed.

End Lower.
End BestMatchFacts.

(* ================================================================== *)
(** * services/searchService.js: the normalized text and its tokens *)
(* ================================================================== *)

Module NormalizeFacts.
Import ProductMatcher SearchService JsFacts.

(** A lower-case letter, a digit or the space. *)
Definition wordUnit (c : N) : Prop := isLowerOrDigit c = true \/ c = 32%N.

(** The string does not start with white space. *)
Definition startsClean (s : jsstring) : Prop :=
  match s with
  | c :: _ => isSpace c = false
  | [] => True
  end.

(** No white space is followed by white space. *)
Fixpoint singleSpaced (s : jsstring) : Prop :=
  match s with
  | c :: r =>
      match r with
      | d :: _ => (isSpace c = true -> isSpace d = false) /\ singleSpaced r
      | [] => True
      end
  | [] => True
  end.

(** The shape of a normalized text. *)
Definition tidy (s : jsstring) : Prop :=
  Forall wordUnit s /\ singleSpaced s /\ startsClean s /\ startsClean (rev s).

Lemma lowerOrDigit_range (c : N) :
  isLowerOrDigit c = true -> (48 <= c <= 57 \/ 97 <= c <= 122)%N.
Proof.
  unfold isLowerOrDigit, isLower, isDigit, inRange. intros H.
  apply orb_true_iff in H as [H|H]; apply andb_true_iff in H as (H1 & H2);
    apply N.leb_le in H1, H2; lia.
Qed.

Lemma lowerOrDigit_not_space (c : N) :
  isLowerOrDigit c = true -> isSpace c = false.
Proof.
  intros H. apply lowerOrDigit_range in H. unfold isSpace, inRange.
  repeat match goal with
         | |- context [(?a <=? ?b)%N] =>
             let E := fresh in destruct (N.leb_spec a b) as [E|E]
         | |- context [(?a =? ?b)%N] =>
             let E := fresh in destruct (N.eqb_spec a b) as [E|E]
         end; try reflexivity; lia.
Qed.

Lemma wordUnit_space (c : N) : wordUnit c -> isSpace c = true -> c = 32%N.
Proof.
  intros [H|H] S; [|exact H]. apply lowerOrDigit_not_space in H. congruence.
Qed.

Lemma wordUnit_kept (c : N) :
  wordUnit c -> isLowerOrDigit c || isSpace c = true.
Proof. intros [H| ->]; [now rewrite H | reflexivity]. Qed.

Lemma lowerUnit_wordUnit (c : N) : wordUnit c -> lowerUnit c = [c].
Proof.
  intros H. unfold lowerUnit, isUpper, inRange.
  assert (R : (48 <= c <= 57 \/ 97 <= c <= 122 \/ c = 32)%N).
  { destruct H as [H| ->]; [apply lowerOrDigit_range in H; lia | lia]. }
  repeat match goal with
         | |- context [(?a <=? ?b)%N] =>
             let E := fresh in destruct (N.leb_spec a b) as [E|E]
         | |- context [(?a =? ?b)%N] =>
             let E := fresh in destruct (N.eqb_spec a b) as [E|E]
         end; cbn [andb]; try reflexivity; lia.
Qed.

Lemma toLowerCase_tidy (s : jsstring) : Forall wordUnit s -> toLowerCase s = s.
Proof.
  induction 1 as [|c r Hc _ IH]; [reflexivity|].
  unfold toLowerCase in *. cbn [flat_map]. now rewrite (lowerUnit_wordUnit Hc), IH.
Qed.

Lemma replace_tidy (s : jsstring) :
  Forall wordUnit s ->
  map (fun c => if isLowerOrDigit c || isSpace c then c else 32%N) s = s.
Proof.
  induction 1 as [|c r Hc _ IH]; [reflexivity|].
  cbn [map]. now rewrite (wordUnit_kept Hc), IH.
Qed.

Lemma collapseSpaces_tidy (s : jsstring) :
  Forall wordUnit s -> singleSpaced s -> collapseSpaces s = s.
Proof.
  induction 1 as [|c r Hc Hr IH]; intros S; [reflexivity|].
  cbn [collapseSpaces]. destruct r as [|d r'].
  - destruct (isSpace c) eqn:E; [|reflexivity].
    now rewrite (wordUnit_space Hc E).
  - cbn [singleSpaced] in S. destruct S as (S1 & S2).
    destruct (isSpace c) eqn:E.
    + rewrite (S1 eq_refl), (wordUnit_space Hc E). now rewrite IH.
    + now rewrite IH.
Qed.

Lemma trim_tidy (s : jsstring) :
  startsClean s -> startsClean (rev s) -> trim s = s.
Proof.
  intros H1 H2. unfold trim, trimStart, trimEnd.
  assert (D : forall l, startsClean l -> dropWhile isSpace l = l).
  { intros [|c r] H; [reflexivity|]. cbn in *. now rewrite H. }
  rewrite (D s H1), (D (rev s) H2). apply rev_involutive.
Qed.

(** A text of that shape is left as it is. *)
Lemma normalizeText_tidy (s : jsstring) : tidy s -> normalizeText s = s.
Proof.
  intros (U & S & H1 & H2). unfold normalizeText.
  rewrite (toLowerCase_tidy U), (replace_tidy U), (collapseSpaces_tidy U S).
  now apply trim_tidy.
Qed.

Lemma collapseSpaces_units (s : jsstring) :
  Forall (fun c => isLowerOrDigit c || isSpace c = true) s ->
  Forall wordUnit (collapseSpaces s).
Proof.
  induction 1 as [|c r Hc Hr IH]; [constructor|].
  cbn [collapseSpaces]. destruct (isSpace c) eqn:E.
  - destruct r as [|d r']; [constructor; [now right | constructor]|].
    destruct (isSpace d); [exact IH|]. constructor; [now right | exact IH].
  - constructor; [|exact IH]. left. now rewrite orb_false_r in Hc.
Qed.

Lemma collapseSpaces_single (s : jsstring) : singleSpaced (collapseSpaces s).
Proof.
  induction s as [|c r IH]; [exact I|].
  cbn [collapseSpaces]. destruct (isSpace c) eqn:E.
  - destruct r as [|d r']; [exact I|].
    destruct (isSpace d) eqn:Ed; [exact IH|].
    cbn [collapseSpaces] in *. rewrite Ed in *.
    cbn [singleSpaced]. split; [intros _; exact Ed | exact IH].
  - destruct (collapseSpaces r) as [|d t] eqn:C; [exact I|].
    cbn [singleSpaced]. split; [intros H; congruence | exact IH].
Qed.

Lemma singleSpaced_tail (c : N) (r : jsstring) :
  singleSpaced (c :: r) -> singleSpaced r.
Proof. destruct r as [|d r']; [intros _; exact I|]. cbn. tauto. Qed.

Lemma singleSpaced_prefix (p q : jsstring) :
  singleSpaced (p ++ q) -> singleSpaced p.
Proof.
  induction p as [|c r IH]; [intros _; exact I|].
  destruct r as [|d r']; [intros _; exact I|].
  cbn [app singleSpaced]. intros (H1 & H2). split; [exact H1|].
  apply IH. exact H2.
Qed.

Lemma dropWhile_shape (s : jsstring) :
  Forall wordUnit s -> singleSpaced s ->
  Forall wordUnit (dropWhile isSpace s)
  /\ singleSpaced (dropWhile isSpace s)
  /\ startsClean (dropWhile isSpace s).
Proof.
  induction 1 as [|c r Hc Hr IH]; intros S; [repeat split; constructor|].
  cbn [dropWhile]. destruct (isSpace c) eqn:E.
  - apply IH. now apply singleSpaced_tail in S.
  - repeat split; [now constructor | exact S | exact E].
Qed.

Lemma dropWhile_In (f : N -> bool) (s : jsstring) (x : N) :
  In x (dropWhile f s) -> In x s.
Proof.
  induction s as [|c r IH]; [tauto|]. cbn [dropWhile].
  destruct (f c); [intros H; right; now apply IH | tauto].
Qed.

Lemma dropWhile_starts (f : N -> bool) (s : jsstring) :
  match dropWhile f s with c :: _ => f c = false | [] => True end.
Proof.
  induction s as [|c r IH]; [exact I|]. cbn [dropWhile].
  destruct (f c) eqn:E; [exact IH | exact E].
Qed.

Lemma takeWhile_dropWhile (f : N -> bool) (s : jsstring) :
  takeWhile f s ++ dropWhile f s = s.
Proof.
  induction s as [|c r IH]; [reflexivity|]. cbn.
  destruct (f c); cbn; [now rewrite IH | reflexivity].
Qed.

Lemma trimEnd_prefix (s : jsstring) :
  s = trimEnd s ++ rev (takeWhile isSpace (rev s)).
Proof.
  unfold trimEnd. rewrite <- rev_app_distr, takeWhile_dropWhile.
  symmetry. apply rev_involutive.
Qed.

Lemma trimEnd_shape (s : jsstring) :
  Forall wordUnit s -> singleSpaced s -> startsClean s -> tidy (trimEnd s).
Proof.
  intros U S H. unfold tidy. repeat split.
  - apply Forall_forall. intros x Hx. unfold trimEnd in Hx.
    apply in_rev, dropWhile_In in Hx. apply in_rev in Hx.
    rewrite Forall_forall in U. now apply U.
  - apply singleSpaced_prefix with (rev (takeWhile isSpace (rev s))).
    now rewrite <- trimEnd_prefix.
  - pose proof (trimEnd_prefix s) as P.
    destruct (trimEnd s) as [|c t]; [exact I|].
    rewrite P in H. exact H.
  - unfold trimEnd. rewrite rev_involutive. apply dropWhile_starts.
Qed.

(** Every text is normalized to a text of that shape. *)
Lemma normalizeText_shape (text : jsstring) : tidy (normalizeText text).
Proof.
  unfold normalizeText, trim, trimStart.
  set (a := map (fun c => if isLowerOrDigit c || isSpace c then c else 32%N)
                (toLowerCase text)).
  assert (A : Forall (fun c => isLowerOrDigit c || isSpace c = true) a).
  { unfold a. apply Forall_forall. intros x Hx.
    apply in_map_iff in Hx as (c & <- & _).
    destruct (isLowerOrDigit c || isSpace c) eqn:E; [exact E | reflexivity]. }
  destruct (dropWhile_shape (collapseSpaces_units A) (collapseSpaces_single a))
    as (U & S & H).
  now apply trimEnd_shape.
Qed.

Lemma split_space_words (s : jsstring) (w : jsstring) :
  Forall wordUnit s -> In w (split_space s) ->
  Forall (fun c => isLowerOrDigit c = true) w.
Proof.
  intros U. revert w. induction U as [|c r Hc Hr IH]; intros w H.
  - destruct H as [<-|[]]. constructor.
  - cbn [split_space] in H. destruct (c =? 32)%N eqn:E.
    + destruct H as [<-|H]; [constructor | now apply IH].
    + destruct (split_space r) as [|w0 ws] eqn:Sp.
      * destruct H as [<-|[]]. constructor; [|constructor].
        destruct Hc as [Hc| ->]; [exact Hc | discriminate].
      * destruct H as [<-|H].
        -- constructor.
           ++ destruct Hc as [Hc| ->]; [exact Hc | discriminate].
           ++ apply IH. now left.
        -- apply IH. now right.
Qed.

(** X30.  The normalized text is made of lower-case letters, digits and
    single spaces, with no space at either end; normalizing it again
    changes nothing, so [tokenize] and [scoreRelevance] give the same
    result on a text and on its normalized form.  Every token is a word of
    lower-case letters and digits, at least two long, that is no stop
    word. *)
Theorem normalizeText_canonical (text other : jsstring) :
  let n := normalizeText text in
  Forall (fun c => isLowerOrDigit c = true \/ c = 32%N) n
  /\ singleSpaced n
  /\ startsClean n /\ startsClean (rev n)
  /\ normalizeText n = n
  /\ tokenize n = tokenize text
  /\ scoreRelevance n (normalizeText other) = scoreRelevance text other
  /\ Forall (fun token =>
               2 <= length token
               /\ Forall (fun c => isLowerOrDigit c = true) token
               /\ has stopWords token = false)
            (tokenize text).
Proof.
  intros n. destruct (normalizeText_shape text) as (U & S & H1 & H2).
  assert (E : normalizeText n = n) by (apply normalizeText_tidy; repeat split; assumption).
  split; [exact U|]. split; [exact S|]. split; [exact H1|]. split; [exact H2|].
  split; [exact E|]. split; [|split].
  - unfold tokenize. now rewrite E.
  - unfold scoreRelevance. fold n. rewrite E.
    now rewrite (normalizeText_tidy (normalizeText_shape other)).
  - apply Forall_forall. intros token Ht. unfold tokenize in Ht.
    apply filter_In in Ht as (Ht & C). apply andb_true_iff in C as (C1 & C2).
    split; [apply Nat.ltb_lt in C1; lia|]. split.
    + now apply (@split_space_words (normalizeText text) token U).
    + now apply negb_true_iff.
Qed.

End NormalizeFacts.
